(** * ThemeKeeper: a shallow embedding of [extension.js]

    The extension keeps GNOME theme attributes and wallpapers in step with
    the light/dark colour scheme.  The embedding follows the source:

    - a JavaScript string is the [string] of its UTF-8 bytes; [null] is
      [None];
    - the instance fields ([this._settings], [this._storedWallpapers], ...)
      are a record threaded through a state-and-exception monad;
    - every call that leaves the extension (Gio.Settings, GLib.spawn,
      Gio.Subprocess, the D-Bus proxy, logging) is an event of a free
      monad, so that a method is a finite tree of calls and answers;
    - an [await] is an event too: the instance is handed to the main loop
      and received back when the method resumes.

    A method can then be run against any environment ([run]), and in
    particular against a reference desktop ([desktop]) with Gio.Settings
    stores and a dconf database. *)

From Stdlib Require Import String Ascii List Bool ZArith Lia.
From stdpp Require Import gmap strings.
Import ListNotations.

(** ** JavaScript string primitives used by the extension *)

Module JS.

(** Truthiness of a string: only the empty string is falsy. *)
Definition truthy (s : string) : bool :=
  match s with
  | EmptyString => false
  | String _ _ => true
  end.

(** Truthiness of a [string | null] value. *)
Definition truthy_opt (v : option string) : bool :=
  match v with
  | Some s => truthy s
  | None => false
  end.

(** [a || b] on strings. *)
Definition or_else (a b : string) : string :=
  if truthy a then a else b.

(** A string holds the UTF-8 bytes of the JavaScript string.  The
    extension looks for ASCII text only (a quote at either end, [dark],
    [file://], a slash, an alphanumeric extension), and ASCII text stands
    in the bytes exactly where it stands in the characters; [trim] alone
    has to know characters of more than one byte.

    White space and line terminators removed by [String.prototype.trim].
    The one-byte characters: TAB, LF, VT, FF, CR and SPACE. *)
Definition is_space (c : ascii) : bool :=
  (Ascii.eqb c "009" || Ascii.eqb c "010" || Ascii.eqb c "011" ||
   Ascii.eqb c "012" || Ascii.eqb c "013" || Ascii.eqb c " ")%char.

(** The two-byte one: U+00A0. *)
Definition is_space2 (c1 c2 : ascii) : bool :=
  (Ascii.eqb c1 "194" && Ascii.eqb c2 "160")%char.

(** The three-byte ones: U+1680, U+2000 to U+200A, U+2028, U+2029,
    U+202F, U+205F, U+3000 and U+FEFF. *)
Definition is_space3 (c1 c2 c3 : ascii) : bool :=
  (Ascii.eqb c1 "225" && Ascii.eqb c2 "154" && Ascii.eqb c3 "128")
  || (Ascii.eqb c1 "226" && Ascii.eqb c2 "128"
      && ((128 <=? nat_of_ascii c3) && (nat_of_ascii c3 <=? 138)
          || Ascii.eqb c3 "168" || Ascii.eqb c3 "169" || Ascii.eqb c3 "175"))
  || (Ascii.eqb c1 "226" && Ascii.eqb c2 "129" && Ascii.eqb c3 "159")
  || (Ascii.eqb c1 "227" && Ascii.eqb c2 "128" && Ascii.eqb c3 "128")
  || (Ascii.eqb c1 "239" && Ascii.eqb c2 "187" && Ascii.eqb c3 "191").

Fixpoint trimStart (s : string) : string :=
  match s with
  | EmptyString => EmptyString
  | String c1 s1 =>
      if is_space c1 then trimStart s1
      else
        match s1 with
        | EmptyString => s
        | String c2 s2 =>
            if is_space2 c1 c2 then trimStart s2
            else
              match s2 with
              | EmptyString => s
              | String c3 s3 => if is_space3 c1 c2 c3 then trimStart s3 else s
              end
        end
  end.

(** The longest all-white-space suffix is removed. *)
Fixpoint trimEnd (s : string) : string :=
  match s with
  | EmptyString => EmptyString
  | String c s' =>
      match trimStart s with
      | EmptyString => EmptyString
      | _ => String c (trimEnd s')
      end
  end.

Definition trim (s : string) : string := trimEnd (trimStart s).

Definition startsWith (s p : string) : bool := String.prefix p s.

Fixpoint endsWith (s p : string) : bool :=
  if String.eqb s p then true
  else match s with
       | EmptyString => false
       | String _ s' => endsWith s' p
       end.

(** [s.slice(b, e)]: negative indices count from the end, both are clamped
    to the string.  The extension calls [slice(1, -1)] on a string that
    starts and ends with a quote: the first and the last byte go. *)
Definition slice (s : string) (b e : Z) : string :=
  let len := Z.of_nat (String.length s) in
  let clamp i := if (i <? 0)%Z then Z.max (len + i) 0 else Z.min i len in
  let from := clamp b in
  let to := clamp e in
  substring (Z.to_nat from) (Z.to_nat (to - from)) s.

Fixpoint includes (s sub : string) : bool :=
  if String.prefix sub s then true
  else match s with
       | EmptyString => false
       | String _ s' => includes s' sub
       end.

Fixpoint drop (n : nat) (s : string) : string :=
  match n, s with
  | O, _ => s
  | S n', String _ s' => drop n' s'
  | S _, EmptyString => EmptyString
  end.

(** [s.replace(pat, rep)] with a string pattern: the first occurrence only. *)
Fixpoint replace (s pat rep : string) : string :=
  if String.prefix pat s then rep +:+ drop (String.length pat) s
  else match s with
       | EmptyString => EmptyString
       | String c s' => String c (replace s' pat rep)
       end.

(** [s.split(sep)] for a one-character separator: never an empty array. *)
Fixpoint split (s : string) (sep : ascii) : list string :=
  match s with
  | EmptyString => [EmptyString]
  | String c s' =>
      if Ascii.eqb c sep then EmptyString :: split s' sep
      else match split s' sep with
           | w :: ws => String c w :: ws
           | [] => [String c EmptyString]
           end
  end.

(** [a.pop()]: the last element, [undefined] on an empty array. *)
Fixpoint pop (a : list string) : option string :=
  match a with
  | [] => None
  | [x] => Some x
  | _ :: a' => pop a'
  end.

(** [if (v)] for an object reference [v] that may be [null]. *)
Definition nonnull {A : Type} (v : option A) : bool :=
  match v with
  | Some _ => true
  | None => false
  end.

(** [v || ''] for [v : string | undefined]. *)
Definition or_empty (v : option string) : string :=
  match v with
  | Some s => s
  | None => EmptyString
  end.

(** *** Regular expressions

    The fragment needed for [/-l\.[a-zA-Z0-9]+$/]: literals, character
    classes given by ranges, sequence, alternative and repetition.  A
    pattern ends with the anchor [$]; [test_end] is [/r$/.test(s)]. *)

Inductive regex : Type :=
| RNone : regex
| REps : regex
| RChar : ascii -> regex
| RClass : list (ascii * ascii) -> regex
| RSeq : regex -> regex -> regex
| RAlt : regex -> regex -> regex
| RStar : regex -> regex.

Definition RPlus (r : regex) : regex := RSeq r (RStar r).

Definition in_range (c : ascii) (r : ascii * ascii) : bool :=
  (nat_of_ascii (fst r) <=? nat_of_ascii c) && (nat_of_ascii c <=? nat_of_ascii (snd r)).

Definition in_class (c : ascii) (rs : list (ascii * ascii)) : bool :=
  existsb (in_range c) rs.

Fixpoint nullable (r : regex) : bool :=
  match r with
  | RNone => false
  | REps => true
  | RChar _ => false
  | RClass _ => false
  | RSeq r1 r2 => nullable r1 && nullable r2
  | RAlt r1 r2 => nullable r1 || nullable r2
  | RStar _ => true
  end.

Fixpoint deriv (c : ascii) (r : regex) : regex :=
  match r with
  | RNone => RNone
  | REps => RNone
  | RChar d => if Ascii.eqb c d then REps else RNone
  | RClass rs => if in_class c rs then REps else RNone
  | RSeq r1 r2 =>
      if nullable r1 then RAlt (RSeq (deriv c r1) r2) (deriv c r2)
      else RSeq (deriv c r1) r2
  | RAlt r1 r2 => RAlt (deriv c r1) (deriv c r2)
  | RStar r1 => RSeq (deriv c r1) (RStar r1)
  end.

(** The whole of [s] matches [r]. *)
Fixpoint matches (r : regex) (s : string) : bool :=
  match s with
  | EmptyString => nullable r
  | String c s' => matches (deriv c r) s'
  end.

(** [/r$/.test(s)]: some suffix of [s] matches [r]. *)
Fixpoint test_end (r : regex) (s : string) : bool :=
  if matches r s then true
  else match s with
       | EmptyString => false
       | String _ s' => test_end r s'
       end.

End JS.

(** ** [_isPairedWallpaper] *)

(** [[a-zA-Z0-9]] *)
Definition alnum : list (ascii * ascii) :=
  [("a", "z"); ("A", "Z"); ("0", "9")]%char.

(** [/-l\.[a-zA-Z0-9]+$/] and [/-d\.[a-zA-Z0-9]+$/], without the anchor. *)
Definition re_light : JS.regex :=
  JS.RSeq (JS.RChar "-") (JS.RSeq (JS.RChar "l") (JS.RSeq (JS.RChar ".") (JS.RPlus (JS.RClass alnum)))).

Definition re_dark : JS.regex :=
  JS.RSeq (JS.RChar "-") (JS.RSeq (JS.RChar "d") (JS.RSeq (JS.RChar ".") (JS.RPlus (JS.RClass alnum)))).

Definition _isPairedWallpaper (uri : option string) : bool :=
  match uri with
  | None => false
  | Some u =>
      if negb (JS.truthy u) then false
      else
        let filename := JS.or_empty (JS.pop (JS.split (JS.replace u "file://" "") "/")) in
        JS.test_end re_light filename || JS.test_end re_dark filename
  end.

(** ** The instance and the calls that leave it *)

(** The two Gio.Settings objects the extension opens. *)
Inductive schema : Type :=
| Background   (* org.gnome.desktop.background *)
| Interface.   (* org.gnome.desktop.interface *)

(** What [this._lastNightLightState] can hold: [null], [undefined] (a
    property the proxy does not define) or a boolean. *)
Inductive jsbool : Type :=
| JNull
| JUndefined
| JBool (b : bool).

Definition jsbool_truthy (v : jsbool) : bool :=
  match v with
  | JBool b => b
  | _ => false
  end.

(** [a !== b] *)
Definition jsbool_strict_neq (a b : jsbool) : bool :=
  match a, b with
  | JNull, JNull => false
  | JUndefined, JUndefined => false
  | JBool x, JBool y => negb (Bool.eqb x y)
  | _, _ => true
  end.

Inductive exn : Type :=
| TypeError   (* a method called on null, or null passed for a string *)
| GLibError.  (* an error raised by GLib or Gio *)

(** [this._storedWallpapers] *)
Record Wallpapers : Type := {
  light : option string;
  dark : option string
}.

Record Ext : Type := {
  _nightLightProxy : option unit;
  _settings : option schema;
  _interfaceSettings : option schema;
  _lastNightLightState : jsbool;
  _storedWallpapers : Wallpapers;
  _wallpaperChangeHandler : option nat;
  _styleChangeHandler : option nat;
  _dconfPath : string
}.

(** [constructor()] *)
Definition constructor : Ext := {|
  _nightLightProxy := None;
  _settings := None;
  _interfaceSettings := None;
  _lastNightLightState := JNull;
  _storedWallpapers := {| light := None; dark := None |};
  _wallpaperChangeHandler := None;
  _styleChangeHandler := None;
  _dconfPath := "/org/gnome/shell/extensions/themekeeper/"
|}.

Definition set_nightLightProxy (v : option unit) (e : Ext) : Ext :=
  {| _nightLightProxy := v; _settings := _settings e;
     _interfaceSettings := _interfaceSettings e;
     _lastNightLightState := _lastNightLightState e;
     _storedWallpapers := _storedWallpapers e;
     _wallpaperChangeHandler := _wallpaperChangeHandler e;
     _styleChangeHandler := _styleChangeHandler e;
     _dconfPath := _dconfPath e |}.

Definition set_settings (v : option schema) (e : Ext) : Ext :=
  {| _nightLightProxy := _nightLightProxy e; _settings := v;
     _interfaceSettings := _interfaceSettings e;
     _lastNightLightState := _lastNightLightState e;
     _storedWallpapers := _storedWallpapers e;
     _wallpaperChangeHandler := _wallpaperChangeHandler e;
     _styleChangeHandler := _styleChangeHandler e;
     _dconfPath := _dconfPath e |}.

Definition set_interfaceSettings (v : option schema) (e : Ext) : Ext :=
  {| _nightLightProxy := _nightLightProxy e; _settings := _settings e;
     _interfaceSettings := v;
     _lastNightLightState := _lastNightLightState e;
     _storedWallpapers := _storedWallpapers e;
     _wallpaperChangeHandler := _wallpaperChangeHandler e;
     _styleChangeHandler := _styleChangeHandler e;
     _dconfPath := _dconfPath e |}.

Definition set_lastNightLightState (v : jsbool) (e : Ext) : Ext :=
  {| _nightLightProxy := _nightLightProxy e; _settings := _settings e;
     _interfaceSettings := _interfaceSettings e;
     _lastNightLightState := v;
     _storedWallpapers := _storedWallpapers e;
     _wallpaperChangeHandler := _wallpaperChangeHandler e;
     _styleChangeHandler := _styleChangeHandler e;
     _dconfPath := _dconfPath e |}.

Definition set_storedWallpapers (v : Wallpapers) (e : Ext) : Ext :=
  {| _nightLightProxy := _nightLightProxy e; _settings := _settings e;
     _interfaceSettings := _interfaceSettings e;
     _lastNightLightState := _lastNightLightState e;
     _storedWallpapers := v;
     _wallpaperChangeHandler := _wallpaperChangeHandler e;
     _styleChangeHandler := _styleChangeHandler e;
     _dconfPath := _dconfPath e |}.

(** [this._storedWallpapers.light = v] and [this._storedWallpapers.dark = v] *)
Definition set_stored_light (v : option string) (e : Ext) : Ext :=
  set_storedWallpapers {| light := v; dark := dark (_storedWallpapers e) |} e.

Definition set_stored_dark (v : option string) (e : Ext) : Ext :=
  set_storedWallpapers {| light := light (_storedWallpapers e); dark := v |} e.

Definition set_wallpaperChangeHandler (v : option nat) (e : Ext) : Ext :=
  {| _nightLightProxy := _nightLightProxy e; _settings := _settings e;
     _interfaceSettings := _interfaceSettings e;
     _lastNightLightState := _lastNightLightState e;
     _storedWallpapers := _storedWallpapers e;
     _wallpaperChangeHandler := v;
     _styleChangeHandler := _styleChangeHandler e;
     _dconfPath := _dconfPath e |}.

Definition set_styleChangeHandler (v : option nat) (e : Ext) : Ext :=
  {| _nightLightProxy := _nightLightProxy e; _settings := _settings e;
     _interfaceSettings := _interfaceSettings e;
     _lastNightLightState := _lastNightLightState e;
     _storedWallpapers := _storedWallpapers e;
     _wallpaperChangeHandler := _wallpaperChangeHandler e;
     _styleChangeHandler := v;
     _dconfPath := _dconfPath e |}.

(** What [GLib.spawn_command_line_sync] and [GLib.shell_parse_argv] answer:
    they throw, or return [[success, stdout]] and [[success, argv]]. *)
Inductive spawn_result : Type :=
| SpawnThrows
| SpawnReturns (success : bool) (stdout : option string).

Inductive parse_result : Type :=
| ParseThrows
| ParseReturns (success : bool) (argv : list string).

(** The calls that leave the extension, indexed by the type of the answer.
    The three [Await] events are the points where an [async] method gives
    control back to the main loop: the instance goes out with the event and
    comes back, possibly changed by other handlers, with the answer. *)
Inductive eff : Type -> Type :=
| ConsoleLog (msg : string) : eff unit
| LogError (e : exn) : eff unit
| GetString (s : schema) (key : string) : eff string
| SetString (s : schema) (key value : string) : eff unit
| Connect (s : schema) (signal : string) : eff nat
| Disconnect (s : schema) (id : nat) : eff unit
| SpawnCommandLineSync (cmd : string) : eff spawn_result
| ShellParseArgv (cmd : string) : eff parse_result
| SubprocessInit (argv : list string) : eff bool
| AwaitCommunicate (this : Ext) (argv : list string) : eff (Ext * bool)
| AwaitSettled (this : Ext) : eff Ext
| AwaitProxyInit (this : Ext) : eff (Ext * bool)
| ProxyNightLightActive : eff jsbool
| ProxyConnect (signal : string) : eff nat.

(** A method body: a finite tree of calls, branching on the answers. *)
Inductive prog (A : Type) : Type :=
| Ret : A -> prog A
| Call : forall X : Type, eff X -> (X -> prog A) -> prog A.

Arguments Ret {A} _.
Arguments Call {A X} _ _.

Fixpoint pbind {A B : Type} (p : prog A) (f : A -> prog B) : prog B :=
  match p with
  | Ret a => f a
  | Call e k => Call e (fun x => pbind (k x) f)
  end.

(** Normal completion or a thrown exception. *)
Inductive res (A : Type) : Type :=
| Ok : A -> res A
| Throw : exn -> res A.

Arguments Ok {A} _.
Arguments Throw {A} _.

(** A method: from the instance to a tree of calls ending in a result and
    the instance as the method left it. *)
Definition M (A : Type) : Type := Ext -> prog (res A * Ext).

Definition ret {A : Type} (a : A) : M A := fun this => Ret (Ok a, this).

Definition throw {A : Type} (x : exn) : M A := fun this => Ret (Throw x, this).

Definition bind {A B : Type} (m : M A) (f : A -> M B) : M B :=
  fun this =>
    pbind (m this) (fun r =>
      match fst r with
      | Ok a => f a (snd r)
      | Throw x => Ret (Throw x, snd r)
      end).

(** [try { body } catch (x) { handler }] *)
Definition try_catch {A : Type} (body : M A) (handler : exn -> M A) : M A :=
  fun this =>
    pbind (body this) (fun r =>
      match fst r with
      | Ok a => Ret (Ok a, snd r)
      | Throw x => handler x (snd r)
      end).

Definition get_this : M Ext := fun this => Ret (Ok this, this).

Definition assign (f : Ext -> Ext) : M unit := fun this => Ret (Ok tt, f this).

Definition call {X : Type} (e : eff X) : M X :=
  fun this => Call e (fun x => Ret (Ok x, this)).

Declare Scope js_scope.
Delimit Scope js_scope with js.
Notation "'let*' x ':=' m 'in' k" := (bind m (fun x => k))
  (at level 10, x binder, m at level 100, k at level 200) : js_scope.
Notation "m ';;;' k" := (bind m (fun _ => k))
  (at level 100, k at level 200, right associativity) : js_scope.
Open Scope js_scope.

(** [if (c) stmt] *)
Definition when (c : bool) (m : M unit) : M unit := if c then m else ret tt.

(** *** The library calls as the source writes them *)

(** [settings.get_string(key)] on a handle that may be [null]. *)
Definition get_string (h : option schema) (key : string) : M string :=
  match h with
  | None => throw TypeError
  | Some s => call (GetString s key)
  end.

(** [settings.set_string(key, value)]: the handle may be [null], and a
    [null] value is refused by the binding. *)
Definition set_string (h : option schema) (key : string) (value : option string) : M unit :=
  match h with
  | None => throw TypeError
  | Some s =>
      match value with
      | None => throw TypeError
      | Some v => call (SetString s key v)
      end
  end.

(** [settings.connect(signal, closure)] and [settings.disconnect(id)] *)
Definition connect (h : option schema) (signal : string) : M nat :=
  match h with
  | None => throw TypeError
  | Some s => call (Connect s signal)
  end.

Definition disconnect (h : option schema) (id : option nat) : M unit :=
  match h, id with
  | Some s, Some n => call (Disconnect s n)
  | _, _ => throw TypeError
  end.

(** [GLib.spawn_command_line_sync(cmd)] *)
Definition spawn_command_line_sync (cmd : string) : M (bool * option string) :=
  let* r := call (SpawnCommandLineSync cmd) in
  match r with
  | SpawnThrows => throw GLibError
  | SpawnReturns success stdout => ret (success, stdout)
  end.

(** [GLib.shell_parse_argv(cmd)] *)
Definition shell_parse_argv (cmd : string) : M (bool * list string) :=
  let* r := call (ShellParseArgv cmd) in
  match r with
  | ParseThrows => throw GLibError
  | ParseReturns success argv => ret (success, argv)
  end.

(** [new Gio.Subprocess({argv, flags}); subprocess.init(null)] *)
Definition subprocess_init (argv : list string) : M unit :=
  let* ok := call (SubprocessInit argv) in
  if ok : bool then ret tt else throw GLibError.

(** [await subprocess.communicate_utf8_async(null, null)] *)
Definition await_communicate (argv : list string) : M unit :=
  fun this =>
    Call (AwaitCommunicate this argv) (fun r =>
      if snd r : bool then Ret (Ok tt, fst r) else Ret (Throw GLibError, fst r)).

(** [await m()] for an [async] method [m]: [m] runs up to its completion
    (through its own suspensions), and the caller resumes one turn later. *)
Definition await {A : Type} (m : M A) : M A :=
  let* a := m in
  let* _ := (fun this => Call (AwaitSettled this) (fun this' => Ret (Ok tt, this'))) in
  ret a.

(** [a !== b] for a string [a] and [b : string | null] *)
Definition strict_neq (a : string) (b : option string) : bool :=
  match b with
  | Some s => negb (String.eqb a s)
  | None => true
  end.

(** [`${v}`] for [v : string | null] *)
Definition template (v : option string) : string :=
  match v with
  | Some s => s
  | None => "null"
  end.

(** The double quote, which a string literal here cannot hold. *)
Definition dq : string := String "034" EmptyString.

(** ** The methods of [ThemeKeeperExtension] *)

Definition _logError (e : exn) : M unit := call (LogError e).

(** In the three readers below the [return defaultValue] that follows the
    [try] is reached from the failed test and from the [catch]; it is
    written at both places. *)
Definition _getDconfBoolean (key : string) (defaultValue : option bool) : M (option bool) :=
  try_catch
    (let* this := get_this in
     let* out := spawn_command_line_sync ("dconf read " +:+ _dconfPath this +:+ key) in
     match out with
     | (true, Some stdout) =>
         let value := JS.trim stdout in
         if String.eqb value "" then ret defaultValue
         else ret (Some (String.eqb value "true"))
     | _ => ret defaultValue
     end)
    (fun e => _logError e ;;; ret defaultValue).

Definition _setDconfBoolean (key : string) (value : bool) : M unit :=
  try_catch
    (let* this := get_this in
     let boolValue := if value then "true" else "false" in
     let* _ := spawn_command_line_sync
                 ("dconf write " +:+ _dconfPath this +:+ key +:+ " " +:+ boolValue) in
     ret tt)
    (fun e => _logError e).

Definition _getDconfString (key : string) (defaultValue : option string) : M (option string) :=
  try_catch
    (let* this := get_this in
     let* out := spawn_command_line_sync ("dconf read " +:+ _dconfPath this +:+ key) in
     match out with
     | (true, Some stdout) =>
         let value := JS.trim stdout in
         if String.eqb value "" then ret defaultValue
         else if JS.startsWith value "'" && JS.endsWith value "'"
              then ret (Some (JS.slice value 1 (-1)))
              else ret (Some value)
     | _ => ret defaultValue
     end)
    (fun e => _logError e ;;; ret defaultValue).

Definition _setDconfString (key : string) (value : string) : M unit :=
  try_catch
    (let* this := get_this in
     let* _ := spawn_command_line_sync
                 ("dconf write " +:+ _dconfPath this +:+ key +:+ " " +:+ dq +:+ "'" +:+ value +:+ "'" +:+ dq) in
     ret tt)
    (fun e => _logError e).

Definition _getCurrentShellTheme : M string :=
  try_catch
    (let* out := spawn_command_line_sync "dconf read /org/gnome/shell/extensions/user-theme/name" in
     match out with
     | (true, Some stdout) =>
         let value := JS.trim stdout in
         if String.eqb value "" then ret ""
         else if JS.startsWith value "'" && JS.endsWith value "'"
              then ret (JS.slice value 1 (-1))
              else ret value
     | _ => ret ""
     end)
    (fun e => _logError e ;;; ret "").

Definition _getAutomaticMode : M bool :=
  let* automaticMode := _getDconfBoolean "automatic-mode" None in
  match automaticMode with
  | None => _setDconfBoolean "automatic-mode" true ;;; ret true
  | Some b => ret b
  end.

Definition _saveCurrentThemeToLightKeys : M unit :=
  try_catch
    (let* this := get_this in
     let* currentGtk := get_string (_interfaceSettings this) "gtk-theme" in
     let* currentIcon := get_string (_interfaceSettings this) "icon-theme" in
     let* currentCursor := get_string (_interfaceSettings this) "cursor-theme" in
     let* currentAccent := get_string (_interfaceSettings this) "accent-color" in
     let* currentShell := _getCurrentShellTheme in
     _setDconfString "light-gtk-theme" currentGtk ;;;
     _setDconfString "light-icon-theme" currentIcon ;;;
     _setDconfString "light-cursor-theme" currentCursor ;;;
     _setDconfString "light-accent-color" currentAccent ;;;
     _setDconfString "light-shell-theme" (JS.or_else currentShell "Default"))
    (fun e => _logError e).

Definition _saveCurrentThemeToDarkKeys : M unit :=
  try_catch
    (let* this := get_this in
     let* currentGtk := get_string (_interfaceSettings this) "gtk-theme" in
     let* currentIcon := get_string (_interfaceSettings this) "icon-theme" in
     let* currentCursor := get_string (_interfaceSettings this) "cursor-theme" in
     let* currentAccent := get_string (_interfaceSettings this) "accent-color" in
     let* currentShell := _getCurrentShellTheme in
     _setDconfString "dark-gtk-theme" currentGtk ;;;
     _setDconfString "dark-icon-theme" currentIcon ;;;
     _setDconfString "dark-cursor-theme" currentCursor ;;;
     _setDconfString "dark-accent-color" currentAccent ;;;
     _setDconfString "dark-shell-theme" (JS.or_else currentShell "Default"))
    (fun e => _logError e).

Definition _handleWallpaperChange (changedKey : string) : M unit :=
  let* this := get_this in
  let* newValue := get_string (_settings this) changedKey in
  let* colorScheme := get_string (_interfaceSettings this) "color-scheme" in
  let isDark := JS.includes colorScheme "dark" in
  let isPaired := _isPairedWallpaper (Some newValue) in
  if isPaired then
    if String.eqb changedKey "picture-uri" then assign (set_stored_light (Some newValue))
    else assign (set_stored_dark (Some newValue))
  else
    if String.eqb changedKey "picture-uri" && isDark then
      set_string (_settings this) "picture-uri" (light (_storedWallpapers this))
    else if String.eqb changedKey "picture-uri-dark" && negb isDark then
      set_string (_settings this) "picture-uri-dark" (dark (_storedWallpapers this))
    else
      if String.eqb changedKey "picture-uri" then assign (set_stored_light (Some newValue))
      else assign (set_stored_dark (Some newValue)).

Definition _executeCommand (command : string) : M unit :=
  try_catch
    (let* parsed := shell_parse_argv command in
     if negb (fst parsed) then ret tt
     else
       subprocess_init (snd parsed) ;;;
       await_communicate (snd parsed))
    (fun e => _logError e).

Definition _applyLightTheme : M unit :=
  try_catch
    (let* lightGtk := _getDconfString "light-gtk-theme" None in
     let* lightShell := _getDconfString "light-shell-theme" None in
     let* lightIcon := _getDconfString "light-icon-theme" None in
     let* lightCursor := _getDconfString "light-cursor-theme" None in
     let* lightAccent := _getDconfString "light-accent-color" None in
     (let* this := get_this in
      when (JS.truthy_opt lightGtk)
        (set_string (_interfaceSettings this) "gtk-theme" lightGtk)) ;;;
     (if JS.truthy_opt lightShell && strict_neq "Default" lightShell
      then await (_executeCommand
                    ("dconf write /org/gnome/shell/extensions/user-theme/name "
                       +:+ dq +:+ "'" +:+ template lightShell +:+ "'" +:+ dq))
      else await (_executeCommand "dconf reset /org/gnome/shell/extensions/user-theme/name")) ;;;
     (let* this := get_this in
      when (JS.truthy_opt lightIcon)
        (set_string (_interfaceSettings this) "icon-theme" lightIcon)) ;;;
     (let* this := get_this in
      when (JS.truthy_opt lightCursor)
        (set_string (_interfaceSettings this) "cursor-theme" lightCursor)) ;;;
     (let* this := get_this in
      when (JS.truthy_opt lightAccent)
        (set_string (_interfaceSettings this) "accent-color" lightAccent)))
    (fun e => _logError e).

Definition _applyDarkTheme : M unit :=
  try_catch
    (let* darkGtk := _getDconfString "dark-gtk-theme" None in
     let* darkShell := _getDconfString "dark-shell-theme" None in
     let* darkIcon := _getDconfString "dark-icon-theme" None in
     let* darkCursor := _getDconfString "dark-cursor-theme" None in
     let* darkAccent := _getDconfString "dark-accent-color" None in
     (let* this := get_this in
      when (JS.truthy_opt darkGtk)
        (set_string (_interfaceSettings this) "gtk-theme" darkGtk)) ;;;
     (if JS.truthy_opt darkShell && strict_neq "Default" darkShell
      then await (_executeCommand
                    ("dconf write /org/gnome/shell/extensions/user-theme/name "
                       +:+ dq +:+ "'" +:+ template darkShell +:+ "'" +:+ dq))
      else await (_executeCommand "dconf reset /org/gnome/shell/extensions/user-theme/name")) ;;;
     (let* this := get_this in
      when (JS.truthy_opt darkIcon)
        (set_string (_interfaceSettings this) "icon-theme" darkIcon)) ;;;
     (let* this := get_this in
      when (JS.truthy_opt darkCursor)
        (set_string (_interfaceSettings this) "cursor-theme" darkCursor)) ;;;
     (let* this := get_this in
      when (JS.truthy_opt darkAccent)
        (set_string (_interfaceSettings this) "accent-color" darkAccent)))
    (fun e => _logError e).

(** [_handleStyleChange] is not [async]: it starts the applier and returns
    at the applier's first suspension; nothing follows the call, so the
    rest of the applier is the rest of the tree. *)
Definition _handleStyleChange : M unit :=
  let* this := get_this in
  let* colorScheme := get_string (_interfaceSettings this) "color-scheme" in
  let isDark := JS.includes colorScheme "dark" in
  if isDark then
    _saveCurrentThemeToLightKeys ;;;
    _applyDarkTheme
  else
    _saveCurrentThemeToDarkKeys ;;;
    _applyLightTheme.

Definition _handleNightLightChange (nightLightActive : jsbool) : M unit :=
  let* automatic := _getAutomaticMode in
  if negb automatic then ret tt
  else if jsbool_truthy nightLightActive then
    (let* this := get_this in
     set_string (_interfaceSettings this) "color-scheme" (Some "prefer-dark")) ;;;
    let* this := get_this in
    let* currentDark := get_string (_settings this) "picture-uri-dark" in
    when (strict_neq currentDark (dark (_storedWallpapers this)))
      (set_string (_settings this) "picture-uri-dark" (dark (_storedWallpapers this)))
  else
    (let* this := get_this in
     set_string (_interfaceSettings this) "color-scheme" (Some "default")) ;;;
    let* this := get_this in
    let* currentLight := get_string (_settings this) "picture-uri" in
    when (strict_neq currentLight (light (_storedWallpapers this)))
      (set_string (_settings this) "picture-uri" (light (_storedWallpapers this))).

(** The closure connected to [g-properties-changed]; [changed] is the
    unpacked [NightLightActive] entry of the changed properties, if any. *)
Definition on_properties_changed (changed : option bool) : M unit :=
  match changed with
  | None => ret tt
  | Some newState =>
      let* this := get_this in
      if jsbool_strict_neq (_lastNightLightState this) (JBool newState) then
        assign (set_lastNightLightState (JBool newState)) ;;;
        _handleNightLightChange (JBool newState)
      else ret tt
  end.

(** [this._nightLightProxy.NightLightActive] *)
Definition proxy_NightLightActive (p : option unit) : M jsbool :=
  match p with
  | None => throw TypeError
  | Some _ => call ProxyNightLightActive
  end.

(** [this._nightLightProxy.connect(signal, closure)] *)
Definition proxy_connect (p : option unit) (signal : string) : M nat :=
  match p with
  | None => throw TypeError
  | Some _ => call (ProxyConnect signal)
  end.

(** [await this._nightLightProxy.init_async(null, null)] *)
Definition await_proxy_init : M unit :=
  fun this =>
    Call (AwaitProxyInit this) (fun r =>
      if snd r : bool then Ret (Ok tt, fst r) else Ret (Throw GLibError, fst r)).

Definition _initNightLightMonitoring : M unit :=
  try_catch
    (assign (set_nightLightProxy (Some tt)) ;;;
     await_proxy_init ;;;
     let* this := get_this in
     let* initial := proxy_NightLightActive (_nightLightProxy this) in
     assign (set_lastNightLightState initial) ;;;
     _handleNightLightChange initial ;;;
     let* this := get_this in
     let* _ := proxy_connect (_nightLightProxy this) "g-properties-changed" in
     ret tt)
    (fun e => _logError e).

(** The closure connected to [changed] on the background settings. *)
Definition on_settings_changed (key : string) : M unit :=
  when (String.eqb key "picture-uri" || String.eqb key "picture-uri-dark")
    (_handleWallpaperChange key).


Definition _initMonitoring : M unit :=
  assign (set_settings (Some Background)) ;;;
  assign (set_interfaceSettings (Some Interface)) ;;;
  (let* this := get_this in
   let* v := get_string (_settings this) "picture-uri" in
   assign (set_stored_light (Some v))) ;;;
  (let* this := get_this in
   let* v := get_string (_settings this) "picture-uri-dark" in
   assign (set_stored_dark (Some v))) ;;;
  (let* this := get_this in
   let* id := connect (_settings this) "changed" in
   assign (set_wallpaperChangeHandler (Some id))) ;;;
  (let* this := get_this in
   let* id := connect (_interfaceSettings this) "changed::color-scheme" in
   assign (set_styleChangeHandler (Some id))) ;;;
  let* automatic := _getAutomaticMode in
  when automatic _initNightLightMonitoring.

Definition enable : M unit :=
  call (ConsoleLog "ThemeKeeper: Enabled") ;;;
  _initMonitoring.

(** Truthiness of a handler id: [null] and [0] are falsy. *)
Definition id_truthy (id : option nat) : bool :=
  match id with
  | Some (S _) => true
  | _ => false
  end.

Definition disable : M unit :=
  call (ConsoleLog "ThemeKeeper: Disabled") ;;;
  (let* this := get_this in
   when (JS.nonnull (_nightLightProxy this))
     (assign (set_nightLightProxy None))) ;;;
  (let* this := get_this in
   when (JS.nonnull (_settings this))
     (when (id_truthy (_wallpaperChangeHandler this))
        (disconnect (_settings this) (_wallpaperChangeHandler this)) ;;;
      assign (set_settings None))) ;;;
  (let* this := get_this in
   when (JS.nonnull (_interfaceSettings this))
     (when (id_truthy (_styleChangeHandler this))
        (disconnect (_interfaceSettings this) (_styleChangeHandler this)) ;;;
      assign (set_interfaceSettings None))) ;;;
  assign (set_lastNightLightState JNull).

(** ** Running a method *)

(** One call with its answer. *)
Inductive obs : Type :=
| Obs : forall X : Type, eff X -> X -> obs.

Arguments Obs {X} _ _.

(** An environment answers every call and may change its own state. *)
Definition env (W : Type) : Type := forall X : Type, eff X -> W -> X * W.

(** [run h p w]: the result, the final state of the environment and the
    calls made, in order. *)
Fixpoint run {W A : Type} (h : env W) (p : prog A) (w : W) : A * W * list obs :=
  match p with
  | Ret a => (a, w, [])
  | Call e k =>
      let r := h _ e w in
      let r' := run h (k (fst r)) (snd r) in
      (fst (fst r'), snd (fst r'), Obs e (fst r) :: snd r')
  end.

Definition result {W A : Type} (r : A * W * list obs) : A := fst (fst r).
Definition world {W A : Type} (r : A * W * list obs) : W := snd (fst r).
Definition trace {W A : Type} (r : A * W * list obs) : list obs := snd r.

(** The points at which an [async] method is suspended. *)
Definition is_await (o : obs) : bool :=
  match o with
  | Obs e _ =>
      match e with
      | AwaitCommunicate _ _ => true
      | AwaitSettled _ => true
      | AwaitProxyInit _ => true
      | _ => false
      end
  end.

(** The calls made before the first suspension, and those made after it. *)
Fixpoint before_await (t : list obs) : list obs :=
  match t with
  | [] => []
  | o :: t' => if is_await o then [] else o :: before_await t'
  end.

Fixpoint after_await (t : list obs) : list obs :=
  match t with
  | [] => []
  | o :: t' => if is_await o then t' else after_await t'
  end.

(** The live-setting writes of a trace: [set_string] on either schema. *)
Definition live_write (o : obs) : option (schema * string * string) :=
  match o with
  | Obs e _ =>
      match e with
      | SetString s k v => Some (s, k, v)
      | _ => None
      end
  end.

Definition live_writes (t : list obs) : list (schema * string * string) :=
  omap live_write t.

(** The command lines given to [GLib.spawn_command_line_sync]. *)
Definition spawn_of (o : obs) : option string :=
  match o with
  | Obs e _ =>
      match e with
      | SpawnCommandLineSync cmd => Some cmd
      | _ => None
      end
  end.

Definition spawned (t : list obs) : list string := omap spawn_of t.

(** The command lines given to [_executeCommand]. *)
Definition command_of (o : obs) : option string :=
  match o with
  | Obs e _ =>
      match e with
      | ShellParseArgv cmd => Some cmd
      | _ => None
      end
  end.

Definition commands (t : list obs) : list string := omap command_of t.



(** The handlers disconnected in a trace. *)
Definition disconnect_of (o : obs) : option (schema * nat) :=
  match o with
  | Obs e _ =>
      match e with
      | Disconnect s id => Some (s, id)
      | _ => None
      end
  end.

Definition disconnected (t : list obs) : list (schema * nat) := omap disconnect_of t.

(** ** A reference desktop

    Gio.Settings stores, a dconf database, and the [dconf] command line
    behind [GLib.spawn_command_line_sync] and [Gio.Subprocess].

    [set_string] stores the value and does not run the handlers connected
    to the key: a handler is run, once per notification, by whoever
    drives the desktop ([style_change] below).  Gio.Settings itself runs
    them before [set_string] returns; what is stated on this desktop of a
    method that writes the colour scheme or a wallpaper is therefore
    limited to what that method leaves either way. *)

Module Shell.

(** Where the tokenizer is in a command line. *)
Inductive quoting : Type :=
| Unquoted
| InSingle
| InDouble
| InComment.

Definition is_blank (c : ascii) : bool :=
  (Ascii.eqb c " " || Ascii.eqb c "009" || Ascii.eqb c "010")%char.

(** Characters a backslash escapes inside double quotes. *)
Definition dq_escapable (c : ascii) : bool :=
  (Ascii.eqb c "034" || Ascii.eqb c "\" || Ascii.eqb c "`" || Ascii.eqb c "$")%char.

Definition push (cur : option string) (c : ascii) : option string :=
  match cur with
  | Some w => Some (w +:+ String c EmptyString)
  | None => Some (String c EmptyString)
  end.

Definition open_word (cur : option string) : option string :=
  match cur with
  | Some w => Some w
  | None => Some EmptyString
  end.

Definition close_word (cur : option string) (rest : option (list string)) : option (list string) :=
  match cur with
  | Some w => option_map (cons w) rest
  | None => rest
  end.

(** Words of a command line, quotes removed, in the manner of
    [g_shell_parse_argv]: blanks separate words, single quotes keep
    everything, double quotes keep everything but backslash escapes of
    the double quote, backslash, backquote and dollar, a backslash outside
    quotes keeps the next character, [#] at the start of a word opens a
    comment.  [None] is a parse error (an open quote, a final backslash). *)
Fixpoint tokenize (s : string) (q : quoting) (cur : option string) : option (list string) :=
  match s with
  | EmptyString =>
      match q with
      | Unquoted | InComment => close_word cur (Some [])
      | InSingle | InDouble => None
      end
  | String c s' =>
      match q with
      | InComment =>
          if Ascii.eqb c "010" then tokenize s' Unquoted None
          else tokenize s' InComment None
      | InSingle =>
          if Ascii.eqb c "'" then tokenize s' Unquoted cur
          else tokenize s' InSingle (push cur c)
      | InDouble =>
          if Ascii.eqb c "034" then tokenize s' Unquoted cur
          else if Ascii.eqb c "\" then
            match s' with
            | EmptyString => None
            | String d s'' =>
                if dq_escapable d then tokenize s'' InDouble (push cur d)
                else if Ascii.eqb d "010" then tokenize s'' InDouble cur
                else tokenize s'' InDouble (push (push cur c) d)
            end
          else tokenize s' InDouble (push cur c)
      | Unquoted =>
          if is_blank c then close_word cur (tokenize s' Unquoted None)
          else if Ascii.eqb c "'" then tokenize s' InSingle (open_word cur)
          else if Ascii.eqb c "034" then tokenize s' InDouble (open_word cur)
          else if Ascii.eqb c "\" then
            match s' with
            | EmptyString => None
            | String d s'' =>
                if Ascii.eqb d "010" then tokenize s'' Unquoted cur
                else tokenize s'' Unquoted (push cur d)
            end
          else if Ascii.eqb c "#" && negb (JS.nonnull cur) then tokenize s' InComment None
          else tokenize s' Unquoted (push cur c)
      end
  end.

(** [g_shell_parse_argv]: an empty command line is an error too. *)
Definition parse_argv (cmd : string) : option (list string) :=
  match tokenize cmd Unquoted None with
  | Some (w :: ws) => Some (w :: ws)
  | _ => None
  end.

End Shell.

Module Dconf.

(** Bytes of a printable character that a single-quoted GVariant string
    holds as it is: printable ASCII other than the quote, the double quote
    and the backslash, or a byte of a longer UTF-8 sequence. *)
Definition plain_char (c : ascii) : bool :=
  (32 <=? nat_of_ascii c) && negb (nat_of_ascii c =? 127)
  && negb (Ascii.eqb c "'") && negb (Ascii.eqb c "\") && negb (Ascii.eqb c "034").

Fixpoint plain_bytes (s : string) : bool :=
  match s with
  | EmptyString => true
  | String c s' => plain_char c && plain_bytes s'
  end.

Definition continuation (c : ascii) : bool :=
  (128 <=? N_of_ascii c)%N && (N_of_ascii c <=? 191)%N.

(** The character of a two-byte UTF-8 sequence. *)
Definition code2 (c1 c2 : ascii) : option N :=
  if (194 <=? N_of_ascii c1)%N && (N_of_ascii c1 <=? 223)%N && continuation c2
  then Some ((N_of_ascii c1 - 192) * 64 + (N_of_ascii c2 - 128))%N
  else None.

(** The character of a three-byte UTF-8 sequence in its shortest form. *)
Definition code3 (c1 c2 c3 : ascii) : option N :=
  let n := ((N_of_ascii c1 - 224) * 4096 + (N_of_ascii c2 - 128) * 64
            + (N_of_ascii c3 - 128))%N in
  if (224 <=? N_of_ascii c1)%N && (N_of_ascii c1 <=? 239)%N
     && continuation c2 && continuation c3 && (2048 <=? n)%N
  then Some n
  else None.

(** The character of a four-byte UTF-8 sequence in its shortest form. *)
Definition code4 (c1 c2 c3 c4 : ascii) : option N :=
  let n := ((N_of_ascii c1 - 240) * 262144 + (N_of_ascii c2 - 128) * 4096
            + (N_of_ascii c3 - 128) * 64 + (N_of_ascii c4 - 128))%N in
  if (240 <=? N_of_ascii c1)%N && (N_of_ascii c1 <=? 244)%N
     && continuation c2 && continuation c3 && continuation c4
     && (65536 <=? n)%N && (n <=? 1114111)%N
  then Some n
  else None.

Definition between (lo hi n : N) : bool := (lo <=? n)%N && (n <=? hi)%N.

(** Characters above ASCII that [dconf read] prints as they are, by
    blocks made of printable characters only: Latin-1 (U+00A0 to U+00FF
    but the soft hyphen), Latin Extended-A and -B, the combining
    diacritical marks, the Greek, Cyrillic, Armenian, Hebrew, Arabic,
    Devanagari, Thai and Georgian letters, Latin Extended Additional, the
    dashes and quotation marks of General Punctuation, Arrows,
    Mathematical Operators, Box Drawing, Miscellaneous Symbols, Dingbats,
    Hiragana, Katakana, the CJK unified ideographs, the Hangul syllables,
    the fullwidth forms of ASCII, and the pictographs and emoticons
    U+1F300 to U+1F64F.  A character of another block is not known to
    this database. *)
Definition printable (n : N) : bool :=
  (between 160 255 n && negb (n =? 173)%N)
  || between 256 591 n
  || between 768 879 n
  || between 913 929 n || between 931 974 n
  || between 1024 1119 n
  || between 1329 1366 n || between 1377 1415 n
  || between 1488 1514 n
  || between 1569 1594 n || between 1601 1610 n
  || between 2308 2361 n || between 2366 2381 n
  || between 3585 3642 n || between 3647 3675 n
  || between 4304 4346 n
  || between 7680 7935 n
  || between 8208 8231 n
  || between 8592 8703 n
  || between 8704 8959 n
  || between 9472 9599 n
  || between 9728 9983 n
  || between 9985 10175 n
  || between 12353 12438 n || between 12449 12538 n
  || between 19968 40869 n
  || between 44032 55203 n
  || between 65281 65374 n
  || between 127744 128591 n.

Definition printable_code (c : option N) : bool :=
  match c with
  | Some n => printable n
  | None => false
  end.

(** Every character above ASCII is a well-formed sequence of a printable
    character. *)
Fixpoint known (s : string) : bool :=
  match s with
  | EmptyString => true
  | String c1 s1 =>
      if (N_of_ascii c1 <? 128)%N then known s1
      else
        match s1 with
        | EmptyString => false
        | String c2 s2 =>
            if printable_code (code2 c1 c2) then known s2
            else
              match s2 with
              | EmptyString => false
              | String c3 s3 =>
                  if printable_code (code3 c1 c2 c3) then known s3
                  else
                    match s3 with
                    | EmptyString => false
                    | String c4 s4 => printable_code (code4 c1 c2 c3 c4) && known s4
                    end
              end
        end
  end.

(** Text of printable characters with no quote, double quote or
    backslash. *)
Definition plain (s : string) : bool := plain_bytes s && known s.

(** The GVariant texts [dconf write] is given by the extension: a boolean
    or a single-quoted string of plain characters.  Any other text is
    refused here. *)
Definition accepts (t : string) : bool :=
  String.eqb t "true" || String.eqb t "false"
  || (JS.startsWith t "'" && JS.endsWith t "'" && (2 <=? String.length t)
      && plain (JS.slice t 1 (-1))).

(** The database: the text of the value under each key that is set. *)
Definition exec (argv : list string) (db : gmap string string) : string * gmap string string :=
  match argv with
  | ["dconf"; "read"; key] =>
      match db !! key with
      | Some t => (t +:+ String "010" EmptyString, db)
      | None => (EmptyString, db)
      end
  | ["dconf"; "write"; key; t] =>
      if accepts t then (EmptyString, <[key := t]> db) else (EmptyString, db)
  | ["dconf"; "reset"; key] => (EmptyString, delete key db)
  | _ => (EmptyString, db)
  end.

End Dconf.

Record Desktop : Type := {
  background : string -> string;
  interface : string -> string;
  dconf : gmap string string;
  connections : list (option schema * nat);
  night_light : jsbool
}.

Definition store (w : Desktop) (s : schema) : string -> string :=
  match s with
  | Background => background w
  | Interface => interface w
  end.

Definition update (f : string -> string) (key value : string) : string -> string :=
  fun k => if String.eqb k key then value else f k.

Definition set_store (s : schema) (key value : string) (w : Desktop) : Desktop :=
  match s with
  | Background =>
      {| background := update (background w) key value; interface := interface w;
         dconf := dconf w; connections := connections w; night_light := night_light w |}
  | Interface =>
      {| background := background w; interface := update (interface w) key value;
         dconf := dconf w; connections := connections w; night_light := night_light w |}
  end.

Definition set_dconf (db : gmap string string) (w : Desktop) : Desktop :=
  {| background := background w; interface := interface w;
     dconf := db; connections := connections w; night_light := night_light w |}.

Definition set_connections (c : list (option schema * nat)) (w : Desktop) : Desktop :=
  {| background := background w; interface := interface w;
     dconf := dconf w; connections := c; night_light := night_light w |}.

(** A handler id that no connection uses; never [0]. *)
Definition fresh_id (c : list (option schema * nat)) : nat :=
  S (foldr (fun x m => Nat.max (snd x) m) 0 c).

Definition same_connection (s : schema) (id : nat) (x : option schema * nat) : bool :=
  match fst x with
  | Some Background => match s with Background => Nat.eqb (snd x) id | Interface => false end
  | Some Interface => match s with Interface => Nat.eqb (snd x) id | Background => false end
  | None => false
  end.

Definition desktop : env Desktop :=
  fun X e =>
    match e in eff X return Desktop -> X * Desktop with
    | ConsoleLog _ => fun w => (tt, w)
    | LogError _ => fun w => (tt, w)
    | GetString s key => fun w => (store w s key, w)
    | SetString s key value => fun w => (tt, set_store s key value w)
    | Connect s _ => fun w =>
        let id := fresh_id (connections w) in
        (id, set_connections ((Some s, id) :: connections w) w)
    | Disconnect s id => fun w =>
        (tt, set_connections (filter (fun x => negb (same_connection s id x)) (connections w)) w)
    | SpawnCommandLineSync cmd => fun w =>
        match Shell.parse_argv cmd with
        | Some argv =>
            let r := Dconf.exec argv (dconf w) in
            (SpawnReturns true (Some (fst r)), set_dconf (snd r) w)
        | None => (SpawnThrows, w)
        end
    | ShellParseArgv cmd => fun w =>
        match Shell.parse_argv cmd with
        | Some argv => (ParseReturns true argv, w)
        | None => (ParseThrows, w)
        end
    | SubprocessInit _ => fun w => (true, w)
    | AwaitCommunicate this argv => fun w =>
        ((this, true), set_dconf (snd (Dconf.exec argv (dconf w))) w)
    | AwaitSettled this => fun w => (this, w)
    | AwaitProxyInit this => fun w => ((this, true), w)
    | ProxyNightLightActive => fun w => (night_light w, w)
    | ProxyConnect _ => fun w =>
        let id := fresh_id (connections w) in
        (id, set_connections ((None, id) :: connections w) w)
    end.

(** A method run on the desktop from an instance. *)
Definition on_desktop {A : Type} (m : M A) (this : Ext) (w : Desktop) : (res A * Ext) * Desktop * list obs :=
  run desktop (m this) w.

(** ** What the statements below are written with *)

(** The two modes, and [apply(mode)] and the snapshot of a mode. *)
Inductive mode : Type :=
| Light
| Dark.

Definition mode_name (m : mode) : string :=
  match m with
  | Light => "light"
  | Dark => "dark"
  end.

Definition apply (m : mode) : M unit :=
  match m with
  | Light => _applyLightTheme
  | Dark => _applyDarkTheme
  end.

Definition save (m : mode) : M unit :=
  match m with
  | Light => _saveCurrentThemeToLightKeys
  | Dark => _saveCurrentThemeToDarkKeys
  end.

(** The command lines the methods build. *)
Definition read_cmd (this : Ext) (key : string) : string :=
  "dconf read " +:+ _dconfPath this +:+ key.

Definition write_bool_cmd (this : Ext) (key : string) (value : bool) : string :=
  "dconf write " +:+ _dconfPath this +:+ key +:+ " " +:+ (if value then "true" else "false").

Definition write_cmd (this : Ext) (key value : string) : string :=
  "dconf write " +:+ _dconfPath this +:+ key +:+ " " +:+ dq +:+ "'" +:+ value +:+ "'" +:+ dq.

Definition shell_read_cmd : string :=
  "dconf read /org/gnome/shell/extensions/user-theme/name".

Definition shell_write_cmd (value : string) : string :=
  "dconf write /org/gnome/shell/extensions/user-theme/name " +:+ dq +:+ "'" +:+ value +:+ "'" +:+ dq.

Definition shell_reset_cmd : string :=
  "dconf reset /org/gnome/shell/extensions/user-theme/name".

(** What the three readers make of an answer of [spawn_command_line_sync]. *)
Definition unquote (stdout : string) : string :=
  let value := JS.trim stdout in
  if JS.startsWith value "'" && JS.endsWith value "'" then JS.slice value 1 (-1) else value.

Definition dconf_string_of (ans : spawn_result) (defaultValue : option string) : option string :=
  match ans with
  | SpawnReturns true (Some stdout) =>
      if String.eqb (JS.trim stdout) "" then defaultValue else Some (unquote stdout)
  | _ => defaultValue
  end.

Definition dconf_boolean_of (ans : spawn_result) (defaultValue : option bool) : option bool :=
  match ans with
  | SpawnReturns true (Some stdout) =>
      if String.eqb (JS.trim stdout) "" then defaultValue
      else Some (String.eqb (JS.trim stdout) "true")
  | _ => defaultValue
  end.

Definition shell_theme_of (ans : spawn_result) : string :=
  match ans with
  | SpawnReturns true (Some stdout) =>
      if String.eqb (JS.trim stdout) "" then "" else unquote stdout
  | _ => ""
  end.

(** The calls of one guarded [spawn_command_line_sync]: the spawn, and the
    logging of the error when it throws. *)
Definition spawn_trace (cmd : string) (ans : spawn_result) : list obs :=
  Obs (SpawnCommandLineSync cmd) ans ::
  match ans with
  | SpawnThrows => [Obs (LogError GLibError) tt]
  | SpawnReturns _ _ => []
  end.


(** The calls of [_executeCommand cmd] and the instance it ends with, as a
    function of the answers of the parser, of the subprocess start, and of
    the awaited completion (the instance handed back, and whether the
    promise resolved). *)
Definition exec_trace (cmd : string) (this : Ext) (pa : parse_result) (started : bool)
    (this1 : Ext) (resolved : bool) : list obs * Ext :=
  match pa with
  | ParseThrows =>
      ([Obs (ShellParseArgv cmd) pa; Obs (LogError GLibError) tt], this)
  | ParseReturns false _ =>
      ([Obs (ShellParseArgv cmd) pa], this)
  | ParseReturns true argv =>
      if started then
        ([Obs (ShellParseArgv cmd) pa; Obs (SubprocessInit argv) true;
          Obs (AwaitCommunicate this argv) (this1, resolved)]
         ++ (if resolved then [] else [Obs (LogError GLibError) tt]), this1)
      else
        ([Obs (ShellParseArgv cmd) pa; Obs (SubprocessInit argv) false;
          Obs (LogError GLibError) tt], this)
  end.

(** The guarded [set_string] calls of an applier on the instance [this]:
    a [null] settings object throws, which ends the applier in its
    [catch]. *)
Fixpoint sets_trace (this : Ext) (kvs : list (string * option string)) : list obs :=
  match kvs with
  | [] => []
  | (key, v) :: kvs' =>
      if JS.truthy_opt v then
        match _interfaceSettings this with
        | Some s => Obs (SetString s key (template v)) tt :: sets_trace this kvs'
        | None => [Obs (LogError TypeError) tt]
        end
      else sets_trace this kvs'
  end.

(** The command an applier runs for a stored shell theme. *)
Definition shell_command (shell : option string) : string :=
  if JS.truthy_opt shell && strict_neq "Default" shell
  then shell_write_cmd (template shell)
  else shell_reset_cmd.

(** The calls of [apply m], as a function of the answers: the five reads,
    the three answers of [_executeCommand], and the instance handed back
    when the applier resumes after it. *)
Definition apply_trace (m : mode) (this : Ext) (a1 a2 a3 a4 a5 : spawn_result)
    (pa : parse_result) (started : bool) (this1 : Ext) (resolved : bool) (this2 : Ext) : list obs :=
  let gtk := dconf_string_of a1 None in
  let shell := dconf_string_of a2 None in
  let icon := dconf_string_of a3 None in
  let cursor := dconf_string_of a4 None in
  let accent := dconf_string_of a5 None in
  let ex := exec_trace (shell_command shell) this pa started this1 resolved in
  spawn_trace (read_cmd this (mode_name m +:+ "-gtk-theme")) a1
  ++ spawn_trace (read_cmd this (mode_name m +:+ "-shell-theme")) a2
  ++ spawn_trace (read_cmd this (mode_name m +:+ "-icon-theme")) a3
  ++ spawn_trace (read_cmd this (mode_name m +:+ "-cursor-theme")) a4
  ++ spawn_trace (read_cmd this (mode_name m +:+ "-accent-color")) a5
  ++ (if JS.truthy_opt gtk && negb (JS.nonnull (_interfaceSettings this))
      then [Obs (LogError TypeError) tt]
      else
        sets_trace this [("gtk-theme", gtk)]
        ++ fst ex
        ++ [Obs (AwaitSettled (snd ex)) this2]
        ++ sets_trace this2 [("icon-theme", icon); ("cursor-theme", cursor); ("accent-color", accent)]).

(** The instance [apply m] ends with. *)
Definition apply_final (this : Ext) (a1 : spawn_result) (this2 : Ext) : Ext :=
  if JS.truthy_opt (dconf_string_of a1 None) && negb (JS.nonnull (_interfaceSettings this))
  then this else this2.

(** An environment in which nothing else touches the instance while a
    method is suspended. *)
Definition quiet {W : Type} (h : env W) : Prop :=
  (forall this argv w, fst (fst (h _ (AwaitCommunicate this argv) w)) = this) /\
  (forall this w, fst (h _ (AwaitSettled this) w) = this) /\
  (forall this w, fst (fst (h _ (AwaitProxyInit this) w)) = this).

(** An answer the environment [h] can give to the call. *)
Definition answered {W : Type} (h : env W) (o : obs) : Prop :=
  match o with
  | Obs e x => exists w, x = fst (h _ e w)
  end.

(** A trace without a suspension. *)
Definition no_await (t : list obs) : bool := forallb (fun o => negb (is_await o)) t.


(** The handler [disable] disconnects for a settings object and an id. *)
Definition dropped (h : option schema) (id : option nat) : list (schema * nat) :=
  match h, id with
  | Some s, Some (S n) => [(s, S n)]
  | _, _ => []
  end.

(** The postcondition of a method run in the environment [h] from the
    instance [this] and the state [w]. *)
Definition wp {W A : Type} (h : env W) (m : M A) (this : Ext) (w : W)
    (Q : res A -> Ext -> W -> Prop) : Prop :=
  Q (fst (result (run h (m this) w))) (snd (result (run h (m this) w)))
    (world (run h (m this) w)).

(** Characters that make up a bare word of a command line. *)
Definition word_char (c : ascii) : bool :=
  negb (Shell.is_blank c) && negb (Ascii.eqb c "'") && negb (Ascii.eqb c "034")
  && negb (Ascii.eqb c "\") && negb (Ascii.eqb c "#").

Fixpoint word_chars (s : string) : bool :=
  match s with
  | EmptyString => true
  | String c s' => word_char c && word_chars s'
  end.

Definition word (s : string) : bool := JS.truthy s && word_chars s.

(** Characters that stand for themselves between double quotes. *)
Definition dq_char (c : ascii) : bool :=
  negb (Ascii.eqb c "034") && negb (Ascii.eqb c "\").

Fixpoint dq_chars (s : string) : bool :=
  match s with
  | EmptyString => true
  | String c s' => dq_char c && dq_chars s'
  end.

(** The GVariant text of a string of plain characters. *)
Definition quoted (v : string) : string := "'" +:+ v +:+ "'".

Definition themekeeper_path : string := "/org/gnome/shell/extensions/themekeeper/".

Definition user_theme_key : string := "/org/gnome/shell/extensions/user-theme/name".

(** The five live theme attributes, as the extension reads them. *)
Record Theme : Type := {
  gtk : string;
  icon : string;
  cursor : string;
  accent : string;
  shell : string
}.

Definition live_shell (w : Desktop) : string :=
  shell_theme_of (fst (desktop _ (SpawnCommandLineSync shell_read_cmd) w)).

Definition live_theme (w : Desktop) : Theme := {|
  gtk := interface w "gtk-theme";
  icon := interface w "icon-theme";
  cursor := interface w "cursor-theme";
  accent := interface w "accent-color";
  shell := live_shell w
|}.



(** The state of the environment after the calls of a trace, and the
    traces whose answers are those the environment gives from a state. *)
Fixpoint replay {W : Type} (h : env W) (t : list obs) (w : W) : W :=
  match t with
  | [] => w
  | Obs e _ :: t' => replay h t' (snd (h _ e w))
  end.

Fixpoint consistent {W : Type} (h : env W) (t : list obs) (w : W) : Prop :=
  match t with
  | [] => True
  | Obs e x :: t' => x = fst (h _ e w) /\ consistent h t' (snd (h _ e w))
  end.

(** The keys of the snapshot of a mode. *)
Definition snapshot_keys (m : mode) : list string :=
  map (fun a => themekeeper_path +:+ mode_name m +:+ a)
    ["-gtk-theme"; "-icon-theme"; "-cursor-theme"; "-accent-color"; "-shell-theme"].

(** What [dconf read] prints for a key. *)
Definition output (v : option string) : string :=
  match v with
  | Some t => t +:+ String "010" EmptyString
  | None => EmptyString
  end.

(** The desktop after a spawned command line, and after a command run by
    [_executeCommand] to its completion. *)
Definition spawn_world (cmd : string) (w : Desktop) : Desktop :=
  snd (desktop _ (SpawnCommandLineSync cmd) w).

Definition command_world (cmd : string) (w : Desktop) : Desktop :=
  match Shell.parse_argv cmd with
  | Some argv => set_dconf (snd (Dconf.exec argv (dconf w))) w
  | None => w
  end.

(** What [_getDconfString key] gives on the desktop. *)
Definition stored (this : Ext) (key : string) (w : Desktop) : option string :=
  dconf_string_of
    (SpawnReturns true (Some (output (dconf w !! (_dconfPath this +:+ key))))) None.

(** The desktop after a snapshot of the mode [m]. *)
Definition save_world (m : mode) (this : Ext) (w : Desktop) : Desktop :=
  spawn_world (write_cmd this (mode_name m +:+ "-shell-theme")
                 (JS.or_else (live_shell w) "Default"))
    (spawn_world (write_cmd this (mode_name m +:+ "-accent-color") (interface w "accent-color"))
       (spawn_world (write_cmd this (mode_name m +:+ "-cursor-theme") (interface w "cursor-theme"))
          (spawn_world (write_cmd this (mode_name m +:+ "-icon-theme") (interface w "icon-theme"))
             (spawn_world (write_cmd this (mode_name m +:+ "-gtk-theme") (interface w "gtk-theme"))
                w)))).

(** [if (v) settings.set_string(key, v)] on the interface settings. *)
Definition set_if (key : string) (v : option string) (w : Desktop) : Desktop :=
  if JS.truthy_opt v then set_store Interface key (template v) w else w.

(** The desktop after the applier of the mode [m] has run to its end. *)
Definition apply_world (m : mode) (this : Ext) (w : Desktop) : Desktop :=
  set_if "accent-color" (stored this (mode_name m +:+ "-accent-color") w)
    (set_if "cursor-theme" (stored this (mode_name m +:+ "-cursor-theme") w)
       (set_if "icon-theme" (stored this (mode_name m +:+ "-icon-theme") w)
          (command_world (shell_command (stored this (mode_name m +:+ "-shell-theme") w))
             (set_if "gtk-theme" (stored this (mode_name m +:+ "-gtk-theme") w) w)))).

(** The instance as [_initMonitoring] leaves it, as far as the theme
    methods look at it. *)
Definition wired (this : Ext) : Prop :=
  _interfaceSettings this = Some Interface /\ _dconfPath this = themekeeper_path.

(** ** The pairing convention, in the words of the specification *)

(** The strings a regular expression denotes. *)
Inductive lang : JS.regex -> string -> Prop :=
| LEps : lang JS.REps EmptyString
| LChar : forall c, lang (JS.RChar c) (String c EmptyString)
| LClass : forall rs c, JS.in_class c rs = true -> lang (JS.RClass rs) (String c EmptyString)
| LSeq : forall r1 r2 s1 s2, lang r1 s1 -> lang r2 s2 -> lang (JS.RSeq r1 r2) (s1 +:+ s2)
| LAltL : forall r1 r2 s, lang r1 s -> lang (JS.RAlt r1 r2) s
| LAltR : forall r1 r2 s, lang r2 s -> lang (JS.RAlt r1 r2) s
| LStarNil : forall r, lang (JS.RStar r) EmptyString
| LStarCons : forall r s1 s2, lang r s1 -> lang (JS.RStar r) s2 -> lang (JS.RStar r) (s1 +:+ s2).

Fixpoint all_alnum (s : string) : bool :=
  match s with
  | EmptyString => true
  | String c s' => JS.in_class c alnum && all_alnum s'
  end.

Fixpoint no_slash (s : string) : bool :=
  match s with
  | EmptyString => true
  | String c s' => negb (Ascii.eqb c "/") && no_slash s'
  end.

(** [f] is [<stem>-l.<ext>] or [<stem>-d.<ext>] with an alphanumeric,
    non-empty [<ext>]. *)
Definition variant_suffix (f : string) : Prop :=
  exists stem v ext,
    f = stem +:+ "-" +:+ v +:+ "." +:+ ext /\
    (v = "l" \/ v = "d") /\ ext <> "" /\ all_alnum ext = true.

(** [seg] is the final path segment of [p]: what follows the last slash,
    or all of [p] when there is none. *)
Definition final_segment (p seg : string) : Prop :=
  (p = seg \/ exists dir, p = dir +:+ "/" +:+ seg) /\ no_slash seg = true.

(** A leading [file://] is ignored. *)
Definition strip_file_prefix (u : string) : string :=
  if String.prefix "file://" u then JS.drop 7 u else u.

(** The classification as the specification words it. *)
Definition paired_spec (uri : option string) : Prop :=
  exists u seg, uri = Some u /\ final_segment (strip_file_prefix u) seg /\ variant_suffix seg.

(** ** A desktop to run the extension on *)

(** A desktop in light mode: a paired wallpaper on each side, a live
    theme, the snapshot of a dark theme in the database, and the
    automatic mode never read. *)
Definition desk : Desktop := {|
  background :=
    update (update (fun _ => "") "picture-uri" "file:///usr/share/backgrounds/sunset-l.jpg")
      "picture-uri-dark" "file:///usr/share/backgrounds/sunset-d.png";
  interface :=
    update (update (update (update (update (fun _ => "")
      "color-scheme" "default") "gtk-theme" "Adwaita") "icon-theme" "Papirus")
      "cursor-theme" "Bibata") "accent-color" "blue";
  dconf :=
    <[user_theme_key := "'Yaru'"]>
      (<[themekeeper_path +:+ "dark-gtk-theme" := "'Adwaita-dark'"]>
         (<[themekeeper_path +:+ "dark-icon-theme" := "'Papirus-Dark'"]>
            (<[themekeeper_path +:+ "dark-cursor-theme" := "'Bibata-Ice'"]>
               (<[themekeeper_path +:+ "dark-accent-color" := "'purple'"]>
                  (<[themekeeper_path +:+ "dark-shell-theme" := "'Yaru-dark'"]> ∅)))));
  connections := [];
  night_light := JBool false
|}.

(** The instance after [enable()] on that desktop, and the desktop then. *)
Definition opened : Ext := snd (result (on_desktop enable constructor desk)).

Definition running : Desktop := world (on_desktop enable constructor desk).

(** The same with the automatic mode switched off. *)
Definition manual : Desktop :=
  set_dconf (<[themekeeper_path +:+ "automatic-mode" := "false"]> (dconf running)) running.

(** In dark mode, something has put an unpaired picture under the light
    key. *)
Definition overwritten : Desktop :=
  set_store Background "picture-uri" "file:///home/user/random.jpg"
    (set_store Interface "color-scheme" "prefer-dark" running).


(** In dark mode, the light key has been given a name that holds
    [file://] past its start. *)
Definition renamed : Desktop :=
  set_store Background "picture-uri" "a-file://l.jpg"
    (set_store Interface "color-scheme" "prefer-dark" running).





(** ** What the further statements are written with *)

(** The errors logged in a trace. *)
Definition log_of (o : obs) : option exn :=
  match o with
  | Obs e _ =>
      match e with
      | LogError x => Some x
      | _ => None
      end
  end.

Definition logged (t : list obs) : list exn := omap log_of t.

(** What the environment [h] answers to a spawned command line in the
    state [w], and its state after the spawn and the logging of the error
    when the spawn throws. *)
Definition answer {W : Type} (h : env W) (cmd : string) (w : W) : spawn_result :=
  fst (h _ (SpawnCommandLineSync cmd) w).

Definition after_spawn {W : Type} (h : env W) (cmd : string) (w : W) : W :=
  match answer h cmd w with
  | SpawnThrows => snd (h _ (LogError GLibError) (snd (h _ (SpawnCommandLineSync cmd) w)))
  | SpawnReturns _ _ => snd (h _ (SpawnCommandLineSync cmd) w)
  end.

(** An answer that holds no value: the spawn throws, reports a failure,
    gives no output, or gives white space only. *)
Definition no_value (ans : spawn_result) : bool :=
  match ans with
  | SpawnReturns true (Some stdout) => String.eqb (JS.trim stdout) ""
  | _ => true
  end.

(** The method [m], run from [this] in the state [w], makes one guarded
    spawn of [cmd]: it spawns [cmd], logs the error when the spawn throws,
    makes no other call, and ends normally with the instance as it was. *)
Definition one_guarded_spawn {W A : Type} (h : env W) (m : M A) (this : Ext) (w : W)
    (cmd : string) : Prop :=
  trace (run h (m this) w) = spawn_trace cmd (answer h cmd w) /\
  exists a, result (run h (m this) w) = (Ok a, this).

(** The slot of [this._storedWallpapers] that goes with a wallpaper key. *)
Definition slot (key : string) (ws : Wallpapers) : option string :=
  if String.eqb key "picture-uri" then light ws else dark ws.

(** The desktop on which [disable()] is called while an applier waits
    for its external command: the instance that comes back from the wait
    is the one [disable] leaves. *)
Definition stopped_meanwhile : env Desktop :=
  fun X e =>
    match e in eff X return Desktop -> X * Desktop with
    | AwaitSettled this => fun w =>
        (snd (result (run desktop (disable this) w)), world (run desktop (disable this) w))
    | e' => desktop _ e'
    end.

(** The desktop on which the colour daemon cannot be reached: the
    initialisation of the proxy fails. *)
Definition no_color_daemon : env Desktop :=
  fun X e =>
    match e in eff X return Desktop -> X * Desktop with
    | AwaitProxyInit this => fun w => ((this, false), w)
    | e' => desktop _ e'
    end.

(** A property of every run of a tree, whatever the answers. *)
Fixpoint always {A : Type} (p : prog A) (Q : list obs -> A -> Prop) : Prop :=
  match p with
  | Ret a => Q [] a
  | Call e k => forall x, always (k x) (fun t a => Q (Obs e x :: t) a)
  end.

Definition spec {A : Type} (m : M A) (this : Ext) (Q : list obs -> res A -> Ext -> Prop) : Prop :=
  always (m this) (fun t r => Q t (fst r) (snd r)).

(** * Proofs *)

(** ** Runs and the monad *)

Lemma run_pbind {W A B : Type} (h : env W) (p : prog A) (f : A -> prog B) (w : W) :
  run h (pbind p f) w =
  (result (run h (f (result (run h p w))) (world (run h p w))),
   world (run h (f (result (run h p w))) (world (run h p w))),
   trace (run h p w) ++ trace (run h (f (result (run h p w))) (world (run h p w)))).
Proof.
  revert w. induction p as [a | X e k IH]; intros w; simpl.
  - unfold result, world, trace. simpl. now destruct (run h (f a) w) as [[? ?] ?].
  - rewrite IH. reflexivity.
Qed.

Lemma always_mono {A : Type} (p : prog A) (Q Q' : list obs -> A -> Prop) :
  (forall t a, Q t a -> Q' t a) -> always p Q -> always p Q'.
Proof.
  revert Q Q'. induction p as [a | X e k IH]; intros Q Q' HQ; simpl.
  - apply HQ.
  - intros Hk x. eapply IH; [| apply Hk]. intros t a. apply HQ.
Qed.

Lemma always_pbind {A B : Type} (p : prog A) (f : A -> prog B) (Q : list obs -> B -> Prop) :
  always p (fun t a => always (f a) (fun t' b => Q (t ++ t') b)) -> always (pbind p f) Q.
Proof.
  revert Q. induction p as [a | X e k IH]; intros Q; simpl.
  - intros H. exact H.
  - intros H x. apply IH. eapply always_mono; [| apply H]. intros t a Ha. exact Ha.
Qed.

Lemma always_run {A : Type} (p : prog A) (Q : list obs -> A -> Prop) :
  always p Q -> forall (W : Type) (h : env W) (w : W), Q (trace (run h p w)) (result (run h p w)).
Proof.
  revert Q. induction p as [a | X e k IH]; intros Q H W h w; simpl.
  - exact H.
  - specialize (H (fst (h X e w))). apply IH with (W := W) (h := h) (w := snd (h X e w)) in H.
    exact H.
Qed.

Lemma spec_run {A : Type} (m : M A) (this : Ext) (Q : list obs -> res A -> Ext -> Prop) :
  spec m this Q ->
  forall (W : Type) (h : env W) (w : W),
    Q (trace (run h (m this) w)) (fst (result (run h (m this) w))) (snd (result (run h (m this) w))).
Proof. intros H W h w. exact (always_run _ _ H W h w). Qed.

Lemma spec_mono {A : Type} (m : M A) (this : Ext) (Q Q' : list obs -> res A -> Ext -> Prop) :
  (forall t r e, Q t r e -> Q' t r e) -> spec m this Q -> spec m this Q'.
Proof. intros HQ. apply always_mono. intros t a. apply HQ. Qed.

Lemma spec_ret {A : Type} (a : A) (this : Ext) (Q : list obs -> res A -> Ext -> Prop) :
  Q [] (Ok a) this -> spec (ret a) this Q.
Proof. intros H. exact H. Qed.

Lemma spec_throw {A : Type} (x : exn) (this : Ext) (Q : list obs -> res A -> Ext -> Prop) :
  Q [] (Throw x) this -> spec (throw x) this Q.
Proof. intros H. exact H. Qed.

Lemma spec_get_this (this : Ext) (Q : list obs -> res Ext -> Ext -> Prop) :
  Q [] (Ok this) this -> spec get_this this Q.
Proof. intros H. exact H. Qed.

Lemma spec_assign (f : Ext -> Ext) (this : Ext) (Q : list obs -> res unit -> Ext -> Prop) :
  Q [] (Ok tt) (f this) -> spec (assign f) this Q.
Proof. intros H. exact H. Qed.

Lemma spec_call {X : Type} (e : eff X) (this : Ext) (Q : list obs -> res X -> Ext -> Prop) :
  (forall x, Q [Obs e x] (Ok x) this) -> spec (call e) this Q.
Proof. intros H x. apply H. Qed.

Lemma spec_bind {A B : Type} (m : M A) (f : A -> M B) (this : Ext)
    (Q : list obs -> res B -> Ext -> Prop) :
  spec m this (fun t r e =>
    match r with
    | Ok a => spec (f a) e (fun t' r' e' => Q (t ++ t') r' e')
    | Throw x => Q t (Throw x) e
    end) ->
  spec (bind m f) this Q.
Proof.
  intros H. unfold spec, bind. apply always_pbind.
  eapply always_mono; [| apply H]. intros t [r e]; simpl.
  destruct r as [a | x]; simpl.
  - intros Ha. exact Ha.
  - rewrite app_nil_r. intros Hx. exact Hx.
Qed.

Lemma spec_try_catch {A : Type} (body : M A) (handler : exn -> M A) (this : Ext)
    (Q : list obs -> res A -> Ext -> Prop) :
  spec body this (fun t r e =>
    match r with
    | Ok a => Q t (Ok a) e
    | Throw x => spec (handler x) e (fun t' r' e' => Q (t ++ t') r' e')
    end) ->
  spec (try_catch body handler) this Q.
Proof.
  intros H. unfold spec, try_catch. apply always_pbind.
  eapply always_mono; [| apply H]. intros t [r e]; simpl.
  destruct r as [a | x]; simpl.
  - rewrite app_nil_r. intros Ha. exact Ha.
  - intros Hx. exact Hx.
Qed.

Lemma spec_when (c : bool) (m : M unit) (this : Ext) (Q : list obs -> res unit -> Ext -> Prop) :
  (c = true -> spec m this Q) -> (c = false -> Q [] (Ok tt) this) -> spec (when c m) this Q.
Proof. destruct c; simpl; intros H1 H2; [apply H1 | apply H2]; reflexivity. Qed.

(** ** The dconf accessors, for every answer *)

Lemma spawn_spec (cmd : string) (this : Ext) (Q : list obs -> res (bool * option string) -> Ext -> Prop) :
  (forall ans,
     Q [Obs (SpawnCommandLineSync cmd) ans]
       match ans with
       | SpawnThrows => Throw GLibError
       | SpawnReturns success stdout => Ok (success, stdout)
       end this) ->
  spec (spawn_command_line_sync cmd) this Q.
Proof. intros H ans. specialize (H ans). destruct ans; exact H. Qed.

Lemma getDconfString_spec (key : string) (d : option string) (this : Ext)
    (Q : list obs -> res (option string) -> Ext -> Prop) :
  (forall ans, Q (spawn_trace (read_cmd this key) ans) (Ok (dconf_string_of ans d)) this) ->
  spec (_getDconfString key d) this Q.
Proof.
  intros H ans. specialize (H ans). unfold spawn_trace, dconf_string_of, unquote in H.
  destruct ans as [| [] [stdout |]]; simpl; try exact H.
  - intros []. exact H.
  - destruct (String.eqb (JS.trim stdout) ""); [exact H |].
    destruct (JS.startsWith (JS.trim stdout) "'" && JS.endsWith (JS.trim stdout) "'"); exact H.
Qed.

Lemma getDconfBoolean_spec (key : string) (d : option bool) (this : Ext)
    (Q : list obs -> res (option bool) -> Ext -> Prop) :
  (forall ans, Q (spawn_trace (read_cmd this key) ans) (Ok (dconf_boolean_of ans d)) this) ->
  spec (_getDconfBoolean key d) this Q.
Proof.
  intros H ans. specialize (H ans). unfold spawn_trace, dconf_boolean_of in H.
  destruct ans as [| [] [stdout |]]; simpl; try exact H.
  - intros []. exact H.
  - destruct (String.eqb (JS.trim stdout) ""); exact H.
Qed.


Lemma setDconfBoolean_spec (key : string) (v : bool) (this : Ext)
    (Q : list obs -> res unit -> Ext -> Prop) :
  (forall ans, Q (spawn_trace (write_bool_cmd this key v) ans) (Ok tt) this) ->
  spec (_setDconfBoolean key v) this Q.
Proof.
  intros H ans. specialize (H ans). unfold spawn_trace in H.
  destruct ans as [| success stdout]; simpl.
  - intros []. exact H.
  - exact H.
Qed.


Lemma getAutomaticMode_spec (this : Ext) (Q : list obs -> res bool -> Ext -> Prop) :
  (forall ans ans',
     Q (spawn_trace (read_cmd this "automatic-mode") ans
        ++ match dconf_boolean_of ans None with
           | Some _ => []
           | None => spawn_trace (write_bool_cmd this "automatic-mode" true) ans'
           end)
       (Ok match dconf_boolean_of ans None with Some b => b | None => true end) this) ->
  spec _getAutomaticMode this Q.
Proof.
  intros H. unfold _getAutomaticMode. apply spec_bind, getDconfBoolean_spec. intros ans.
  destruct (dconf_boolean_of ans None) as [b |] eqn:E.
  - apply spec_ret. specialize (H ans SpawnThrows). rewrite E in H. exact H.
  - apply spec_bind, setDconfBoolean_spec. intros ans'. apply spec_ret.
    specialize (H ans ans'). rewrite E in H. rewrite app_nil_r. exact H.
Qed.

Lemma get_string_spec (s : schema) (key : string) (this : Ext)
    (Q : list obs -> res string -> Ext -> Prop) :
  (forall v, Q [Obs (GetString s key) v] (Ok v) this) ->
  spec (get_string (Some s) key) this Q.
Proof. intros H. apply spec_call. exact H. Qed.

Lemma set_string_spec (s : schema) (key value : string) (this : Ext)
    (Q : list obs -> res unit -> Ext -> Prop) :
  Q [Obs (SetString s key value) tt] (Ok tt) this ->
  spec (set_string (Some s) key (Some value)) this Q.
Proof. intros H. apply spec_call. intros []. exact H. Qed.


Lemma executeCommand_spec (cmd : string) (this : Ext) (Q : list obs -> res unit -> Ext -> Prop) :
  (forall pa started this1 resolved,
     Q (fst (exec_trace cmd this pa started this1 resolved)) (Ok tt)
       (snd (exec_trace cmd this pa started this1 resolved))) ->
  spec (_executeCommand cmd) this Q.
Proof.
  intros H pa. destruct pa as [| [] argv]; simpl.
  - intros []. exact (H ParseThrows true this true).
  - intros started. destruct started; simpl.
    + intros [this1 resolved]. destruct resolved; simpl.
      * exact (H (ParseReturns true argv) true this1 true).
      * intros []. exact (H (ParseReturns true argv) true this1 false).
    + intros []. exact (H (ParseReturns true argv) false this true).
  - exact (H (ParseReturns false argv) true this true).
Qed.

Lemma await_spec {A : Type} (m : M A) (this : Ext) (Q : list obs -> res A -> Ext -> Prop) :
  spec m this (fun t r e =>
    match r with
    | Ok a => forall this2, Q (t ++ [Obs (AwaitSettled e) this2]) (Ok a) this2
    | Throw x => Q t (Throw x) e
    end) ->
  spec (await m) this Q.
Proof.
  intros H. unfold await. apply spec_bind. eapply spec_mono; [| apply H].
  intros t [a | x] e; simpl; [| tauto].
  intros Ha. apply spec_bind. intros this2. apply spec_ret. simpl. apply Ha.
Qed.

Lemma guarded_set_spec (key : string) (v : option string) (this : Ext)
    (Q : list obs -> res unit -> Ext -> Prop) :
  match JS.truthy_opt v, _interfaceSettings this with
  | true, Some s => Q [Obs (SetString s key (template v)) tt] (Ok tt) this
  | true, None => Q [] (Throw TypeError) this
  | false, _ => Q [] (Ok tt) this
  end ->
  spec (let* this' := get_this in
        when (JS.truthy_opt v) (set_string (_interfaceSettings this') key v)) this Q.
Proof.
  intros H. apply spec_bind, spec_get_this.
  destruct v as [v |]; simpl in *; [| exact H].
  destruct (JS.truthy v); simpl; [| exact H].
  destruct (_interfaceSettings this) as [s |]; simpl.
  - intros []. exact H.
  - exact H.
Qed.

Ltac guarded_set :=
  apply guarded_set_spec;
  repeat match goal with
         | E : _interfaceSettings ?e = _ |- context [_interfaceSettings ?e] => rewrite E
         end;
  lazymatch goal with
  | |- match JS.truthy_opt ?v with _ => _ end => destruct (JS.truthy_opt v) eqn:?
  end.

Ltac close_with H :=
  unfold apply_trace, apply_final in H;
  cbn [sets_trace mode_name String.append] in H;
  repeat match type of H with
         | context [JS.truthy_opt ?v] =>
             match goal with E : JS.truthy_opt v = _ |- _ => rewrite E in H end
         | context [_interfaceSettings ?e] =>
             match goal with E : _interfaceSettings e = _ |- _ => rewrite E in H end
         end;
  cbn [negb andb JS.nonnull app] in H;
  rewrite <- ?app_assoc; cbn [app]; rewrite ?app_nil_r;
  rewrite <- ?app_assoc in H; cbn [app] in H; rewrite ?app_nil_r in H;
  exact H.

Lemma shell_command_if (shell : option string) :
  (if JS.truthy_opt shell && strict_neq "Default" shell
   then await (_executeCommand
                 ("dconf write /org/gnome/shell/extensions/user-theme/name "
                    +:+ dq +:+ "'" +:+ template shell +:+ "'" +:+ dq))
   else await (_executeCommand "dconf reset /org/gnome/shell/extensions/user-theme/name"))
  = await (_executeCommand (shell_command shell)).
Proof.
  unfold shell_command, shell_write_cmd, shell_reset_cmd.
  destruct (JS.truthy_opt shell && strict_neq "Default" shell); reflexivity.
Qed.

Lemma apply_spec (m : mode) (this : Ext) (Q : list obs -> res unit -> Ext -> Prop) :
  (forall a1 a2 a3 a4 a5 pa started this1 resolved this2,
     Q (apply_trace m this a1 a2 a3 a4 a5 pa started this1 resolved this2) (Ok tt)
       (apply_final this a1 this2)) ->
  spec (apply m) this Q.
Proof.
  intros H.
  destruct m; unfold apply, _applyLightTheme, _applyDarkTheme;
    apply spec_try_catch;
    apply spec_bind, getDconfString_spec; intros a1;
    apply spec_bind, getDconfString_spec; intros a2;
    apply spec_bind, getDconfString_spec; intros a3;
    apply spec_bind, getDconfString_spec; intros a4;
    apply spec_bind, getDconfString_spec; intros a5;
    destruct (_interfaceSettings this) as [s |] eqn:Es;
    apply spec_bind; guarded_set.
  all: try (apply spec_call; intros [];
            specialize (H a1 a2 a3 a4 a5 ParseThrows true this true this);
            close_with H).
  all: apply spec_bind; rewrite shell_command_if;
    apply await_spec, executeCommand_spec; intros pa started this1 resolved this2;
    specialize (H a1 a2 a3 a4 a5 pa started this1 resolved this2);
    destruct (_interfaceSettings this2) as [s2 |] eqn:Es2.
  all: apply spec_bind; guarded_set.
  all: try (apply spec_call; intros []; close_with H).
  all: apply spec_bind; guarded_set.
  all: try (apply spec_call; intros []; close_with H).
  all: guarded_set.
  all: try (apply spec_call; intros []).
  all: close_with H.
Qed.

(** ** Projections of a trace *)

Lemma spawned_app (t1 t2 : list obs) : spawned (t1 ++ t2) = spawned t1 ++ spawned t2.
Proof. apply omap_app. Qed.

Lemma live_writes_app (t1 t2 : list obs) : live_writes (t1 ++ t2) = live_writes t1 ++ live_writes t2.
Proof. apply omap_app. Qed.


Lemma spawned_spawn_trace (cmd : string) (ans : spawn_result) :
  spawned (spawn_trace cmd ans) = [cmd].
Proof. destruct ans; reflexivity. Qed.

Lemma live_writes_spawn_trace (cmd : string) (ans : spawn_result) :
  live_writes (spawn_trace cmd ans) = [].
Proof. destruct ans; reflexivity. Qed.


Lemma spawned_exec_trace cmd this pa started this1 resolved :
  spawned (fst (exec_trace cmd this pa started this1 resolved)) = [].
Proof. destruct pa as [| [] argv], started, resolved; reflexivity. Qed.

Lemma live_writes_exec_trace cmd this pa started this1 resolved :
  live_writes (fst (exec_trace cmd this pa started this1 resolved)) = [].
Proof. destruct pa as [| [] argv], started, resolved; reflexivity. Qed.


Lemma spawned_sets_trace this kvs : spawned (sets_trace this kvs) = [].
Proof.
  induction kvs as [| [key v] kvs IH]; simpl; [reflexivity |].
  destruct (JS.truthy_opt v); [| exact IH].
  destruct (_interfaceSettings this); [exact IH | reflexivity].
Qed.





Lemma spawned_apply_trace m this a1 a2 a3 a4 a5 pa started this1 resolved this2 :
  spawned (apply_trace m this a1 a2 a3 a4 a5 pa started this1 resolved this2) =
  [read_cmd this (mode_name m +:+ "-gtk-theme");
   read_cmd this (mode_name m +:+ "-shell-theme");
   read_cmd this (mode_name m +:+ "-icon-theme");
   read_cmd this (mode_name m +:+ "-cursor-theme");
   read_cmd this (mode_name m +:+ "-accent-color")].
Proof.
  unfold apply_trace. rewrite !spawned_app, !spawned_spawn_trace.
  destruct (JS.truthy_opt (dconf_string_of a1 None) && negb (JS.nonnull (_interfaceSettings this))).
  - reflexivity.
  - rewrite !spawned_app, !spawned_sets_trace, spawned_exec_trace. reflexivity.
Qed.


(** ** Strings *)

Lemma append_cons (c : ascii) (a b : string) : String c a +:+ b = String c (a +:+ b).
Proof. reflexivity. Qed.

Lemma append_nil_l (s : string) : "" +:+ s = s.
Proof. reflexivity. Qed.

Lemma append_nil_r (s : string) : s +:+ "" = s.
Proof. induction s as [| c s IH]; [reflexivity |]. rewrite append_cons. f_equal. exact IH. Qed.

Lemma append_assoc (a b c : string) : (a +:+ b) +:+ c = a +:+ (b +:+ c).
Proof. induction a as [| x a IH]; [reflexivity |]. rewrite !append_cons. f_equal. exact IH. Qed.

Lemma append_length (a b : string) : String.length (a +:+ b) = String.length a + String.length b.
Proof. induction a as [| x a IH]; [reflexivity |]. rewrite append_cons. simpl. f_equal. exact IH. Qed.

Lemma append_inv_head (p a b : string) : p +:+ a = p +:+ b -> a = b.
Proof.
  induction p as [| c p IH]; intros H; [exact H |].
  rewrite !append_cons in H. injection H as H. auto.
Qed.


Lemma truthy_nonempty (s : string) : JS.truthy s = true <-> s <> "".
Proof. destruct s; simpl; split; congruence. Qed.


(** ** The command of an applier *)


Lemma shell_command_write (v : string) :
  v <> "" -> v <> "Default" -> shell_command (Some v) = shell_write_cmd v.
Proof.
  intros Hne Hd. unfold shell_command, JS.truthy_opt, strict_neq, template.
  apply truthy_nonempty in Hne. rewrite Hne.
  assert (E : String.eqb "Default" v = false) by (apply String.eqb_neq; congruence).
  rewrite E. reflexivity.
Qed.

(** ** The night-light handler *)

Lemma run_bind {W A B : Type} (h : env W) (m : M A) (f : A -> M B) (this : Ext) (w : W) :
  run h (bind m f this) w =
  match fst (result (run h (m this) w)) with
  | Ok a =>
      (result (run h (f a (snd (result (run h (m this) w)))) (world (run h (m this) w))),
       world (run h (f a (snd (result (run h (m this) w)))) (world (run h (m this) w))),
       trace (run h (m this) w)
       ++ trace (run h (f a (snd (result (run h (m this) w)))) (world (run h (m this) w))))
  | Throw x =>
      ((Throw x, snd (result (run h (m this) w))), world (run h (m this) w),
       trace (run h (m this) w) ++ [])
  end.
Proof.
  unfold bind. rewrite run_pbind.
  destruct (fst (result (run h (m this) w))); reflexivity.
Qed.

Lemma getAutomaticMode_no_live_write (this : Ext) :
  spec _getAutomaticMode this (fun t _ _ => live_writes t = []).
Proof.
  apply getAutomaticMode_spec. intros ans ans'.
  rewrite live_writes_app, live_writes_spawn_trace.
  destruct (dconf_boolean_of ans None); [reflexivity | apply live_writes_spawn_trace].
Qed.

(** C6.  Whatever the environment answers, when the read of the
    automatic-mode flag that opens the handler gives [false], the handler
    makes no [set_string] call at all: neither the colour scheme nor a
    wallpaper key is written. *)
Theorem automatic_mode_gating :
  forall (W : Type) (h : env W) (w : W) (this : Ext) (nightLightActive : jsbool),
    fst (result (run h (_getAutomaticMode this) w)) = Ok false ->
    live_writes (trace (run h (_handleNightLightChange nightLightActive this) w)) = [].
Proof.
  intros W h w this active Hflag.
  unfold _handleNightLightChange. rewrite run_bind, Hflag. cbn [negb trace snd ret run].
  rewrite app_nil_r.
  exact (spec_run _ _ _ (getAutomaticMode_no_live_write this) W h w).
Qed.

(** ** Teardown *)

(** C9, as the code has it.  Whatever the environment answers, [disable]
    completes and leaves the cached night-light state [null], the proxy
    reference [null] and both settings references [null]; it disconnects
    the wallpaper handler and the colour-scheme handler when the settings
    object and a non-zero id are there; the stored wallpapers are left as
    they were. *)
Theorem disable_postcondition :
  forall (W : Type) (h : env W) (w : W) (this : Ext),
    let r := run h (disable this) w in
    let this' := snd (result r) in
    fst (result r) = Ok tt /\
    _lastNightLightState this' = JNull /\
    _nightLightProxy this' = None /\
    _settings this' = None /\
    _interfaceSettings this' = None /\
    disconnected (trace r) =
      dropped (_settings this) (_wallpaperChangeHandler this)
      ++ dropped (_interfaceSettings this) (_styleChangeHandler this) /\
    _storedWallpapers this' = _storedWallpapers this.
Proof.
  intros W h w this.
  apply (spec_run disable this
           (fun t r e => r = Ok tt /\ _lastNightLightState e = JNull /\
                         _nightLightProxy e = None /\ _settings e = None /\
                         _interfaceSettings e = None /\
                         disconnected t = _ /\ _storedWallpapers e = _storedWallpapers this)).
  destruct this as [proxy bg ifc last stored wid sid path].
  unfold disable. apply spec_bind, spec_call. intros [].
  destruct proxy as [[] |], bg as [bg |], ifc as [ifc |],
    wid as [[| wid] |], sid as [[| sid] |]; cbn.
  all: repeat (let x := fresh in intros x; destruct x).
  all: repeat split; reflexivity.
Qed.

(** ** Suspensions *)

Lemma run_answered {W A : Type} (h : env W) (p : prog A) (w : W) :
  Forall (answered h) (trace (run h p w)).
Proof.
  revert w. induction p as [a | X e k IH]; intros w; simpl.
  - constructor.
  - constructor; [exists w; reflexivity | apply IH].
Qed.

Lemma before_await_app (t1 t2 : list obs) :
  no_await t1 = true -> before_await (t1 ++ t2) = t1 ++ before_await t2.
Proof.
  induction t1 as [| o t1 IH]; simpl; [reflexivity |].
  destruct (is_await o); simpl; [discriminate |]. intros H. f_equal. apply IH, H.
Qed.

Lemma after_await_app (t1 t2 : list obs) :
  no_await t1 = true -> after_await (t1 ++ t2) = after_await t2.
Proof.
  induction t1 as [| o t1 IH]; simpl; [reflexivity |].
  destruct (is_await o); simpl; [discriminate |]. intros H. apply IH, H.
Qed.


Lemma no_await_spawn_trace (cmd : string) (ans : spawn_result) : no_await (spawn_trace cmd ans) = true.
Proof. destruct ans; reflexivity. Qed.

Lemma no_await_sets_trace (this : Ext) (kvs : list (string * option string)) :
  no_await (sets_trace this kvs) = true.
Proof.
  induction kvs as [| [key v] kvs IH]; simpl; [reflexivity |].
  destruct (JS.truthy_opt v); [| exact IH].
  destruct (_interfaceSettings this); [exact IH | reflexivity].
Qed.

Lemma no_await_before (t : list obs) : no_await t = true -> before_await t = t.
Proof. intros H. rewrite <- (app_nil_r t) at 1. rewrite before_await_app, app_nil_r; auto. Qed.




Ltac spec_step :=
  first
    [ apply getAutomaticMode_spec; intros ? ?
    | apply spec_ret | apply spec_throw | apply spec_assign | apply spec_get_this
    | apply spec_call; intros ?
    | match goal with
      | |- spec (get_string ?h _) _ _ =>
          destruct h; [apply get_string_spec; intros ? | apply (spec_throw TypeError)]
      | |- spec (set_string ?h _ ?v) _ _ =>
          destruct h; [destruct v; [apply set_string_spec |] |];
          try apply (spec_throw TypeError)
      | |- spec (when ?c _) _ _ => destruct c; unfold when
      | |- spec (if ?c then _ else _) _ _ => destruct c
      | |- spec (bind _ _) _ _ => apply spec_bind
      end ];
  cbv beta iota.





(** ** The command line of the reference desktop *)

Lemma word_char_inv (c : ascii) :
  word_char c = true ->
  Shell.is_blank c = false /\ Ascii.eqb c "'" = false /\ Ascii.eqb c "034" = false /\
  Ascii.eqb c "\" = false /\ Ascii.eqb c "#" = false.
Proof.
  unfold word_char.
  destruct (Shell.is_blank c), (Ascii.eqb c "'"), (Ascii.eqb c "034"),
    (Ascii.eqb c "\"), (Ascii.eqb c "#"); simpl; intros H;
    try discriminate; repeat split; reflexivity.
Qed.

Lemma tokenize_word_some (pre rest cur : string) :
  word_chars pre = true ->
  Shell.tokenize (pre +:+ rest) Shell.Unquoted (Some cur) =
  Shell.tokenize rest Shell.Unquoted (Some (cur +:+ pre)).
Proof.
  revert cur. induction pre as [| c pre IH]; intros cur H.
  - rewrite append_nil_r. reflexivity.
  - simpl in H. apply andb_prop in H as [Hc Hpre].
    apply word_char_inv in Hc as (H1 & H2 & H3 & H4 & H5).
    rewrite append_cons. simpl. rewrite H1, H2, H3, H4, H5. simpl.
    rewrite IH by exact Hpre. rewrite append_assoc. reflexivity.
Qed.

Lemma tokenize_word (a rest : string) :
  word a = true ->
  Shell.tokenize (a +:+ rest) Shell.Unquoted None =
  Shell.tokenize rest Shell.Unquoted (Some a).
Proof.
  unfold word. destruct a as [| c a]; [discriminate |]. simpl.
  intros H. apply andb_prop in H as [Hc Ha].
  apply word_char_inv in Hc as (H1 & H2 & H3 & H4 & H5).
  rewrite H1, H2, H3, H4, H5. simpl.
  apply (tokenize_word_some a rest (String c "") Ha).
Qed.

Lemma tokenize_word_blank (a rest : string) :
  word a = true ->
  Shell.tokenize (a +:+ " " +:+ rest) Shell.Unquoted None =
  option_map (cons a) (Shell.tokenize rest Shell.Unquoted None).
Proof. intros H. rewrite tokenize_word by exact H. reflexivity. Qed.

Lemma tokenize_word_end (a : string) :
  word a = true -> Shell.tokenize a Shell.Unquoted None = Some [a].
Proof.
  intros H. rewrite <- (append_nil_r a) at 1. rewrite tokenize_word by exact H. reflexivity.
Qed.

Lemma tokenize_dq (body rest cur : string) :
  dq_chars body = true ->
  Shell.tokenize (body +:+ rest) Shell.InDouble (Some cur) =
  Shell.tokenize rest Shell.InDouble (Some (cur +:+ body)).
Proof.
  revert cur. induction body as [| c body IH]; intros cur H.
  - rewrite append_nil_r. reflexivity.
  - simpl in H. apply andb_prop in H as [Hc Hbody]. unfold dq_char in Hc.
    rewrite append_cons. simpl.
    destruct (Ascii.eqb c "034"); [discriminate |].
    destruct (Ascii.eqb c "\"); [discriminate |].
    rewrite IH by exact Hbody. rewrite append_assoc. reflexivity.
Qed.

Lemma tokenize_quoted_end (body : string) :
  dq_chars body = true ->
  Shell.tokenize (dq +:+ body +:+ dq) Shell.Unquoted None = Some [body].
Proof.
  intros H. change (dq +:+ body +:+ dq) with (String "034" (body +:+ dq)). simpl.
  rewrite (tokenize_dq body dq "" H). reflexivity.
Qed.

Lemma parse_read_cmd (K : string) :
  word K = true -> Shell.parse_argv ("dconf read " +:+ K) = Some ["dconf"; "read"; K].
Proof.
  intros H. unfold Shell.parse_argv.
  change ("dconf read " +:+ K) with ("dconf" +:+ " " +:+ "read" +:+ " " +:+ K).
  rewrite !tokenize_word_blank by reflexivity. rewrite tokenize_word_end by exact H.
  reflexivity.
Qed.

Lemma parse_reset_cmd (K : string) :
  word K = true -> Shell.parse_argv ("dconf reset " +:+ K) = Some ["dconf"; "reset"; K].
Proof.
  intros H. unfold Shell.parse_argv.
  change ("dconf reset " +:+ K) with ("dconf" +:+ " " +:+ "reset" +:+ " " +:+ K).
  rewrite !tokenize_word_blank by reflexivity. rewrite tokenize_word_end by exact H.
  reflexivity.
Qed.

Lemma tokenize_write_prefix (K rest : string) :
  word K = true ->
  Shell.tokenize ("dconf write " +:+ K +:+ " " +:+ rest) Shell.Unquoted None =
  option_map (fun tl => "dconf" :: "write" :: K :: tl)
    (Shell.tokenize rest Shell.Unquoted None).
Proof.
  intros H.
  change ("dconf write " +:+ K +:+ " " +:+ rest)
    with ("dconf" +:+ " " +:+ "write" +:+ " " +:+ K +:+ " " +:+ rest).
  rewrite !tokenize_word_blank by reflexivity. rewrite tokenize_word_blank by exact H.
  destruct (Shell.tokenize rest Shell.Unquoted None); reflexivity.
Qed.

Lemma parse_write_prefix (K rest : string) (argv : list string) :
  word K = true ->
  Shell.parse_argv ("dconf write " +:+ K +:+ " " +:+ rest) = Some argv ->
  exists tl, argv = "dconf" :: "write" :: K :: tl.
Proof.
  intros H. unfold Shell.parse_argv. rewrite tokenize_write_prefix by exact H.
  destruct (Shell.tokenize rest Shell.Unquoted None) as [tl |]; simpl; [| discriminate].
  intros [= <-]. exists tl. reflexivity.
Qed.

Lemma parse_write_quoted (K body : string) :
  word K = true -> dq_chars body = true ->
  Shell.parse_argv ("dconf write " +:+ K +:+ " " +:+ dq +:+ body +:+ dq) =
  Some ["dconf"; "write"; K; body].
Proof.
  intros HK Hb. unfold Shell.parse_argv. rewrite tokenize_write_prefix by exact HK.
  rewrite tokenize_quoted_end by exact Hb. reflexivity.
Qed.

Lemma parse_write_true (K : string) :
  word K = true ->
  Shell.parse_argv ("dconf write " +:+ K +:+ " " +:+ "true") = Some ["dconf"; "write"; K; "true"].
Proof.
  intros HK. unfold Shell.parse_argv. rewrite tokenize_write_prefix by exact HK. reflexivity.
Qed.

(** ** Reading back what [dconf] prints *)

Lemma is_space3_quote (c1 c2 : ascii) : JS.is_space3 c1 c2 "'" = false.
Proof.
  unfold JS.is_space3. simpl. rewrite !andb_false_r. reflexivity.
Qed.

Lemma is_space3_quote_second (c1 c3 : ascii) : JS.is_space3 c1 "'" c3 = false.
Proof.
  unfold JS.is_space3. simpl.
  repeat match goal with |- context [Ascii.eqb c1 ?k] => destruct (Ascii.eqb c1 k) end;
    reflexivity.
Qed.

Lemma is_space2_quote (c1 : ascii) : JS.is_space2 c1 "'" = false.
Proof. unfold JS.is_space2. simpl. apply andb_false_r. Qed.

Lemma trimStart_quote (s : string) : JS.trimStart (String "'" s) = String "'" s.
Proof. destruct s as [| c2 [| c3 s]]; reflexivity. Qed.

(** Text that holds a quote is not made of white space only. *)
Lemma trimStart_holds_quote (n : nat) :
  forall x t : string, String.length x <= n -> JS.trimStart (x +:+ String "'" t) <> "".
Proof.
  induction n as [| n IH]; intros x t Hn.
  - destruct x; [| simpl in Hn; lia]. rewrite append_nil_l, trimStart_quote. discriminate.
  - destruct x as [| c1 [| c2 [| c3 x]]]; rewrite ?append_cons, ?append_nil_l;
      simpl in Hn; cbn [JS.trimStart].
    + destruct t as [| c2 [| c3 t]]; discriminate.
    + destruct (JS.is_space c1); [destruct t as [| c2 [| c3 t]]; discriminate |].
      rewrite is_space2_quote. destruct t; [discriminate |].
      rewrite is_space3_quote_second. discriminate.
    + destruct (JS.is_space c1); [apply (IH (String c2 "")); simpl; lia |].
      destruct (JS.is_space2 c1 c2); [destruct t as [| c3 [| c4 t]]; discriminate |].
      rewrite is_space3_quote. discriminate.
    + destruct (JS.is_space c1); [apply (IH (String c2 (String c3 x))); simpl; lia |].
      destruct (JS.is_space2 c1 c2); [apply (IH (String c3 x)); simpl; lia |].
      destruct (JS.is_space3 c1 c2 c3); [apply IH; lia | discriminate].
Qed.

Lemma trimEnd_quote_newline (x : string) :
  JS.trimEnd (x +:+ String "'" (String "010" "")) = x +:+ "'".
Proof.
  induction x as [| c x IH]; [reflexivity |].
  rewrite append_cons. cbn [JS.trimEnd]. rewrite <- append_cons.
  pose proof (trimStart_holds_quote _ (String c x) (String "010" "") (le_n _)) as H.
  destruct (JS.trimStart (String c x +:+ String "'" (String "010" ""))); [congruence |].
  rewrite IH. reflexivity.
Qed.

Lemma trim_quoted_output (v : string) :
  JS.trim (output (Some (quoted v))) = quoted v.
Proof.
  unfold output, quoted, JS.trim.
  change (("'" +:+ v +:+ "'") +:+ String "010" "")
    with (String "'" ((v +:+ "'") +:+ String "010" "")).
  rewrite trimStart_quote, append_assoc.
  change (String "'" (v +:+ "'" +:+ String "010" ""))
    with (String "'" v +:+ String "'" (String "010" "")).
  rewrite trimEnd_quote_newline. reflexivity.
Qed.

Lemma endsWith_append (x p : string) : JS.endsWith (x +:+ p) p = true.
Proof.
  induction x as [| c x IH].
  - simpl. destruct p; simpl; rewrite ?String.eqb_refl, ?Ascii.eqb_refl; reflexivity.
  - rewrite append_cons. simpl. rewrite IH.
    match goal with |- (if ?b then true else true) = true => destruct b; reflexivity end.
Qed.

Lemma substring_head (v q : string) : substring 0 (String.length v) (v +:+ q) = v.
Proof.
  induction v as [| c v IH]; simpl.
  - destruct q; reflexivity.
  - f_equal. exact IH.
Qed.

Lemma slice_quoted (v : string) : JS.slice (quoted v) 1 (-1) = v.
Proof.
  unfold JS.slice, quoted.
  change ("'" +:+ v +:+ "'") with (String "'" (v +:+ "'")).
  cbn [String.length]. rewrite append_length. cbn [String.length].
  replace (Z.to_nat (if (1 <? 0)%Z then _ else Z.min 1 _)) with 1.
  2: { cbn [Z.ltb Z.compare]. lia. }
  match goal with
  | |- substring 1 ?n _ = _ => replace n with (String.length v)
  end.
  2: { cbn [Z.ltb Z.compare]. lia. }
  simpl substring. apply substring_head.
Qed.

Lemma prefix_nil (s : string) : String.prefix "" s = true.
Proof. destruct s; reflexivity. Qed.

Lemma unquote_quoted_output (v : string) : unquote (output (Some (quoted v))) = v.
Proof.
  unfold unquote. rewrite trim_quoted_output.
  assert (Hs : JS.startsWith (quoted v) "'" = true).
  { unfold JS.startsWith, quoted. change ("'" +:+ v +:+ "'") with (String "'" (v +:+ "'")).
    simpl. apply prefix_nil. }
  assert (He : JS.endsWith (quoted v) "'" = true).
  { unfold quoted. rewrite <- append_assoc. apply endsWith_append. }
  rewrite Hs, He. apply slice_quoted.
Qed.

Lemma dconf_string_of_quoted (v : string) (d : option string) :
  dconf_string_of (SpawnReturns true (Some (output (Some (quoted v))))) d = Some v.
Proof.
  unfold dconf_string_of. rewrite trim_quoted_output, unquote_quoted_output.
  unfold quoted. change ("'" +:+ v +:+ "'") with (String "'" (v +:+ "'")). reflexivity.
Qed.

Lemma dconf_string_of_unset (d : option string) :
  dconf_string_of (SpawnReturns true (Some (output None))) d = d.
Proof. reflexivity. Qed.

Lemma shell_theme_of_quoted (v : string) :
  shell_theme_of (SpawnReturns true (Some (output (Some (quoted v))))) = v.
Proof.
  unfold shell_theme_of. rewrite trim_quoted_output, unquote_quoted_output.
  unfold quoted. change ("'" +:+ v +:+ "'") with (String "'" (v +:+ "'")). reflexivity.
Qed.

(** ** Runs on the reference desktop *)

Lemma run_replay {W A : Type} (h : env W) (p : prog A) (w : W) :
  world (run h p w) = replay h (trace (run h p w)) w.
Proof.
  revert w. induction p as [a | X e k IH]; intros w; simpl; [reflexivity |].
  apply IH.
Qed.

Lemma run_consistent {W A : Type} (h : env W) (p : prog A) (w : W) :
  consistent h (trace (run h p w)) w.
Proof.
  revert w. induction p as [a | X e k IH]; intros w; simpl; [exact I |].
  split; [reflexivity | apply IH].
Qed.

Lemma replay_app {W : Type} (h : env W) (t1 t2 : list obs) (w : W) :
  replay h (t1 ++ t2) w = replay h t2 (replay h t1 w).
Proof.
  revert w. induction t1 as [| [X e x] t1 IH]; intros w; simpl; [reflexivity | apply IH].
Qed.


(** What a method does on the desktop, from a property of all its runs. *)
Lemma spec_on_desktop {A : Type} (m : M A) (this : Ext) (Q : list obs -> res A -> Ext -> Prop) :
  spec m this Q ->
  forall w,
    Q (trace (on_desktop m this w)) (fst (result (on_desktop m this w)))
      (snd (result (on_desktop m this w))) /\
    consistent desktop (trace (on_desktop m this w)) w /\
    world (on_desktop m this w) = replay desktop (trace (on_desktop m this w)) w.
Proof.
  intros H w. split; [apply (spec_run m this Q H) |].
  split; [apply run_consistent | apply run_replay].
Qed.

Lemma set_dconf_same (w : Desktop) : set_dconf (dconf w) w = w.
Proof. destruct w; reflexivity. Qed.

Lemma desktop_quiet : quiet desktop.
Proof. repeat split. Qed.

Lemma desktop_spawn_trace (cmd : string) (ans : spawn_result) (t : list obs) (w : Desktop) :
  consistent desktop (spawn_trace cmd ans ++ t) w ->
  ans = fst (desktop _ (SpawnCommandLineSync cmd) w) /\
  consistent desktop t (snd (desktop _ (SpawnCommandLineSync cmd) w)) /\
  replay desktop (spawn_trace cmd ans ++ t) w =
    replay desktop t (snd (desktop _ (SpawnCommandLineSync cmd) w)).
Proof.
  unfold spawn_trace. destruct ans; simpl.
  - intros (H1 & _ & H2). auto.
  - intros (H1 & H2). auto.
Qed.

Lemma desktop_read (K : string) (w : Desktop) :
  word K = true ->
  desktop _ (SpawnCommandLineSync ("dconf read " +:+ K)) w =
  (SpawnReturns true (Some (output (dconf w !! K))), w).
Proof.
  intros H. simpl. rewrite parse_read_cmd by exact H. simpl.
  destruct (dconf w !! K); simpl; rewrite set_dconf_same; reflexivity.
Qed.

Lemma plain_bytes_dq_chars (v : string) : Dconf.plain_bytes v = true -> dq_chars v = true.
Proof.
  induction v as [| c v IH]; simpl; [reflexivity |].
  intros H. apply andb_prop in H as [Hc Hv]. rewrite (IH Hv), andb_true_r.
  unfold Dconf.plain_char in Hc. unfold dq_char.
  destruct (Ascii.eqb c "\"), (Ascii.eqb c "034"); simpl in *;
    rewrite ?andb_false_r in Hc; try discriminate; reflexivity.
Qed.

Lemma plain_dq_chars (v : string) : Dconf.plain v = true -> dq_chars v = true.
Proof.
  intros H. apply andb_prop in H as [H _]. apply plain_bytes_dq_chars. exact H.
Qed.

Lemma dq_chars_app (a b : string) : dq_chars (a +:+ b) = dq_chars a && dq_chars b.
Proof.
  induction a as [| c a IH]; [reflexivity |].
  rewrite append_cons. simpl. rewrite IH, andb_assoc. reflexivity.
Qed.

Lemma quoted_dq_chars (v : string) : Dconf.plain v = true -> dq_chars (quoted v) = true.
Proof.
  intros H. unfold quoted. rewrite !dq_chars_app, (plain_dq_chars v H). reflexivity.
Qed.

Lemma accepts_quoted (v : string) : Dconf.plain v = true -> Dconf.accepts (quoted v) = true.
Proof.
  intros H. unfold Dconf.accepts. rewrite slice_quoted, H, andb_true_r.
  assert (Hs : JS.startsWith (quoted v) "'" = true).
  { unfold JS.startsWith, quoted. change ("'" +:+ v +:+ "'") with (String "'" (v +:+ "'")).
    simpl. apply prefix_nil. }
  assert (He : JS.endsWith (quoted v) "'" = true).
  { unfold quoted. rewrite <- append_assoc. apply endsWith_append. }
  assert (Hl : (2 <=? String.length (quoted v)) = true).
  { unfold quoted. rewrite !append_length. apply Nat.leb_le. simpl. lia. }
  rewrite Hs, He, Hl. apply orb_true_r.
Qed.

Lemma write_cmd_eq (this : Ext) (key value : string) :
  write_cmd this key value =
  "dconf write " +:+ (_dconfPath this +:+ key) +:+ " " +:+ dq +:+ quoted value +:+ dq.
Proof. unfold write_cmd, quoted. rewrite !append_assoc. reflexivity. Qed.

Lemma desktop_write_plain (K v : string) (w : Desktop) :
  word K = true -> Dconf.plain v = true ->
  desktop _ (SpawnCommandLineSync ("dconf write " +:+ K +:+ " " +:+ dq +:+ quoted v +:+ dq)) w =
  (SpawnReturns true (Some ""), set_dconf (<[K := quoted v]> (dconf w)) w).
Proof.
  intros HK Hv. simpl.
  rewrite parse_write_quoted by (exact HK || apply quoted_dq_chars, Hv).
  simpl. rewrite accepts_quoted by exact Hv. reflexivity.
Qed.

Lemma exec_write_frame (K : string) (tl : list string) (db : gmap string string) (k : string) :
  k <> K -> snd (Dconf.exec ("dconf" :: "write" :: K :: tl) db) !! k = db !! k.
Proof.
  intros Hk. destruct tl as [| t [| t' tl]]; simpl; try reflexivity.
  destruct (Dconf.accepts t); simpl; [| reflexivity].
  apply lookup_insert_ne. congruence.
Qed.

Lemma desktop_write_frame (K rest : string) (w : Desktop) :
  word K = true ->
  exists db',
    snd (desktop _ (SpawnCommandLineSync ("dconf write " +:+ K +:+ " " +:+ rest)) w) = set_dconf db' w /\
    forall k, k <> K -> db' !! k = dconf w !! k.
Proof.
  intros HK. simpl.
  destruct (Shell.parse_argv ("dconf write " +:+ K +:+ " " +:+ rest)) as [argv |] eqn:E.
  - apply parse_write_prefix in E as [tl ->]; [| exact HK].
    eexists. split; [reflexivity |]. intros k Hk. apply exec_write_frame, Hk.
  - exists (dconf w). rewrite set_dconf_same. split; reflexivity.
Qed.

Lemma desktop_write_true (K : string) (w : Desktop) :
  word K = true ->
  desktop _ (SpawnCommandLineSync ("dconf write " +:+ K +:+ " " +:+ "true")) w =
  (SpawnReturns true (Some ""), set_dconf (<[K := "true"]> (dconf w)) w).
Proof. intros HK. simpl. rewrite parse_write_true by exact HK. reflexivity. Qed.

(** ** The automatic-mode flag on the desktop *)

Lemma getAutomaticMode_desktop (this : Ext) (w : Desktop) :
  _dconfPath this = themekeeper_path ->
  let K := themekeeper_path +:+ "automatic-mode" in
  let flag := dconf_boolean_of (SpawnReturns true (Some (output (dconf w !! K)))) None in
  result (on_desktop _getAutomaticMode this w) =
    (Ok match flag with Some b => b | None => true end, this) /\
  world (on_desktop _getAutomaticMode this w) =
    match flag with
    | Some _ => w
    | None => set_dconf (<[K := "true"]> (dconf w)) w
    end.
Proof.
  intros Hpath. cbv zeta.
  assert (Hspec : spec _getAutomaticMode this
              (fun t r e => exists ans ans',
                 t = spawn_trace (read_cmd this "automatic-mode") ans
                     ++ match dconf_boolean_of ans None with
                        | Some _ => []
                        | None => spawn_trace (write_bool_cmd this "automatic-mode" true) ans'
                        end /\
                 r = Ok match dconf_boolean_of ans None with Some b => b | None => true end /\
                 e = this)).
  { apply getAutomaticMode_spec. intros ans ans'. exists ans, ans'. auto. }
  destruct (spec_on_desktop _ _ _ Hspec w) as ((ans & ans' & Ht & Hr & He) & Hc & Hw).
  clear Hspec. rewrite Ht in Hc, Hw. clear Ht.
  apply desktop_spawn_trace in Hc as (Hans & Hc & Hrep). rewrite Hrep in Hw. clear Hrep.
  unfold read_cmd in Hans, Hc, Hw. rewrite Hpath in Hans, Hc, Hw.
  rewrite desktop_read in Hans, Hc, Hw by reflexivity. simpl in Hans, Hc, Hw.
  subst ans.
  set (flag := dconf_boolean_of _ None) in *.
  split.
  - destruct (result (on_desktop _getAutomaticMode this w)) as [r e]. simpl in Hr, He.
    subst. reflexivity.
  - rewrite Hw. destruct flag; [reflexivity |].
    rewrite <- (app_nil_r (spawn_trace _ ans')) in Hc |- *.
    apply desktop_spawn_trace in Hc as (_ & _ & Hrep').
    rewrite Hrep'. unfold write_bool_cmd. rewrite Hpath.
    change ("dconf write " +:+ themekeeper_path +:+ "automatic-mode" +:+ " " +:+ "true")
      with ("dconf write " +:+ (themekeeper_path +:+ "automatic-mode") +:+ " " +:+ "true").
    rewrite desktop_write_true by reflexivity. reflexivity.
Qed.

(** C7.  On the desktop, with the automatic-mode key unset: the read
    gives [true] and leaves [true] under the key; and however many reads
    follow, each gives [true]. *)
Theorem automatic_mode_first_read :
  forall (w : Desktop) (this : Ext),
    _dconfPath this = themekeeper_path ->
    dconf w !! (themekeeper_path +:+ "automatic-mode") = None ->
    let r := on_desktop _getAutomaticMode this w in
    let again := fun w' => world (on_desktop _getAutomaticMode this w') in
    fst (result r) = Ok true /\
    dconf (world r) !! (themekeeper_path +:+ "automatic-mode") = Some "true" /\
    forall n : nat,
      fst (result (on_desktop _getAutomaticMode this (Nat.iter n again (world r)))) = Ok true.
Proof.
  intros w this Hpath Hunset r again.
  destruct (getAutomaticMode_desktop this w Hpath) as [Hr Hw].
  fold r in Hr, Hw. rewrite Hunset in Hr, Hw. simpl in Hr, Hw.
  assert (Hkey : dconf (world r) !! (themekeeper_path +:+ "automatic-mode") = Some "true").
  { rewrite Hw. simpl. apply lookup_insert_eq. }
  split; [rewrite Hr; reflexivity |]. split; [exact Hkey |].
  assert (Hstable : forall w', dconf w' !! (themekeeper_path +:+ "automatic-mode") = Some "true" ->
            fst (result (on_desktop _getAutomaticMode this w')) = Ok true /\ again w' = w').
  { intros w' Hw'. destruct (getAutomaticMode_desktop this w' Hpath) as [Hr' Hw''].
    rewrite Hw' in Hr', Hw''. unfold again. rewrite Hr', Hw''. split; reflexivity. }
  intros n. assert (Hn : Nat.iter n again (world r) = world r).
  { induction n as [| n IH]; simpl; [reflexivity |]. rewrite IH. apply Hstable, Hkey. }
  rewrite Hn. apply Hstable, Hkey.
Qed.

(** ** Postconditions of runs *)

Lemma run_try_catch {W A : Type} (h : env W) (body : M A) (handler : exn -> M A)
    (this : Ext) (w : W) :
  run h (try_catch body handler this) w =
  match fst (result (run h (body this) w)) with
  | Ok a =>
      ((Ok a, snd (result (run h (body this) w))), world (run h (body this) w),
       trace (run h (body this) w) ++ [])
  | Throw x =>
      (result (run h (handler x (snd (result (run h (body this) w)))) (world (run h (body this) w))),
       world (run h (handler x (snd (result (run h (body this) w)))) (world (run h (body this) w))),
       trace (run h (body this) w)
       ++ trace (run h (handler x (snd (result (run h (body this) w)))) (world (run h (body this) w))))
  end.
Proof.
  unfold try_catch. rewrite run_pbind.
  destruct (fst (result (run h (body this) w))); reflexivity.
Qed.

Lemma wp_ret {W A : Type} (h : env W) (a : A) (this : Ext) (w : W) (Q : res A -> Ext -> W -> Prop) :
  Q (Ok a) this w -> wp h (ret a) this w Q.
Proof. intros H. exact H. Qed.

Lemma wp_get_this {W : Type} (h : env W) (this : Ext) (w : W) (Q : res Ext -> Ext -> W -> Prop) :
  Q (Ok this) this w -> wp h get_this this w Q.
Proof. intros H. exact H. Qed.

Lemma wp_call {W X : Type} (h : env W) (e : eff X) (this : Ext) (w : W)
    (Q : res X -> Ext -> W -> Prop) :
  Q (Ok (fst (h _ e w))) this (snd (h _ e w)) -> wp h (call e) this w Q.
Proof. intros H. exact H. Qed.

Lemma wp_bind {W A B : Type} (h : env W) (m : M A) (f : A -> M B) (this : Ext) (w : W)
    (Q : res B -> Ext -> W -> Prop) :
  wp h m this w (fun r e w' =>
    match r with
    | Ok a => wp h (f a) e w' Q
    | Throw x => Q (Throw x) e w'
    end) ->
  wp h (bind m f) this w Q.
Proof.
  unfold wp. rewrite run_bind.
  destruct (fst (result (run h (m this) w))); intros H; exact H.
Qed.

Lemma wp_try_catch {W A : Type} (h : env W) (body : M A) (handler : exn -> M A)
    (this : Ext) (w : W) (Q : res A -> Ext -> W -> Prop) :
  wp h body this w (fun r e w' =>
    match r with
    | Ok a => Q (Ok a) e w'
    | Throw x => wp h (handler x) e w' Q
    end) ->
  wp h (try_catch body handler) this w Q.
Proof.
  unfold wp. rewrite run_try_catch.
  destruct (fst (result (run h (body this) w))); intros H; exact H.
Qed.

Lemma wp_getDconfString (key : string) (d : option string) (this : Ext) (w : Desktop)
    (Q : res (option string) -> Ext -> Desktop -> Prop) :
  word (_dconfPath this +:+ key) = true ->
  Q (Ok (dconf_string_of
           (SpawnReturns true (Some (output (dconf w !! (_dconfPath this +:+ key))))) d))
    this w ->
  wp desktop (_getDconfString key d) this w Q.
Proof.
  intros HK H. unfold wp, _getDconfString.
  cbv [try_catch bind get_this spawn_command_line_sync call pbind run fst snd].
  rewrite desktop_read by exact HK.
  cbv [try_catch bind ret pbind run result world trace fst snd].
  unfold dconf_string_of, unquote in H.
  destruct (String.eqb (JS.trim (output (dconf w !! (_dconfPath this +:+ key)))) "");
    [exact H |].
  destruct (JS.startsWith _ "'" && JS.endsWith _ "'"); exact H.
Qed.

Lemma wp_mono {W A : Type} (h : env W) (m : M A) (this : Ext) (w : W)
    (Q Q' : res A -> Ext -> W -> Prop) :
  (forall r e w', Q r e w' -> Q' r e w') -> wp h m this w Q -> wp h m this w Q'.
Proof. intros HQ. apply HQ. Qed.

Lemma wp_getCurrentShellTheme (this : Ext) (w : Desktop) (Q : res string -> Ext -> Desktop -> Prop) :
  Q (Ok (live_shell w)) this w -> wp desktop _getCurrentShellTheme this w Q.
Proof.
  intros H. unfold live_shell in H. unfold wp, _getCurrentShellTheme.
  change shell_read_cmd with ("dconf read " +:+ user_theme_key) in H.
  change "dconf read /org/gnome/shell/extensions/user-theme/name"
    with ("dconf read " +:+ user_theme_key).
  cbv [try_catch bind get_this spawn_command_line_sync call pbind run fst snd].
  rewrite desktop_read in H |- * by reflexivity.
  cbv [try_catch bind ret pbind run result world trace fst snd].
  unfold shell_theme_of, unquote in H. cbv [fst] in H.
  destruct (String.eqb (JS.trim (output (dconf w !! user_theme_key))) ""); [exact H |].
  destruct (JS.startsWith _ "'" && JS.endsWith _ "'"); exact H.
Qed.

Lemma wp_get_string (s : schema) (key : string) (this : Ext) (w : Desktop)
    (Q : res string -> Ext -> Desktop -> Prop) :
  Q (Ok (store w s key)) this w -> wp desktop (get_string (Some s) key) this w Q.
Proof. intros H. exact H. Qed.

Lemma wp_guarded_set (s : schema) (key : string) (v : option string) (this : Ext) (w : Desktop)
    (Q : res unit -> Ext -> Desktop -> Prop) :
  _interfaceSettings this = Some s ->
  Q (Ok tt) this (if JS.truthy_opt v then set_store s key (template v) w else w) ->
  wp desktop
    (let* this' := get_this in
     when (JS.truthy_opt v) (set_string (_interfaceSettings this') key v)) this w Q.
Proof.
  intros Hs H. unfold wp. cbv [bind get_this pbind fst snd]. rewrite Hs.
  destruct v as [v |]; [| exact H]. simpl in *.
  destruct (JS.truthy v); exact H.
Qed.

Lemma wp_await {A : Type} (m : M A) (this : Ext) (w : Desktop) (Q : res A -> Ext -> Desktop -> Prop) :
  wp desktop m this w Q -> wp desktop (await m) this w Q.
Proof.
  intros H. unfold await. apply wp_bind. revert H. apply wp_mono.
  intros [a | x] e w' H; exact H.
Qed.

Lemma wp_setDconfString (key value : string) (this : Ext) (w : Desktop)
    (Q : res unit -> Ext -> Desktop -> Prop) :
  Q (Ok tt) this (spawn_world (write_cmd this key value) w) ->
  wp desktop (_setDconfString key value) this w Q.
Proof.
  intros H. unfold spawn_world in H. unfold wp, _setDconfString.
  cbv [try_catch bind get_this spawn_command_line_sync call pbind run fst snd].
  fold (write_cmd this key value).
  destruct (desktop spawn_result (SpawnCommandLineSync (write_cmd this key value)) w)
    as [[| success stdout] w'];
    cbv [try_catch bind ret throw _logError call pbind run result world trace fst snd desktop];
    exact H.
Qed.

Lemma wp_executeCommand_any (cmd : string) (this : Ext) (w : Desktop)
    (Q : res unit -> Ext -> Desktop -> Prop) :
  Q (Ok tt) this (command_world cmd w) ->
  wp desktop (_executeCommand cmd) this w Q.
Proof.
  intros H. unfold command_world in H. unfold wp, _executeCommand.
  cbv [try_catch bind shell_parse_argv subprocess_init await_communicate call pbind run fst snd].
  cbv [desktop]. destruct (Shell.parse_argv cmd) as [argv |];
    cbv [try_catch bind ret throw _logError call pbind run result world trace fst snd negb desktop];
    exact H.
Qed.

Lemma save_desktop (m : mode) (this : Ext) (w : Desktop) :
  _interfaceSettings this = Some Interface ->
  wp desktop (save m) this w
    (fun r e w' => r = Ok tt /\ e = this /\ w' = save_world m this w).
Proof.
  intros Hs.
  destruct m; unfold save, _saveCurrentThemeToLightKeys, _saveCurrentThemeToDarkKeys;
    apply wp_try_catch, wp_bind, wp_get_this; rewrite Hs;
    do 4 apply wp_bind, wp_get_string;
    apply wp_bind, wp_getCurrentShellTheme;
    do 4 apply wp_bind, wp_setDconfString;
    apply wp_setDconfString; repeat split.
Qed.

Lemma apply_desktop (m : mode) (this : Ext) (w : Desktop) :
  wired this ->
  wp desktop (apply m) this w
    (fun r e w' => r = Ok tt /\ e = this /\ w' = apply_world m this w).
Proof.
  intros [Hs Hpath].
  assert (Hword : forall key,
            In key ["light-gtk-theme"; "light-shell-theme"; "light-icon-theme";
                    "light-cursor-theme"; "light-accent-color";
                    "dark-gtk-theme"; "dark-shell-theme"; "dark-icon-theme";
                    "dark-cursor-theme"; "dark-accent-color"] ->
            word (_dconfPath this +:+ key) = true).
  { intros key Hin. rewrite Hpath. simpl in Hin.
    repeat (destruct Hin as [<- | Hin]; [reflexivity |]). destruct Hin. }
  destruct m; unfold apply, _applyLightTheme, _applyDarkTheme;
    apply wp_try_catch;
    do 5 (apply wp_bind, wp_getDconfString; [apply Hword; simpl; tauto |]);
    apply wp_bind, (wp_guarded_set Interface _ _ _ _ _ Hs);
    apply wp_bind; rewrite shell_command_if; apply wp_await, wp_executeCommand_any;
    do 2 apply wp_bind, (wp_guarded_set Interface _ _ _ _ _ Hs);
    apply (wp_guarded_set Interface _ _ _ _ _ Hs); repeat split.
Qed.

Lemma handleStyleChange_desktop (this : Ext) (w : Desktop) :
  wired this ->
  wp desktop _handleStyleChange this w
    (fun r e w' =>
       r = Ok tt /\ e = this /\
       w' = if JS.includes (interface w "color-scheme") "dark"
            then apply_world Dark this (save_world Light this w)
            else apply_world Light this (save_world Dark this w)).
Proof.
  intros Hw. assert (Hs := proj1 Hw).
  unfold _handleStyleChange. apply wp_bind, wp_get_this. rewrite Hs.
  apply wp_bind, wp_get_string. simpl store.
  destruct (JS.includes (interface w "color-scheme") "dark").
  - apply wp_bind. generalize (save_desktop Light this w Hs). apply wp_mono.
    intros r e w' (-> & -> & ->). apply (apply_desktop Dark this _ Hw).
  - apply wp_bind. generalize (save_desktop Dark this w Hs). apply wp_mono.
    intros r e w' (-> & -> & ->). apply (apply_desktop Light this _ Hw).
Qed.


(** ** The desktop after a snapshot and after an applier *)

Lemma live_shell_eq (w : Desktop) :
  live_shell w = shell_theme_of (SpawnReturns true (Some (output (dconf w !! user_theme_key)))).
Proof.
  unfold live_shell. change shell_read_cmd with ("dconf read " +:+ user_theme_key).
  rewrite desktop_read by reflexivity. reflexivity.
Qed.

Lemma spawn_world_interface (cmd : string) (w : Desktop) :
  interface (spawn_world cmd w) = interface w.
Proof. unfold spawn_world. simpl. destruct (Shell.parse_argv cmd); reflexivity. Qed.

Lemma spawn_write_frame (this : Ext) (key value : string) (w : Desktop) (k : string) :
  word (_dconfPath this +:+ key) = true ->
  k <> _dconfPath this +:+ key ->
  dconf (spawn_world (write_cmd this key value) w) !! k = dconf w !! k.
Proof.
  intros HK Hk. unfold spawn_world. rewrite write_cmd_eq.
  destruct (desktop_write_frame (_dconfPath this +:+ key) (dq +:+ quoted value +:+ dq) w HK)
    as (db' & -> & Hdb). simpl. apply Hdb, Hk.
Qed.

Lemma spawn_write_plain (this : Ext) (key value : string) (w : Desktop) :
  word (_dconfPath this +:+ key) = true ->
  Dconf.plain value = true ->
  spawn_world (write_cmd this key value) w =
  set_dconf (<[_dconfPath this +:+ key := quoted value]> (dconf w)) w.
Proof.
  intros HK Hv. unfold spawn_world. rewrite write_cmd_eq.
  rewrite desktop_write_plain by assumption. reflexivity.
Qed.

Lemma save_world_interface (m : mode) (this : Ext) (w : Desktop) :
  interface (save_world m this w) = interface w.
Proof. unfold save_world. rewrite !spawn_world_interface. reflexivity. Qed.

Lemma snapshot_word (this : Ext) (m : mode) (a : string) :
  _dconfPath this = themekeeper_path ->
  In a ["-gtk-theme"; "-icon-theme"; "-cursor-theme"; "-accent-color"; "-shell-theme"] ->
  word (_dconfPath this +:+ mode_name m +:+ a) = true.
Proof.
  intros -> Hin. simpl in Hin.
  destruct m; repeat (destruct Hin as [<- | Hin]; [reflexivity |]); destruct Hin.
Qed.

Lemma save_world_frame (m : mode) (this : Ext) (w : Desktop) (k : string) :
  _dconfPath this = themekeeper_path ->
  ~ In k (snapshot_keys m) ->
  dconf (save_world m this w) !! k = dconf w !! k.
Proof.
  intros Hpath Hk. unfold save_world.
  assert (Hne : forall a,
            In a ["-gtk-theme"; "-icon-theme"; "-cursor-theme"; "-accent-color"; "-shell-theme"] ->
            k <> _dconfPath this +:+ mode_name m +:+ a).
  { intros a Ha ->. apply Hk. unfold snapshot_keys. rewrite Hpath.
    apply in_map_iff. exists a. split; [reflexivity | exact Ha]. }
  rewrite !spawn_write_frame
    by first [apply snapshot_word; [exact Hpath | simpl; tauto] | apply Hne; simpl; tauto].
  reflexivity.
Qed.

Lemma plain_or_else_default (v : string) :
  Dconf.plain v = true -> Dconf.plain (JS.or_else v "Default") = true.
Proof. intros H. unfold JS.or_else. destruct (JS.truthy v); [exact H | reflexivity]. Qed.

(** After a snapshot of plain values the five keys of the mode hold them. *)
Lemma save_world_plain (m : mode) (this : Ext) (w : Desktop) :
  _dconfPath this = themekeeper_path ->
  Dconf.plain (interface w "gtk-theme") = true ->
  Dconf.plain (interface w "icon-theme") = true ->
  Dconf.plain (interface w "cursor-theme") = true ->
  Dconf.plain (interface w "accent-color") = true ->
  Dconf.plain (live_shell w) = true ->
  let K := fun a => themekeeper_path +:+ mode_name m +:+ a in
  dconf (save_world m this w) !! K "-gtk-theme" = Some (quoted (interface w "gtk-theme")) /\
  dconf (save_world m this w) !! K "-icon-theme" = Some (quoted (interface w "icon-theme")) /\
  dconf (save_world m this w) !! K "-cursor-theme" = Some (quoted (interface w "cursor-theme")) /\
  dconf (save_world m this w) !! K "-accent-color" = Some (quoted (interface w "accent-color")) /\
  dconf (save_world m this w) !! K "-shell-theme" =
    Some (quoted (JS.or_else (live_shell w) "Default")).
Proof.
  intros Hpath Hg Hi Hc Ha Hsh K. unfold save_world.
  rewrite !spawn_write_plain
    by first [apply snapshot_word; [exact Hpath | simpl; tauto]
             | assumption | apply plain_or_else_default; assumption].
  rewrite Hpath. cbn [dconf set_dconf]. fold (K "-gtk-theme") (K "-icon-theme")
    (K "-cursor-theme") (K "-accent-color") (K "-shell-theme").
  assert (Hne : forall a b, a <> b -> K a <> K b).
  { intros a b Hab HK. apply Hab. unfold K in HK.
    apply append_inv_head in HK. apply append_inv_head in HK. exact HK. }
  repeat split.
  all: repeat first [apply lookup_insert_eq
                    | rewrite lookup_insert_ne by (apply Hne; discriminate)].
Qed.

Lemma dconf_set_if (key : string) (v : option string) (w : Desktop) :
  dconf (set_if key v w) = dconf w.
Proof. unfold set_if. destruct (JS.truthy_opt v); reflexivity. Qed.

Lemma interface_set_if (key : string) (v : option string) (w : Desktop) (k : string) :
  interface (set_if key v w) k =
  if JS.truthy_opt v && String.eqb k key then template v else interface w k.
Proof.
  unfold set_if. destruct (JS.truthy_opt v); [| reflexivity].
  simpl. unfold update. reflexivity.
Qed.

Lemma interface_command_world (cmd : string) (w : Desktop) :
  interface (command_world cmd w) = interface w.
Proof. unfold command_world. destruct (Shell.parse_argv cmd); reflexivity. Qed.

Lemma shell_write_cmd_eq (v : string) :
  shell_write_cmd v = "dconf write " +:+ user_theme_key +:+ " " +:+ dq +:+ quoted v +:+ dq.
Proof.
  unfold shell_write_cmd, quoted. rewrite !append_assoc. reflexivity.
Qed.

Lemma command_world_frame (x : option string) (w : Desktop) (k : string) :
  k <> user_theme_key ->
  dconf (command_world (shell_command x) w) !! k = dconf w !! k.
Proof.
  intros Hk. unfold command_world, shell_command.
  destruct (JS.truthy_opt x && strict_neq "Default" x).
  - rewrite shell_write_cmd_eq.
    destruct (Shell.parse_argv _) as [argv |] eqn:E; [| reflexivity].
    apply parse_write_prefix in E as [tl ->]; [| reflexivity].
    simpl dconf. apply exec_write_frame, Hk.
  - change shell_reset_cmd with ("dconf reset " +:+ user_theme_key).
    rewrite parse_reset_cmd by reflexivity. simpl. apply lookup_delete_ne. congruence.
Qed.

(** An applier leaves every dconf key but the shell-theme key as it was. *)
Lemma apply_world_frame (m : mode) (this : Ext) (w : Desktop) (k : string) :
  k <> user_theme_key ->
  dconf (apply_world m this w) !! k = dconf w !! k.
Proof.
  intros Hk. unfold apply_world.
  rewrite !dconf_set_if, command_world_frame, dconf_set_if by exact Hk. reflexivity.
Qed.

Lemma live_shell_command_world (sh : string) (w : Desktop) :
  Dconf.plain sh = true -> sh <> "" ->
  live_shell (command_world (shell_command (Some sh)) w) =
  if String.eqb sh "Default" then "" else sh.
Proof.
  intros Hp Hne. rewrite live_shell_eq. unfold command_world.
  destruct (String.eqb_spec sh "Default") as [-> | Hd].
  - change (shell_command (Some "Default")) with ("dconf reset " +:+ user_theme_key).
    rewrite parse_reset_cmd by reflexivity. simpl dconf. cbn [Dconf.exec snd].
    rewrite lookup_delete_eq. reflexivity.
  - rewrite shell_command_write, shell_write_cmd_eq by assumption.
    rewrite parse_write_quoted by (reflexivity || apply quoted_dq_chars, Hp).
    simpl dconf. cbn [Dconf.exec]. rewrite accepts_quoted by exact Hp. cbn [snd].
    rewrite lookup_insert_eq. apply shell_theme_of_quoted.
Qed.

Lemma live_shell_set_if (key : string) (v : option string) (w : Desktop) :
  live_shell (set_if key v w) = live_shell w.
Proof. rewrite !live_shell_eq, dconf_set_if. reflexivity. Qed.



(** ** The round trip *)



(** ** Regular expressions *)

Lemma nullable_lang (r : JS.regex) : JS.nullable r = true <-> lang r "".
Proof.
  induction r as [| | c | rs | r1 IH1 r2 IH2 | r1 IH1 r2 IH2 | r IH]; simpl.
  - split; [discriminate | intros H; inversion H].
  - split; [constructor | reflexivity].
  - split; [discriminate | intros H; inversion H].
  - split; [discriminate | intros H; inversion H].
  - rewrite andb_true_iff, IH1, IH2. split.
    + intros [H1 H2]. exact (LSeq _ _ "" "" H1 H2).
    + intros H. inversion H as [| | | ? ? s1 s2 H1 H2 E | | | |]; subst.
      destruct s1; [| discriminate]. destruct s2; [| discriminate]. auto.
  - rewrite orb_true_iff, IH1, IH2. split.
    + intros [H | H]; [apply LAltL | apply LAltR]; exact H.
    + intros H. inversion H; subst; auto.
  - split; [constructor | reflexivity].
Qed.

Lemma star_cons_inv (r : JS.regex) (c : ascii) (s : string) :
  lang (JS.RStar r) (String c s) ->
  exists s1 s2, s = s1 +:+ s2 /\ lang r (String c s1) /\ lang (JS.RStar r) s2.
Proof.
  intros H. remember (JS.RStar r) as r0 eqn:Er. remember (String c s) as s0 eqn:Es.
  revert r c s Er Es.
  induction H as [| | | | | | | r' s1 s2 H1 _ H2 IH2]; intros rr cc ss Er Es; try discriminate.
  injection Er as ->. destruct s1 as [| c1 s1].
  - apply (IH2 rr cc ss eq_refl Es).
  - rewrite append_cons in Es. injection Es as -> <-. exists s1, s2. auto.
Qed.

Lemma deriv_lang (r : JS.regex) (c : ascii) (s : string) :
  lang (JS.deriv c r) s <-> lang r (String c s).
Proof.
  revert s. induction r as [| | d | rs | r1 IH1 r2 IH2 | r1 IH1 r2 IH2 | r IH]; intros s; simpl.
  - split; intros H; inversion H.
  - split; intros H; inversion H.
  - destruct (Ascii.eqb_spec c d) as [-> | Hne]; split; intros H; inversion H; subst.
    + constructor.
    + constructor.
    + congruence.
  - destruct (JS.in_class c rs) eqn:E; split; intros H; inversion H; subst.
    + constructor. exact E.
    + constructor.
    + congruence.
  - assert (Hseq : lang (JS.RSeq (JS.deriv c r1) r2) s ->
                   lang (JS.RSeq r1 r2) (String c s)).
    { intros H. inversion H as [| | | ? ? s1 s2 H1 H2 E | | | |]; subst.
      apply IH1 in H1. exact (LSeq _ _ (String c s1) s2 H1 H2). }
    assert (Hinv : lang (JS.RSeq r1 r2) (String c s) ->
                   lang (JS.RSeq (JS.deriv c r1) r2) s \/
                   (lang r1 "" /\ lang (JS.deriv c r2) s)).
    { intros H. inversion H as [| | | ? ? s1 s2 H1 H2 E0 E | | | |]; subst.
      destruct s1 as [| c1 s1].
      - right. split; [exact H1 |]. apply IH2. rewrite append_nil_l in E.
        rewrite <- E. exact H2.
      - rewrite append_cons in E. injection E as -> <-. left.
        apply LSeq; [apply IH1, H1 | exact H2]. }
    destruct (JS.nullable r1) eqn:En.
    + split.
      * intros H. inversion H as [| | | | ? ? ? HL | ? ? ? HR | |]; subst;
          [apply Hseq; assumption |].
        apply nullable_lang in En. apply IH2 in HR.
        exact (LSeq _ _ "" (String c s) En HR).
      * intros H. destruct (Hinv H) as [H' | [_ H']]; [apply LAltL | apply LAltR]; exact H'.
    + split; [exact Hseq |].
      intros H. destruct (Hinv H) as [H' | [H' _]]; [exact H' |].
      apply nullable_lang in H'. congruence.
  - split; intros H; inversion H; subst.
    + apply LAltL, IH1. assumption.
    + apply LAltR, IH2. assumption.
    + apply LAltL, IH1. assumption.
    + apply LAltR, IH2. assumption.
  - split.
    + intros H. inversion H as [| | | ? ? s1 s2 H1 H2 E | | | |]; subst.
      apply IH in H1. exact (LStarCons _ (String c s1) s2 H1 H2).
    + intros H. apply star_cons_inv in H as (s1 & s2 & -> & H1 & H2).
      apply LSeq; [apply IH, H1 | exact H2].
Qed.

Lemma matches_lang (r : JS.regex) (s : string) : JS.matches r s = true <-> lang r s.
Proof.
  revert r. induction s as [| c s IH]; intros r; simpl.
  - apply nullable_lang.
  - rewrite IH. apply deriv_lang.
Qed.

Lemma test_end_suffix (r : JS.regex) (s : string) :
  JS.test_end r s = true <-> exists pre suf, s = pre +:+ suf /\ lang r suf.
Proof.
  induction s as [| c s IH]; simpl.
  - destruct (JS.nullable r) eqn:E.
    + split; [| reflexivity]. intros _. exists "", "". split; [reflexivity |].
      apply nullable_lang, E.
    + split; [discriminate |]. intros (pre & suf & Hs & Hl).
      destruct pre; [| discriminate]. rewrite append_nil_l in Hs. subst suf.
      apply nullable_lang in Hl. congruence.
  - destruct (JS.matches (JS.deriv c r) s) eqn:E.
    + split; [| reflexivity]. intros _. exists "", (String c s). split; [reflexivity |].
      apply (matches_lang r (String c s)). exact E.
    + rewrite IH. split.
      * intros (pre & suf & -> & Hl). exists (String c pre), suf. auto.
      * intros (pre & suf & Hs & Hl). destruct pre as [| c' pre].
        -- rewrite append_nil_l in Hs. subst suf. apply (matches_lang r (String c s)) in Hl.
           simpl in Hl. congruence.
        -- rewrite append_cons in Hs. injection Hs as -> ->. exists pre, suf. auto.
Qed.

Lemma lang_char_seq (c : ascii) (r : JS.regex) (s : string) :
  lang (JS.RSeq (JS.RChar c) r) s <-> exists s', s = String c s' /\ lang r s'.
Proof.
  split.
  - intros H. inversion H as [| | | ? ? s1 s2 H1 H2 E0 E | | | |]; subst.
    inversion H1; subst. exists s2. auto.
  - intros (s' & -> & H). exact (LSeq _ _ (String c "") s' (LChar c) H).
Qed.

Lemma lang_star_class (s : string) : lang (JS.RStar (JS.RClass alnum)) s <-> all_alnum s = true.
Proof.
  split.
  - intros H. remember (JS.RStar (JS.RClass alnum)) as r eqn:Er.
    induction H as [| | | | | | | r' s1 s2 H1 _ H2 IH2]; try discriminate; [reflexivity |].
    injection Er as ->. inversion H1; subst. rewrite append_cons, append_nil_l. simpl.
    rewrite IH2 by reflexivity. rewrite andb_true_r. assumption.
  - induction s as [| c s IH]; simpl; [constructor |].
    intros H. apply andb_prop in H as [Hc Hs].
    exact (LStarCons _ (String c "") s (LClass alnum c Hc) (IH Hs)).
Qed.

Lemma lang_plus_class (s : string) :
  lang (JS.RPlus (JS.RClass alnum)) s <-> s <> "" /\ all_alnum s = true.
Proof.
  unfold JS.RPlus. split.
  - intros H. inversion H as [| | | ? ? s1 s2 H1 H2 E0 E | | | |]; subst.
    inversion H1; subst. rewrite append_cons, append_nil_l. split; [discriminate |].
    simpl. apply lang_star_class in H2. rewrite H2, andb_true_r. assumption.
  - intros [Hne H]. destruct s as [| c s]; [congruence |]. simpl in H.
    apply andb_prop in H as [Hc Hs].
    exact (LSeq _ _ (String c "") s (LClass alnum c Hc) (proj2 (lang_star_class s) Hs)).
Qed.

Lemma lang_variant (v : ascii) (s : string) :
  lang (JS.RSeq (JS.RChar "-") (JS.RSeq (JS.RChar v) (JS.RSeq (JS.RChar ".") (JS.RPlus (JS.RClass alnum))))) s
  <-> exists ext, s = String "-" (String v (String "." ext)) /\ ext <> "" /\ all_alnum ext = true.
Proof.
  rewrite lang_char_seq. split.
  - intros (s1 & -> & H). apply lang_char_seq in H as (s2 & -> & H).
    apply lang_char_seq in H as (ext & -> & H). apply lang_plus_class in H.
    exists ext. auto.
  - intros (ext & -> & H). eexists. split; [reflexivity |].
    apply lang_char_seq. eexists. split; [reflexivity |].
    apply lang_char_seq. eexists. split; [reflexivity |].
    apply lang_plus_class, H.
Qed.

(** The two tests of [_isPairedWallpaper] hold of the names the naming
    convention describes, and of no other. *)
Lemma tests_variant_suffix (f : string) :
  JS.test_end re_light f || JS.test_end re_dark f = true <-> variant_suffix f.
Proof.
  rewrite orb_true_iff, !test_end_suffix. unfold re_light, re_dark, variant_suffix. split.
  - intros [(pre & suf & -> & H) | (pre & suf & -> & H)];
      apply lang_variant in H as (ext & -> & Hne & Hal).
    + exists pre, "l", ext. repeat split; auto.
    + exists pre, "d", ext. repeat split; auto.
  - intros (stem & v & ext & -> & [-> | ->] & Hne & Hal); [left | right];
      exists stem; eexists; (split; [reflexivity |]); apply lang_variant;
      exists ext; repeat split; auto.
Qed.

(** ** Path segments *)

Lemma no_slash_app (a b : string) : no_slash (a +:+ b) = no_slash a && no_slash b.
Proof.
  induction a as [| c a IH]; [reflexivity |].
  rewrite append_cons. simpl. rewrite IH, andb_assoc. reflexivity.
Qed.

Lemma no_slash_dir (dir seg : string) : no_slash (dir +:+ "/" +:+ seg) = false.
Proof. rewrite !no_slash_app. simpl. apply andb_false_r. Qed.

Lemma final_segment_unique (p s s' : string) :
  final_segment p s -> final_segment p s' -> s = s'.
Proof.
  intros [[-> | [d ->]] Hs] [[E | [d' E]] Hs'].
  - exact E.
  - rewrite E, no_slash_dir in Hs. discriminate.
  - rewrite <- E, no_slash_dir in Hs'. discriminate.
  - revert d' E. induction d as [| c d IH]; intros [| c' d'] E.
    + injection E as E. exact E.
    + change (String "/" s = String c' (d' +:+ "/" +:+ s')) in E. injection E as _ E.
      rewrite E, no_slash_dir in Hs. discriminate.
    + change (String c (d +:+ "/" +:+ s) = String "/" s') in E. injection E as _ E.
      rewrite <- E, no_slash_dir in Hs'. discriminate.
    + change (String c (d +:+ "/" +:+ s) = String c' (d' +:+ "/" +:+ s')) in E.
      injection E as _ E. apply (IH d' E).
Qed.

Lemma split_pop (p : string) :
  exists seg, JS.pop (JS.split p "/") = Some seg /\ no_slash seg = true /\
    ((JS.split p "/" = [seg] /\ p = seg) \/
     (exists w ws dir, JS.split p "/" = w :: ws /\ ws <> [] /\ p = dir +:+ "/" +:+ seg)).
Proof.
  induction p as [| c p (seg & Hpop & Hns & Hshape)].
  - exists "". repeat split. left. split; reflexivity.
  - simpl. destruct (Ascii.eqb_spec c "/") as [-> | Hc].
    + exists seg. split; [| split; [exact Hns |]].
      * destruct (JS.split p "/") as [| w ws]; [discriminate | exact Hpop].
      * right. destruct Hshape as [[Hs ->] | (w & ws & dir & Hs & Hws & ->)].
        -- exists "", [seg], "". rewrite Hs. repeat split. discriminate.
        -- exists "", (w :: ws), (String "/" dir). rewrite Hs. repeat split. discriminate.
    + destruct Hshape as [[Hs ->] | (w & ws & dir & Hs & Hws & ->)]; rewrite Hs.
      * exists (String c seg). repeat split.
        -- simpl. rewrite Hns. apply Ascii.eqb_neq in Hc. rewrite Hc. reflexivity.
        -- left. split; reflexivity.
      * exists seg. split; [| split; [exact Hns |]].
        -- rewrite Hs in Hpop. simpl in Hpop |- *. destruct ws; [congruence | exact Hpop].
        -- right. exists (String c w), ws, (String c dir). repeat split. exact Hws.
Qed.

Lemma pop_split_final (p seg : string) :
  JS.or_empty (JS.pop (JS.split p "/")) = seg <-> final_segment p seg.
Proof.
  destruct (split_pop p) as (seg0 & Hpop & Hns & Hshape). rewrite Hpop. simpl.
  assert (H0 : final_segment p seg0).
  { split; [| exact Hns]. destruct Hshape as [[_ ->] | (_ & _ & dir & _ & _ & ->)]; eauto. }
  split.
  - intros <-. exact H0.
  - intros H. exact (final_segment_unique p seg0 seg H0 H).
Qed.

(** ** The classification of a wallpaper *)

Lemma prefix_drop (p u : string) :
  String.prefix p u = true -> u = p +:+ JS.drop (String.length p) u.
Proof.
  revert u. induction p as [| c p IH]; intros u H; [reflexivity |].
  destruct u as [| c' u]; simpl in H; [discriminate |].
  destruct (ascii_dec c c') as [<- | _]; [| discriminate].
  rewrite append_cons. f_equal. apply IH, H.
Qed.

Lemma prefix_append (p rest : string) : String.prefix p (p +:+ rest) = true.
Proof.
  induction p as [| c p IH]; [apply prefix_nil |].
  rewrite append_cons. simpl. destruct (ascii_dec c c); [exact IH | congruence].
Qed.

Lemma replace_prefix (u p r : string) :
  String.prefix p u = true -> JS.replace u p r = r +:+ JS.drop (String.length p) u.
Proof. intros H. destruct u; cbn [JS.replace]; rewrite H; reflexivity. Qed.

Lemma replace_absent (u p r : string) :
  JS.includes u p = false -> JS.replace u p r = u /\ String.prefix p u = false.
Proof.
  induction u as [| c u IH]; cbn [JS.replace JS.includes]; intros H.
  - destruct (String.prefix p ""); [discriminate | split; reflexivity].
  - destruct (String.prefix p (String c u)); [discriminate |].
    split; [| reflexivity]. f_equal. apply IH, H.
Qed.

(** Where the scheme is a prefix, or absent, [replace] strips the prefix. *)
Lemma replace_strips (u : string) :
  JS.startsWith u "file://" = true \/ JS.includes u "file://" = false ->
  JS.replace u "file://" "" = strip_file_prefix u.
Proof.
  unfold strip_file_prefix, JS.startsWith. intros [H | H].
  - rewrite (replace_prefix u "file://" "" H), H. reflexivity.
  - apply (replace_absent u "file://" "") in H as [-> ->]. reflexivity.
Qed.

Lemma isPaired_final (u : string) :
  _isPairedWallpaper (Some u) = true <->
  exists seg, final_segment (JS.replace u "file://" "") seg /\ variant_suffix seg.
Proof.
  unfold _isPairedWallpaper. destruct u as [| c u].
  - split; [discriminate |]. intros (seg & Hf & Hv). exfalso.
    assert (E : "" = seg) by (apply (final_segment_unique "" "" seg); [split; auto | exact Hf]).
    subst seg. apply tests_variant_suffix in Hv. discriminate.
  - cbn [JS.truthy negb]. cbv zeta. rewrite tests_variant_suffix. split.
    + intros H. eexists. split; [| exact H]. apply pop_split_final. reflexivity.
    + intros (seg & Hf & Hv). apply pop_split_final in Hf. rewrite Hf. exact Hv.
Qed.

Lemma isPaired_file_uri (dir name : string) :
  no_slash name = true ->
  _isPairedWallpaper (Some ("file://" +:+ dir +:+ "/" +:+ name)) =
  JS.test_end re_light name || JS.test_end re_dark name.
Proof.
  intros H.
  assert (E : JS.or_empty (JS.pop (JS.split
                (JS.replace ("file://" +:+ dir +:+ "/" +:+ name) "file://" "") "/")) = name).
  { apply pop_split_final. rewrite (replace_prefix _ "file://" "" (prefix_append "file://" _)).
    split; [| exact H]. right. exists dir. reflexivity. }
  unfold _isPairedWallpaper. change (JS.truthy _) with true. cbv zeta. cbn [negb].
  rewrite E. reflexivity.
Qed.

(** C4, as the code has it.  [_isPairedWallpaper uri] is [true] exactly
    when [uri] is a string and the final path segment of what is left of
    it once the first occurrence of [file://] is removed, wherever it
    stands, ends in [-l.<ext>] or [-d.<ext>] with a non-empty alphanumeric
    [<ext>].  For a string that starts with [file://], or that does not
    hold it at all, this is the final path segment of the string without
    its leading scheme.  The value is [true] for [file://.../sunset-l.jpg]
    and [file://.../sunset-d.png], and [false] for [file://.../random.jpg]
    and for [null]. *)
Theorem paired_classification :
  (forall uri : option string,
     _isPairedWallpaper uri = true <->
     exists u seg : string,
       uri = Some u /\ final_segment (JS.replace u "file://" "") seg /\ variant_suffix seg) /\
  (forall u : string,
     JS.startsWith u "file://" = true \/ JS.includes u "file://" = false ->
     (_isPairedWallpaper (Some u) = true <-> paired_spec (Some u))) /\
  (forall dir : string, _isPairedWallpaper (Some ("file://" +:+ dir +:+ "/sunset-l.jpg")) = true) /\
  (forall dir : string, _isPairedWallpaper (Some ("file://" +:+ dir +:+ "/sunset-d.png")) = true) /\
  (forall dir : string, _isPairedWallpaper (Some ("file://" +:+ dir +:+ "/random.jpg")) = false) /\
  _isPairedWallpaper None = false.
Proof.
  split; [| split; [| repeat split]].
  - intros [u |].
    + rewrite isPaired_final. split.
      * intros (seg & H). exists u, seg. split; [reflexivity | exact H].
      * intros (u' & seg & E & H). injection E as <-. exists seg. exact H.
    + split; [discriminate |]. intros (u & seg & E & _). discriminate.
  - intros u Hu. rewrite isPaired_final, (replace_strips u Hu). unfold paired_spec. split.
    + intros (seg & H). exists u, seg. split; [reflexivity | exact H].
    + intros (u' & seg & E & H). injection E as <-. exists seg. exact H.
  - intros dir. exact (isPaired_file_uri dir "sunset-l.jpg" eq_refl).
  - intros dir. exact (isPaired_file_uri dir "sunset-d.png" eq_refl).
  - intros dir. exact (isPaired_file_uri dir "random.jpg" eq_refl).
Qed.

(** The first occurrence of [file://] is removed even where it is not a
    prefix: [a-file://l.jpg] has the final segment [l.jpg], which is no
    variant, and is classified as paired. *)
Lemma paired_classification_counterexample :
  _isPairedWallpaper (Some "a-file://l.jpg") = true /\
  ~ paired_spec (Some "a-file://l.jpg").
Proof.
  split; [reflexivity |]. intros (u & seg & E & Hf & Hv). injection E as <-.
  assert (E : "l.jpg" = seg).
  { apply (final_segment_unique "a-file://l.jpg" "l.jpg" seg); [| exact Hf].
    split; [| reflexivity]. right. exists "a-file:/". reflexivity. }
  subst seg. apply tests_variant_suffix in Hv. discriminate.
Qed.

(** ** The wallpaper handler *)

Lemma isPaired_spec (u : string) :
  JS.startsWith u "file://" = true \/ JS.includes u "file://" = false ->
  _isPairedWallpaper (Some u) = true <-> paired_spec (Some u).
Proof.
  intros Hu. rewrite isPaired_final, (replace_strips u Hu). unfold paired_spec. split.
  - intros (seg & H). exists u, seg. split; [reflexivity | exact H].
  - intros (u' & seg & E & H). injection E as <-. exists seg. exact H.
Qed.

Lemma renamed_not_paired : ~ paired_spec (Some "a-file://l.jpg").
Proof.
  intros (u & seg & E & Hf & Hv). injection E as <-.
  assert (E : "l.jpg" = seg).
  { apply (final_segment_unique "a-file://l.jpg" "l.jpg" seg); [| exact Hf].
    split; [| reflexivity]. right. exists "a-file:/". reflexivity. }
  subst seg. apply tests_variant_suffix in Hv. discriminate.
Qed.

(** C1, as the code has it.  Whatever the environment answers, with both
    settings objects open and both slots of the memory filled (as
    [_initMonitoring] leaves them), the handler reads the new value of
    the changed key and the colour scheme, and then: for a value that
    [_isPairedWallpaper] classifies as paired, stores it in the slot of
    the changed key and writes nothing; for another value of the light
    key under a dark scheme, or of the dark key under a light scheme,
    writes the memorized value of that slot back to the changed key and
    leaves the memory as it was; otherwise stores the value in the slot
    of the changed key and writes nothing.  For a new value that starts
    with [file://] or does not hold it, the values classified as paired
    are those the specification calls paired. *)
Theorem wallpaper_change_postcondition :
  forall (W : Type) (h : env W) (w : W) (this : Ext) (bg ifc : schema)
         (changedKey a b : string),
    changedKey = "picture-uri" \/ changedKey = "picture-uri-dark" ->
    _settings this = Some bg ->
    _interfaceSettings this = Some ifc ->
    _storedWallpapers this = {| light := Some a; dark := Some b |} ->
    exists newValue colorScheme : string,
      let r := run h (_handleWallpaperChange changedKey this) w in
      let isDark := JS.includes colorScheme "dark" in
      let reads := [Obs (GetString bg changedKey) newValue;
                    Obs (GetString ifc "color-scheme") colorScheme] in
      let accepted :=
        if String.eqb changedKey "picture-uri"
        then set_storedWallpapers {| light := Some newValue; dark := Some b |} this
        else set_storedWallpapers {| light := Some a; dark := Some newValue |} this in
      let memorized := if String.eqb changedKey "picture-uri" then a else b in
      let stored_unwritten := trace r = reads /\ result r = (Ok tt, accepted) in
      let written_back :=
        trace r = reads ++ [Obs (SetString bg changedKey memorized) tt] /\
        result r = (Ok tt, this) in
      let other_mode :=
        (String.eqb changedKey "picture-uri" && isDark)
        || (String.eqb changedKey "picture-uri-dark" && negb isDark) in
      (if _isPairedWallpaper (Some newValue) then stored_unwritten
       else if other_mode then written_back
       else stored_unwritten) /\
      (JS.startsWith newValue "file://" = true \/ JS.includes newValue "file://" = false ->
       (paired_spec (Some newValue) -> stored_unwritten) /\
       (~ paired_spec (Some newValue) ->
        if other_mode then written_back else stored_unwritten)).
Proof.
  intros W h w this bg ifc changedKey a b Hkey Hbg Hifc Hmem.
  exists (fst (h _ (GetString bg changedKey) w)).
  exists (fst (h _ (GetString ifc "color-scheme") (snd (h _ (GetString bg changedKey) w)))).
  cbv zeta.
  set (newValue := fst (h _ (GetString bg changedKey) w)).
  set (w1 := snd (h _ (GetString bg changedKey) w)).
  set (colorScheme := fst (h _ (GetString ifc "color-scheme") w1)).
  match goal with |- ?P /\ _ => assert (Hcode : P) end.
  { unfold _handleWallpaperChange, bind, get_this. cbn [pbind fst snd].
    rewrite Hbg, Hifc. cbn [get_string call pbind fst snd run].
    fold newValue w1 colorScheme.
    set (w2 := snd (h _ (GetString ifc "color-scheme") w1)).
    destruct (_isPairedWallpaper (Some newValue)).
    - destruct Hkey as [-> | ->]; cbn; unfold set_stored_light, set_stored_dark;
        rewrite Hmem; split; reflexivity.
    - destruct (JS.includes colorScheme "dark"), Hkey as [-> | ->]; cbn;
        unfold set_stored_light, set_stored_dark; rewrite ?Hmem; cbn.
      all: try (split; reflexivity).
      all: destruct (h _ (SetString bg _ _) w2) as [[] w3]; split; reflexivity. }
  split; [exact Hcode |].
  intros Hu. pose proof (isPaired_spec newValue Hu) as Hiff.
  destruct (_isPairedWallpaper (Some newValue)).
  - split; [intros _; exact Hcode |].
    intros Hn. exfalso. apply Hn, Hiff. reflexivity.
  - split; [| intros _; exact Hcode].
    intros Hp. apply Hiff in Hp. discriminate.
Qed.

Lemma wallpaper_change_postcondition_witness :
  ("picture-uri" = "picture-uri" \/ "picture-uri" = "picture-uri-dark") /\
  _settings opened = Some Background /\
  _interfaceSettings opened = Some Interface /\
  _storedWallpapers opened =
    {| light := Some "file:///usr/share/backgrounds/sunset-l.jpg";
       dark := Some "file:///usr/share/backgrounds/sunset-d.png" |} /\
  exists newValue colorScheme : string,
    let r := run desktop (_handleWallpaperChange "picture-uri" opened) overwritten in
    let isDark := JS.includes colorScheme "dark" in
    let reads := [Obs (GetString Background "picture-uri") newValue;
                  Obs (GetString Interface "color-scheme") colorScheme] in
    let accepted :=
      if String.eqb "picture-uri" "picture-uri"
      then set_storedWallpapers
             {| light := Some newValue;
                dark := Some "file:///usr/share/backgrounds/sunset-d.png" |} opened
      else set_storedWallpapers
             {| light := Some "file:///usr/share/backgrounds/sunset-l.jpg";
                dark := Some newValue |} opened in
    let memorized :=
      if String.eqb "picture-uri" "picture-uri"
      then "file:///usr/share/backgrounds/sunset-l.jpg"
      else "file:///usr/share/backgrounds/sunset-d.png" in
    let stored_unwritten := trace r = reads /\ result r = (Ok tt, accepted) in
    let written_back :=
      trace r = reads ++ [Obs (SetString Background "picture-uri" memorized) tt] /\
      result r = (Ok tt, opened) in
    let other_mode :=
      (String.eqb "picture-uri" "picture-uri" && isDark)
      || (String.eqb "picture-uri" "picture-uri-dark" && negb isDark) in
    (if _isPairedWallpaper (Some newValue) then stored_unwritten
     else if other_mode then written_back
     else stored_unwritten) /\
    (JS.startsWith newValue "file://" = true \/ JS.includes newValue "file://" = false ->
     (paired_spec (Some newValue) -> stored_unwritten) /\
     (~ paired_spec (Some newValue) ->
      if other_mode then written_back else stored_unwritten)).
Proof.
  split; [left; reflexivity |].
  split; [vm_compute; reflexivity |].
  split; [vm_compute; reflexivity |].
  split; [vm_compute; reflexivity |].
  apply (wallpaper_change_postcondition Desktop desktop overwritten opened Background Interface
           "picture-uri" "file:///usr/share/backgrounds/sunset-l.jpg"
           "file:///usr/share/backgrounds/sunset-d.png");
    [left; reflexivity | vm_compute; reflexivity ..].
Defined.

(** C1 as it is worded fails in dark mode for a new value of the light
    key that holds [file://] past its start: [a-file://l.jpg] is not
    paired, its final segment being [l.jpg], yet the handler stores it in
    the memory and writes nothing back. *)
Lemma wallpaper_change_postcondition_counterexample :
  background renamed "picture-uri" = "a-file://l.jpg" /\
  ~ paired_spec (Some "a-file://l.jpg") /\
  JS.includes (interface renamed "color-scheme") "dark" = true /\
  live_writes (trace (on_desktop (_handleWallpaperChange "picture-uri") opened renamed)) = [] /\
  light (_storedWallpapers opened) = Some "file:///usr/share/backgrounds/sunset-l.jpg" /\
  light (_storedWallpapers
           (snd (result (on_desktop (_handleWallpaperChange "picture-uri") opened renamed)))) =
    Some "a-file://l.jpg".
Proof.
  split; [reflexivity |]. split; [exact renamed_not_paired |].
  repeat split; vm_compute; reflexivity.
Qed.

(** ** The statements at work on the sample desktop *)

(** C6 on the desktop with the automatic mode switched off. *)
Lemma automatic_mode_gating_witness :
  fst (result (run desktop (_getAutomaticMode opened) manual)) = Ok false /\
  live_writes (trace (run desktop (_handleNightLightChange (JBool true) opened) manual)) = [].
Proof.
  split; [vm_compute; reflexivity |].
  apply (automatic_mode_gating Desktop desktop manual opened (JBool true)).
  vm_compute; reflexivity.
Defined.

(** C7 on the sample desktop, where the automatic mode has never been
    read. *)
Lemma automatic_mode_first_read_witness :
  _dconfPath constructor = themekeeper_path /\
  dconf desk !! (themekeeper_path +:+ "automatic-mode") = None /\
  let r := on_desktop _getAutomaticMode constructor desk in
  let again := fun w' => world (on_desktop _getAutomaticMode constructor w') in
  fst (result r) = Ok true /\
  dconf (world r) !! (themekeeper_path +:+ "automatic-mode") = Some "true" /\
  forall n : nat,
    fst (result (on_desktop _getAutomaticMode constructor (Nat.iter n again (world r)))) = Ok true.
Proof.
  split; [reflexivity |].
  split; [vm_compute; reflexivity |].
  apply (automatic_mode_first_read desk constructor); [reflexivity | vm_compute; reflexivity].
Defined.





(** C9 as it is worded fails on the running desktop: after [disable] both
    slots of the stored wallpapers hold what [enable] put there, not the
    [null] of the constructor. *)
Lemma disable_postcondition_counterexample :
  _storedWallpapers constructor = {| light := None; dark := None |} /\
  _storedWallpapers (snd (result (on_desktop disable opened running))) =
    {| light := Some "file:///usr/share/backgrounds/sunset-l.jpg";
       dark := Some "file:///usr/share/backgrounds/sunset-d.png" |}.
Proof. split; vm_compute; reflexivity. Qed.

(** * Further properties *)

(** ** The dconf accessors in any environment *)

Lemma wp_result {W A : Type} (h : env W) (m : M A) (this : Ext) (w : W) (a : res A) (e0 : Ext) :
  wp h m this w (fun r e _ => r = a /\ e = e0) -> result (run h (m this) w) = (a, e0).
Proof.
  unfold wp. destruct (result (run h (m this) w)) as [r e]. simpl. intros [-> ->]. reflexivity.
Qed.

Ltac run_spawn h w :=
  unfold after_spawn, answer, read_cmd, write_cmd, write_bool_cmd, shell_read_cmd;
  cbv [try_catch bind get_this spawn_command_line_sync call pbind run fst snd];
  destruct (h spawn_result (SpawnCommandLineSync _) w) as [[| [] [stdout |]] w1];
  cbv [try_catch bind ret throw _logError call pbind run result world trace fst snd spawn_trace];
  try (destruct (h unit (LogError GLibError) w1) as [[] w2]; cbv [fst snd]).

Lemma run_getDconfString {W : Type} (h : env W) (key : string) (d : option string)
    (this : Ext) (w : W) :
  run h (_getDconfString key d this) w =
  ((Ok (dconf_string_of (answer h (read_cmd this key) w) d), this),
   after_spawn h (read_cmd this key) w,
   spawn_trace (read_cmd this key) (answer h (read_cmd this key) w)).
Proof.
  unfold _getDconfString. run_spawn h w;
    try reflexivity.
  unfold dconf_string_of, unquote. destruct (String.eqb (JS.trim stdout) ""); [reflexivity |].
  destruct (JS.startsWith _ "'" && JS.endsWith _ "'"); reflexivity.
Qed.

Lemma run_getDconfBoolean {W : Type} (h : env W) (key : string) (d : option bool)
    (this : Ext) (w : W) :
  run h (_getDconfBoolean key d this) w =
  ((Ok (dconf_boolean_of (answer h (read_cmd this key) w) d), this),
   after_spawn h (read_cmd this key) w,
   spawn_trace (read_cmd this key) (answer h (read_cmd this key) w)).
Proof.
  unfold _getDconfBoolean. run_spawn h w;
    try reflexivity.
  unfold dconf_boolean_of. destruct (String.eqb (JS.trim stdout) ""); reflexivity.
Qed.

Lemma run_getCurrentShellTheme {W : Type} (h : env W) (this : Ext) (w : W) :
  run h (_getCurrentShellTheme this) w =
  ((Ok (shell_theme_of (answer h shell_read_cmd w)), this),
   after_spawn h shell_read_cmd w,
   spawn_trace shell_read_cmd (answer h shell_read_cmd w)).
Proof.
  unfold _getCurrentShellTheme. run_spawn h w;
    try reflexivity.
  unfold shell_theme_of, unquote. destruct (String.eqb (JS.trim stdout) ""); [reflexivity |].
  destruct (JS.startsWith _ "'" && JS.endsWith _ "'"); reflexivity.
Qed.

Lemma run_setDconfString {W : Type} (h : env W) (key value : string) (this : Ext) (w : W) :
  run h (_setDconfString key value this) w =
  ((Ok tt, this), after_spawn h (write_cmd this key value) w,
   spawn_trace (write_cmd this key value) (answer h (write_cmd this key value) w)).
Proof.
  unfold _setDconfString. run_spawn h w; reflexivity.
Qed.

Lemma run_setDconfBoolean {W : Type} (h : env W) (key : string) (value : bool)
    (this : Ext) (w : W) :
  run h (_setDconfBoolean key value this) w =
  ((Ok tt, this), after_spawn h (write_bool_cmd this key value) w,
   spawn_trace (write_bool_cmd this key value) (answer h (write_bool_cmd this key value) w)).
Proof.
  unfold _setDconfBoolean. run_spawn h w; reflexivity.
Qed.

(** X1.  Whatever the environment answers, each of the five dconf
    accessors spawns its one command line, logs the error when the spawn
    throws, makes no other call, and ends normally with the instance as it
    was: an error of the spawn is never thrown further. *)
Theorem dconf_access_never_throws :
  forall (W : Type) (h : env W) (w : W) (this : Ext) (key value : string) (b : bool)
         (ds : option string) (db : option bool),
    one_guarded_spawn h (_getDconfString key ds) this w (read_cmd this key) /\
    one_guarded_spawn h (_getDconfBoolean key db) this w (read_cmd this key) /\
    one_guarded_spawn h _getCurrentShellTheme this w shell_read_cmd /\
    one_guarded_spawn h (_setDconfString key value) this w (write_cmd this key value) /\
    one_guarded_spawn h (_setDconfBoolean key b) this w (write_bool_cmd this key b).
Proof.
  intros. unfold one_guarded_spawn.
  rewrite run_getDconfString, run_getDconfBoolean, run_getCurrentShellTheme,
    run_setDconfString, run_setDconfBoolean.
  repeat split; eexists; reflexivity.
Qed.

(** X2.  Whatever the environment, when the answer to the read holds no
    value (the spawn throws, reports a failure, gives no output, or gives
    white space only), [_getDconfString] and [_getDconfBoolean] return
    the default they were given. *)
Theorem dconf_read_without_value :
  forall (W : Type) (h : env W) (w : W) (this : Ext) (key : string)
         (ds : option string) (db : option bool),
    no_value (answer h (read_cmd this key) w) = true ->
    result (run h (_getDconfString key ds this) w) = (Ok ds, this) /\
    result (run h (_getDconfBoolean key db this) w) = (Ok db, this).
Proof.
  intros W h w this key ds db H.
  rewrite run_getDconfString, run_getDconfBoolean. unfold result. simpl.
  destruct (answer h (read_cmd this key) w) as [| [] [stdout |]]; try (split; reflexivity).
  simpl in H. unfold dconf_string_of, dconf_boolean_of. rewrite H. split; reflexivity.
Qed.

Lemma dconf_read_without_value_witness :
  no_value (answer desktop (read_cmd constructor "automatic-mode") desk) = true /\
  result (run desktop (_getDconfString "automatic-mode" (Some "unset") constructor) desk) =
    (Ok (Some "unset"), constructor) /\
  result (run desktop (_getDconfBoolean "automatic-mode" (Some false) constructor) desk) =
    (Ok (Some false), constructor).
Proof.
  split; [vm_compute; reflexivity |].
  apply (dconf_read_without_value Desktop desktop desk constructor "automatic-mode"
           (Some "unset") (Some false)).
  vm_compute; reflexivity.
Defined.

(** X3.  Whatever the environment answers, [_getAutomaticMode] ends
    normally, leaves the instance and writes no live setting.  When the
    read holds no value it returns [true] after spawning the write of
    [true]; otherwise it returns whether the trimmed output is the text
    [true], so any other text counts as [false], and it spawns nothing
    more. *)
Theorem automatic_mode_for_every_answer :
  forall (W : Type) (h : env W) (w : W) (this : Ext),
    let ans := answer h (read_cmd this "automatic-mode") w in
    let r := run h (_getAutomaticMode this) w in
    snd (result r) = this /\
    live_writes (trace r) = [] /\
    if no_value ans then
      fst (result r) = Ok true /\
      spawned (trace r) =
        [read_cmd this "automatic-mode"; write_bool_cmd this "automatic-mode" true]
    else
      exists stdout,
        ans = SpawnReturns true (Some stdout) /\
        fst (result r) = Ok (String.eqb (JS.trim stdout) "true") /\
        spawned (trace r) = [read_cmd this "automatic-mode"].
Proof.
  intros W h w this. cbv zeta. unfold _getAutomaticMode.
  rewrite run_bind, run_getDconfBoolean. unfold result, world, trace. cbn [fst snd].
  destruct (dconf_boolean_of (answer h (read_cmd this "automatic-mode") w) None) as [b |] eqn:E.
  - cbn [ret run fst snd]. rewrite app_nil_r, live_writes_spawn_trace, spawned_spawn_trace.
    split; [reflexivity |]. split; [reflexivity |].
    destruct (answer h (read_cmd this "automatic-mode") w) as [| [] [stdout |]];
      try discriminate E. simpl in E |- *.
    destruct (String.eqb (JS.trim stdout) ""); [discriminate |].
    injection E as <-. exists stdout. repeat split.
  - rewrite run_bind, run_setDconfBoolean. unfold result, world, trace. cbn [ret run fst snd].
    rewrite app_nil_r, live_writes_app, spawned_app, !live_writes_spawn_trace,
      !spawned_spawn_trace.
    split; [reflexivity |]. split; [reflexivity |].
    destruct (answer h (read_cmd this "automatic-mode") w) as [| [] [stdout |]];
      try (split; reflexivity). simpl in E |- *.
    destruct (String.eqb (JS.trim stdout) ""); [split; reflexivity | discriminate].
Qed.

(** ** Write and read on the desktop *)

Lemma after_spawn_desktop (cmd : string) (w : Desktop) :
  after_spawn desktop cmd w = spawn_world cmd w.
Proof.
  unfold after_spawn, answer, spawn_world. simpl.
  destruct (Shell.parse_argv cmd); reflexivity.
Qed.

Lemma answer_read (this : Ext) (key : string) (w : Desktop) :
  word (_dconfPath this +:+ key) = true ->
  answer desktop (read_cmd this key) w =
    SpawnReturns true (Some (output (dconf w !! (_dconfPath this +:+ key)))) /\
  spawn_world (read_cmd this key) w = w.
Proof.
  intros HK. unfold answer, spawn_world, read_cmd.
  change ("dconf read " +:+ _dconfPath this +:+ key)
    with ("dconf read " +:+ (_dconfPath this +:+ key)).
  rewrite desktop_read by exact HK. split; reflexivity.
Qed.

Lemma spawn_write_bool (this : Ext) (key : string) (b : bool) (w : Desktop) :
  word (_dconfPath this +:+ key) = true ->
  spawn_world (write_bool_cmd this key b) w =
  set_dconf (<[_dconfPath this +:+ key := if b then "true" else "false"]> (dconf w)) w.
Proof.
  intros HK. unfold spawn_world, write_bool_cmd.
  rewrite <- (append_assoc (_dconfPath this) key).
  cbn [desktop]. unfold Shell.parse_argv. rewrite tokenize_write_prefix by exact HK.
  destruct b; reflexivity.
Qed.

(** X4.  On the desktop, for a key whose path is one bare word of the
    command line and a value of plain characters (the empty string too):
    [_getDconfString] after [_setDconfString] returns the value written,
    whatever the default. *)
Theorem dconf_string_round_trip :
  forall (w : Desktop) (this : Ext) (key value : string) (d : option string),
    word (_dconfPath this +:+ key) = true ->
    Dconf.plain value = true ->
    result (on_desktop (_setDconfString key value ;;; _getDconfString key d) this w) =
      (Ok (Some value), this).
Proof.
  intros w this key value d HK Hv. apply wp_result.
  apply wp_bind, wp_setDconfString, wp_getDconfString; [exact HK |].
  rewrite spawn_write_plain by assumption. simpl dconf.
  rewrite lookup_insert_eq, dconf_string_of_quoted. split; reflexivity.
Qed.

Lemma dconf_string_round_trip_witness :
  word (_dconfPath constructor +:+ "light-gtk-theme") = true /\
  Dconf.plain "Adwaita" = true /\
  result (on_desktop (_setDconfString "light-gtk-theme" "Adwaita" ;;;
                      _getDconfString "light-gtk-theme" None) constructor desk) =
    (Ok (Some "Adwaita"), constructor).
Proof.
  split; [reflexivity |]. split; [reflexivity |].
  apply (dconf_string_round_trip desk constructor "light-gtk-theme" "Adwaita" None);
    reflexivity.
Defined.

(** X5.  On the desktop, for a key whose path is one bare word of the
    command line: [_getDconfBoolean] after [_setDconfBoolean] returns the
    boolean written, whatever the default. *)
Theorem dconf_boolean_round_trip :
  forall (w : Desktop) (this : Ext) (key : string) (b : bool) (d : option bool),
    word (_dconfPath this +:+ key) = true ->
    result (on_desktop (_setDconfBoolean key b ;;; _getDconfBoolean key d) this w) =
      (Ok (Some b), this).
Proof.
  intros w this key b d HK. unfold on_desktop.
  rewrite run_bind, run_setDconfBoolean. unfold result, world, trace. cbn [fst snd].
  rewrite run_getDconfBoolean. cbn [fst snd].
  rewrite after_spawn_desktop, spawn_write_bool by exact HK.
  destruct (answer_read this key
              (set_dconf (<[_dconfPath this +:+ key := if b then "true" else "false"]> (dconf w)) w)
              HK) as [-> _].
  simpl dconf. rewrite lookup_insert_eq. destruct b; reflexivity.
Qed.

Lemma dconf_boolean_round_trip_witness :
  word (_dconfPath constructor +:+ "automatic-mode") = true /\
  result (on_desktop (_setDconfBoolean "automatic-mode" false ;;;
                      _getDconfBoolean "automatic-mode" None) constructor desk) =
    (Ok (Some false), constructor).
Proof.
  split; [reflexivity |].
  apply (dconf_boolean_round_trip desk constructor "automatic-mode" false None); reflexivity.
Defined.

(** ** The external command *)

Lemma command_world_write (v : string) (w : Desktop) :
  Dconf.plain v = true ->
  command_world (shell_write_cmd v) w = set_dconf (<[user_theme_key := quoted v]> (dconf w)) w.
Proof.
  intros Hv. unfold command_world. rewrite shell_write_cmd_eq.
  rewrite parse_write_quoted by (reflexivity || apply quoted_dq_chars, Hv).
  cbn [Dconf.exec]. rewrite accepts_quoted by exact Hv. reflexivity.
Qed.

Lemma command_world_reset (w : Desktop) :
  command_world shell_reset_cmd w = set_dconf (delete user_theme_key (dconf w)) w.
Proof.
  unfold command_world. change shell_reset_cmd with ("dconf reset " +:+ user_theme_key).
  rewrite parse_reset_cmd by reflexivity. reflexivity.
Qed.

(** X6.  On the desktop, for a theme name of plain characters: after
    [_executeCommand] has run the write of the shell theme to its end,
    [_getCurrentShellTheme] returns that name. *)
Theorem shell_theme_write_then_read :
  forall (w : Desktop) (this : Ext) (v : string),
    Dconf.plain v = true ->
    result (on_desktop (_executeCommand (shell_write_cmd v) ;;; _getCurrentShellTheme) this w) =
      (Ok v, this).
Proof.
  intros w this v Hv. apply wp_result.
  apply wp_bind, wp_executeCommand_any, wp_getCurrentShellTheme.
  rewrite live_shell_eq, command_world_write by exact Hv. simpl dconf.
  rewrite lookup_insert_eq, shell_theme_of_quoted. split; reflexivity.
Qed.

Lemma shell_theme_write_then_read_witness :
  Dconf.plain "Yaru-dark" = true /\
  result (on_desktop (_executeCommand (shell_write_cmd "Yaru-dark") ;;; _getCurrentShellTheme)
            opened running) = (Ok "Yaru-dark", opened).
Proof.
  split; [reflexivity |].
  apply (shell_theme_write_then_read running opened "Yaru-dark"). reflexivity.
Defined.

(** X7.  On the desktop: after [_executeCommand] has run the reset of
    the shell theme to its end, [_getCurrentShellTheme] returns the empty
    string, whatever the theme was. *)
Theorem shell_theme_reset_then_read :
  forall (w : Desktop) (this : Ext),
    result (on_desktop (_executeCommand shell_reset_cmd ;;; _getCurrentShellTheme) this w) =
      (Ok "", this).
Proof.
  intros w this. apply wp_result.
  apply wp_bind, wp_executeCommand_any, wp_getCurrentShellTheme.
  rewrite live_shell_eq, command_world_reset. simpl dconf.
  rewrite lookup_delete_eq. split; reflexivity.
Qed.

(** X8.  Whatever the environment answers, [_executeCommand] ends
    normally: it gives the command line to the parser once, spawns
    nothing, writes no live setting and logs at most one error.  When the
    parser throws, the error is logged and no subprocess is started; when
    the parser reports a failure, nothing more is done, and nothing is
    logged. *)
Theorem executeCommand_never_throws :
  forall (W : Type) (h : env W) (w : W) (this : Ext) (cmd : string),
    let r := run h (_executeCommand cmd this) w in
    let pa := fst (h _ (ShellParseArgv cmd) w) in
    fst (result r) = Ok tt /\
    commands (trace r) = [cmd] /\
    spawned (trace r) = [] /\
    live_writes (trace r) = [] /\
    length (logged (trace r)) <= 1 /\
    match pa with
    | ParseThrows =>
        trace r = [Obs (ShellParseArgv cmd) pa; Obs (LogError GLibError) tt] /\
        snd (result r) = this
    | ParseReturns false _ =>
        trace r = [Obs (ShellParseArgv cmd) pa] /\ snd (result r) = this
    | ParseReturns true argv =>
        exists started t,
          trace r = Obs (ShellParseArgv cmd) pa :: Obs (SubprocessInit argv) started :: t
    end.
Proof.
  intros W h w this cmd. cbv zeta. unfold _executeCommand.
  cbv [try_catch bind shell_parse_argv subprocess_init await_communicate call pbind run fst snd].
  destruct (h parse_result (ShellParseArgv cmd) w) as [[| [] argv] w1];
    cbv [try_catch bind ret throw _logError call pbind run result world trace fst snd negb].
  - destruct (h unit (LogError GLibError) w1) as [[] w2]. cbn. repeat split; lia.
  - destruct (h bool (SubprocessInit argv) w1) as [[] w2];
      cbv [try_catch bind ret throw _logError call pbind run result world trace fst snd].
    + destruct (h (Ext * bool)%type (AwaitCommunicate this argv) w2) as [[this1 []] w3];
        cbv [try_catch bind ret throw _logError call pbind run result world trace fst snd].
      * cbn. repeat split; try lia. eexists _, _. reflexivity.
      * destruct (h unit (LogError GLibError) w3) as [[] w4]. cbn.
        repeat split; try lia. eexists _, _. reflexivity.
    + destruct (h unit (LogError GLibError) w2) as [[] w3]. cbn.
      repeat split; try lia. eexists _, _. reflexivity.
  - cbn. repeat split; lia.
Qed.

(** ** The snapshot and the applier on the desktop *)

Lemma world_save (m : mode) (this : Ext) (w : Desktop) :
  _interfaceSettings this = Some Interface ->
  result (on_desktop (save m) this w) = (Ok tt, this) /\
  world (on_desktop (save m) this w) = save_world m this w.
Proof.
  intros Hs. destruct (save_desktop m this w Hs) as (Hr & He & Hw). split; [| exact Hw].
  unfold on_desktop. destruct (result (run desktop (save m this) w)) as [r e].
  simpl in Hr, He. subst. reflexivity.
Qed.

Lemma world_apply (m : mode) (this : Ext) (w : Desktop) :
  wired this ->
  result (on_desktop (apply m) this w) = (Ok tt, this) /\
  world (on_desktop (apply m) this w) = apply_world m this w.
Proof.
  intros Hw. destruct (apply_desktop m this w Hw) as (Hr & He & Hw'). split; [| exact Hw'].
  unfold on_desktop. destruct (result (run desktop (apply m this) w)) as [r e].
  simpl in Hr, He. subst. reflexivity.
Qed.

Lemma read_stored (this : Ext) (key : string) (d : option string) (w : Desktop) :
  word (_dconfPath this +:+ key) = true ->
  fst (result (on_desktop (_getDconfString key d) this w)) =
  Ok (dconf_string_of
        (SpawnReturns true (Some (output (dconf w !! (_dconfPath this +:+ key))))) d).
Proof.
  intros HK. unfold on_desktop. rewrite run_getDconfString.
  destruct (answer_read this key w HK) as [-> _]. reflexivity.
Qed.

Lemma spawn_world_rest (cmd : string) (w : Desktop) :
  background (spawn_world cmd w) = background w /\
  connections (spawn_world cmd w) = connections w /\
  night_light (spawn_world cmd w) = night_light w.
Proof. unfold spawn_world. simpl. destruct (Shell.parse_argv cmd); repeat split. Qed.

Lemma save_world_rest (m : mode) (this : Ext) (w : Desktop) :
  background (save_world m this w) = background w /\
  connections (save_world m this w) = connections w /\
  night_light (save_world m this w) = night_light w.
Proof.
  unfold save_world.
  repeat match goal with
         | |- context [background (spawn_world ?c ?x)] =>
             destruct (spawn_world_rest c x) as (-> & -> & ->)
         end.
  repeat split.
Qed.

Lemma set_if_rest (key : string) (v : option string) (w : Desktop) :
  background (set_if key v w) = background w /\
  connections (set_if key v w) = connections w /\
  night_light (set_if key v w) = night_light w.
Proof. unfold set_if. destruct (JS.truthy_opt v); repeat split. Qed.

Lemma command_world_rest (cmd : string) (w : Desktop) :
  background (command_world cmd w) = background w /\
  connections (command_world cmd w) = connections w /\
  night_light (command_world cmd w) = night_light w.
Proof. unfold command_world. destruct (Shell.parse_argv cmd); repeat split. Qed.

Lemma apply_world_rest (m : mode) (this : Ext) (w : Desktop) :
  background (apply_world m this w) = background w /\
  connections (apply_world m this w) = connections w /\
  night_light (apply_world m this w) = night_light w.
Proof.
  unfold apply_world.
  repeat match goal with
         | |- context [background (set_if ?k ?v ?x)] =>
             destruct (set_if_rest k v x) as (-> & -> & ->)
         | |- context [background (command_world ?c ?x)] =>
             destruct (command_world_rest c x) as (-> & -> & ->)
         end.
  repeat split.
Qed.

(** The interface value of a key after the applier. *)
Lemma interface_apply_world (m : mode) (this : Ext) (w : Desktop) (k : string) :
  interface (apply_world m this w) k =
  if JS.truthy_opt (stored this (mode_name m +:+ "-accent-color") w) && String.eqb k "accent-color"
  then template (stored this (mode_name m +:+ "-accent-color") w)
  else if JS.truthy_opt (stored this (mode_name m +:+ "-cursor-theme") w) && String.eqb k "cursor-theme"
  then template (stored this (mode_name m +:+ "-cursor-theme") w)
  else if JS.truthy_opt (stored this (mode_name m +:+ "-icon-theme") w) && String.eqb k "icon-theme"
  then template (stored this (mode_name m +:+ "-icon-theme") w)
  else if JS.truthy_opt (stored this (mode_name m +:+ "-gtk-theme") w) && String.eqb k "gtk-theme"
  then template (stored this (mode_name m +:+ "-gtk-theme") w)
  else interface w k.
Proof.
  unfold apply_world. rewrite !interface_set_if, interface_command_world, interface_set_if.
  reflexivity.
Qed.














(** X9.  On the desktop, with the instance wired and the five live
    attributes made of plain characters: after a snapshot of the mode
    [m], [_getDconfString] returns the live gtk, icon, cursor and accent
    values under the four keys of [m], and under [<m>-shell-theme] the
    live shell theme, or [Default] when that is empty. *)
Theorem snapshot_read_back :
  forall (w : Desktop) (this : Ext) (m : mode),
    wired this ->
    Dconf.plain (gtk (live_theme w)) = true ->
    Dconf.plain (icon (live_theme w)) = true ->
    Dconf.plain (cursor (live_theme w)) = true ->
    Dconf.plain (accent (live_theme w)) = true ->
    Dconf.plain (shell (live_theme w)) = true ->
    let w' := world (on_desktop (save m) this w) in
    let read := fun a =>
      fst (result (on_desktop (_getDconfString (mode_name m +:+ a) None) this w')) in
    read "-gtk-theme" = Ok (Some (gtk (live_theme w))) /\
    read "-icon-theme" = Ok (Some (icon (live_theme w))) /\
    read "-cursor-theme" = Ok (Some (cursor (live_theme w))) /\
    read "-accent-color" = Ok (Some (accent (live_theme w))) /\
    read "-shell-theme" = Ok (Some (JS.or_else (shell (live_theme w)) "Default")).
Proof.
  intros w this m [Hs Hpath] Pg Pi Pc Pa Psh. cbv zeta.
  destruct (world_save m this w Hs) as [_ ->].
  cbn [live_theme gtk icon cursor accent shell] in *.
  destruct (save_world_plain m this w Hpath Pg Pi Pc Pa Psh) as (S1 & S2 & S3 & S4 & S5).
  rewrite !read_stored by (apply snapshot_word; [exact Hpath | simpl; tauto]).
  rewrite Hpath, S1, S2, S3, S4, S5, !dconf_string_of_quoted. repeat split.
Qed.

Lemma snapshot_read_back_witness :
  wired opened /\
  Dconf.plain (gtk (live_theme running)) = true /\
  Dconf.plain (icon (live_theme running)) = true /\
  Dconf.plain (cursor (live_theme running)) = true /\
  Dconf.plain (accent (live_theme running)) = true /\
  Dconf.plain (shell (live_theme running)) = true /\
  let w' := world (on_desktop (save Light) opened running) in
  let read := fun a =>
    fst (result (on_desktop (_getDconfString (mode_name Light +:+ a) None) opened w')) in
  read "-gtk-theme" = Ok (Some (gtk (live_theme running))) /\
  read "-icon-theme" = Ok (Some (icon (live_theme running))) /\
  read "-cursor-theme" = Ok (Some (cursor (live_theme running))) /\
  read "-accent-color" = Ok (Some (accent (live_theme running))) /\
  read "-shell-theme" = Ok (Some (JS.or_else (shell (live_theme running)) "Default")).
Proof.
  assert (Hw : wired opened) by (split; vm_compute; reflexivity).
  split; [exact Hw |].
  do 5 (split; [vm_compute; reflexivity |]).
  apply (snapshot_read_back running opened Light Hw); vm_compute; reflexivity.
Defined.

(** X10.  On the desktop, with the instance wired: a snapshot of the
    mode [m] ends normally and changes nothing but the five dconf keys of
    [m]: the interface and background settings, the connections and
    every other dconf key (the snapshot of the other mode, the live shell
    theme, the automatic mode) are as they were. *)
Theorem snapshot_frame :
  forall (w : Desktop) (this : Ext) (m : mode),
    wired this ->
    let r := on_desktop (save m) this w in
    result r = (Ok tt, this) /\
    interface (world r) = interface w /\
    background (world r) = background w /\
    connections (world r) = connections w /\
    forall k, ~ In k (snapshot_keys m) -> dconf (world r) !! k = dconf w !! k.
Proof.
  intros w this m [Hs Hpath]. cbv zeta.
  destruct (world_save m this w Hs) as [-> ->].
  destruct (save_world_rest m this w) as (-> & -> & _).
  rewrite save_world_interface. repeat split.
  intros k Hk. apply save_world_frame; assumption.
Qed.

Lemma snapshot_frame_witness :
  wired opened /\
  let r := on_desktop (save Light) opened running in
  result r = (Ok tt, opened) /\
  interface (world r) = interface running /\
  background (world r) = background running /\
  connections (world r) = connections running /\
  forall k, ~ In k (snapshot_keys Light) -> dconf (world r) !! k = dconf running !! k.
Proof.
  assert (Hw : wired opened) by (split; vm_compute; reflexivity).
  split; [exact Hw |]. apply (snapshot_frame running opened Light Hw).
Defined.

Lemma theme_key_cases (a : string) :
  In a ["gtk-theme"; "icon-theme"; "cursor-theme"; "accent-color"] ->
  a = "gtk-theme" \/ a = "icon-theme" \/ a = "cursor-theme" \/ a = "accent-color".
Proof. simpl. intuition. Qed.

(** X11.  On the desktop, with the instance wired: after the applier of
    the mode [m] has run to its end, each of [gtk-theme], [icon-theme],
    [cursor-theme] and [accent-color] holds the value [_getDconfString]
    gave for it when that value is not empty, and is as it was when
    nothing or the empty string is stored; every other interface key, the
    background settings and every dconf key but the shell theme are as
    they were. *)
Theorem applier_restores_what_is_stored :
  forall (w : Desktop) (this : Ext) (m : mode),
    wired this ->
    let r := on_desktop (apply m) this w in
    let stored := fun a =>
      fst (result (on_desktop (_getDconfString (mode_name m +:+ "-" +:+ a) None) this w)) in
    let keys := ["gtk-theme"; "icon-theme"; "cursor-theme"; "accent-color"] in
    result r = (Ok tt, this) /\
    (forall a v, In a keys -> stored a = Ok (Some v) -> v <> "" ->
       interface (world r) a = v) /\
    (forall a, In a keys -> stored a = Ok None \/ stored a = Ok (Some "") ->
       interface (world r) a = interface w a) /\
    (forall k, ~ In k keys -> interface (world r) k = interface w k) /\
    background (world r) = background w /\
    (forall k, k <> user_theme_key -> dconf (world r) !! k = dconf w !! k).
Proof.
  intros w this m Hw. cbv zeta. destruct (world_apply m this w Hw) as [-> ->].
  destruct Hw as [Hs Hpath].
  assert (Hword : forall a, In a ["gtk-theme"; "icon-theme"; "cursor-theme"; "accent-color"] ->
            word (_dconfPath this +:+ mode_name m +:+ "-" +:+ a) = true).
  { intros a Ha. rewrite Hpath.
    destruct (theme_key_cases a Ha) as [-> | [-> | [-> | ->]]]; destruct m; reflexivity. }
  assert (Hst : forall a, In a ["gtk-theme"; "icon-theme"; "cursor-theme"; "accent-color"] ->
            fst (result (on_desktop (_getDconfString (mode_name m +:+ "-" +:+ a) None) this w)) =
            Ok (stored this (mode_name m +:+ "-" +:+ a) w)).
  { intros a Ha. rewrite read_stored by (apply Hword, Ha). reflexivity. }
  split; [reflexivity |]. split; [| split; [| split; [| split]]].
  - intros a v Ha Hv Hne. rewrite (Hst a Ha) in Hv. injection Hv as Hv.
    assert (Ht : JS.truthy v = true) by (destruct v; [congruence | reflexivity]).
    rewrite interface_apply_world.
    destruct (theme_key_cases a Ha) as [-> | [-> | [-> | ->]]];
      change (mode_name m +:+ "-" +:+ _) with (mode_name m +:+ "-gtk-theme") in Hv ||
      change (mode_name m +:+ "-" +:+ _) with (mode_name m +:+ "-icon-theme") in Hv ||
      change (mode_name m +:+ "-" +:+ _) with (mode_name m +:+ "-cursor-theme") in Hv ||
      change (mode_name m +:+ "-" +:+ _) with (mode_name m +:+ "-accent-color") in Hv;
      rewrite Hv; cbn [String.eqb Ascii.eqb Bool.eqb JS.truthy_opt template];
      rewrite ?andb_false_r, Ht; reflexivity.
  - intros a Ha Hv. rewrite (Hst a Ha) in Hv.
    assert (Ht : JS.truthy_opt (stored this (mode_name m +:+ "-" +:+ a) w) = false).
    { destruct Hv as [Hv | Hv]; injection Hv as ->; reflexivity. }
    rewrite interface_apply_world.
    destruct (theme_key_cases a Ha) as [-> | [-> | [-> | ->]]];
      change (mode_name m +:+ "-" +:+ _) with (mode_name m +:+ "-gtk-theme") in Ht ||
      change (mode_name m +:+ "-" +:+ _) with (mode_name m +:+ "-icon-theme") in Ht ||
      change (mode_name m +:+ "-" +:+ _) with (mode_name m +:+ "-cursor-theme") in Ht ||
      change (mode_name m +:+ "-" +:+ _) with (mode_name m +:+ "-accent-color") in Ht;
      rewrite Ht; cbn [String.eqb Ascii.eqb Bool.eqb andb];
      rewrite ?andb_false_r; reflexivity.
  - intros k Hk. rewrite interface_apply_world.
    assert (E : String.eqb k "accent-color" = false /\ String.eqb k "cursor-theme" = false /\
                String.eqb k "icon-theme" = false /\ String.eqb k "gtk-theme" = false).
    { repeat split; apply String.eqb_neq; intros ->; apply Hk; simpl; tauto. }
    destruct E as (-> & -> & -> & ->). rewrite !andb_false_r. reflexivity.
  - apply apply_world_rest.
  - intros k Hk. apply apply_world_frame, Hk.
Qed.

Lemma applier_restores_what_is_stored_witness :
  wired opened /\
  let r := on_desktop (apply Dark) opened running in
  let stored := fun a =>
    fst (result (on_desktop (_getDconfString (mode_name Dark +:+ "-" +:+ a) None) opened running)) in
  let keys := ["gtk-theme"; "icon-theme"; "cursor-theme"; "accent-color"] in
  result r = (Ok tt, opened) /\
  (forall a v, In a keys -> stored a = Ok (Some v) -> v <> "" ->
     interface (world r) a = v) /\
  (forall a, In a keys -> stored a = Ok None \/ stored a = Ok (Some "") ->
     interface (world r) a = interface running a) /\
  (forall k, ~ In k keys -> interface (world r) k = interface running k) /\
  background (world r) = background running /\
  (forall k, k <> user_theme_key -> dconf (world r) !! k = dconf running !! k).
Proof.
  assert (Hw : wired opened) by (split; vm_compute; reflexivity).
  split; [exact Hw |]. apply (applier_restores_what_is_stored running opened Dark Hw).
Defined.

Lemma live_shell_apply_world (m : mode) (this : Ext) (w : Desktop) :
  live_shell (apply_world m this w) =
  live_shell (command_world (shell_command (stored this (mode_name m +:+ "-shell-theme") w)) w).
Proof.
  unfold apply_world. rewrite !live_shell_set_if, !live_shell_eq.
  unfold command_world. destruct (Shell.parse_argv _); simpl dconf; rewrite ?dconf_set_if;
    reflexivity.
Qed.








(** X12.  On the desktop, with the instance wired: after the applier of
    the mode [m] has run to its end, [_getCurrentShellTheme] returns the
    empty string when nothing, the empty string or [Default] is stored
    under [<m>-shell-theme], and the stored name when it is any other
    name of plain characters. *)
Theorem applier_sets_shell_theme :
  forall (w : Desktop) (this : Ext) (m : mode),
    wired this ->
    let stored :=
      fst (result (on_desktop (_getDconfString (mode_name m +:+ "-shell-theme") None) this w)) in
    let after := fst (result (on_desktop (apply m ;;; _getCurrentShellTheme) this w)) in
    (stored = Ok None \/ stored = Ok (Some "") \/ stored = Ok (Some "Default") ->
     after = Ok "") /\
    (forall v, stored = Ok (Some v) -> v <> "" -> v <> "Default" -> Dconf.plain v = true ->
     after = Ok v).
Proof.
  intros w this m Hw. cbv zeta.
  destruct (world_apply m this w Hw) as [Hr Hwd]. destruct Hw as [Hs Hpath].
  rewrite read_stored by (apply snapshot_word; [exact Hpath | simpl; tauto]).
  fold (stored this (mode_name m +:+ "-shell-theme") w).
  unfold on_desktop in *. rewrite run_bind, Hr. cbn [fst snd]. rewrite Hwd.
  rewrite run_getCurrentShellTheme. unfold result. cbn [fst snd].
  change (shell_theme_of (answer desktop shell_read_cmd (apply_world m this w)))
    with (live_shell (apply_world m this w)).
  rewrite live_shell_apply_world.
  split.
  - intros [H | [H | H]]; injection H as ->.
    + change (shell_command None) with shell_reset_cmd.
      rewrite live_shell_eq, command_world_reset. simpl dconf.
      rewrite lookup_delete_eq. reflexivity.
    + change (shell_command (Some "")) with shell_reset_cmd.
      rewrite live_shell_eq, command_world_reset. simpl dconf.
      rewrite lookup_delete_eq. reflexivity.
    + change (shell_command (Some "Default")) with shell_reset_cmd.
      rewrite live_shell_eq, command_world_reset. simpl dconf.
      rewrite lookup_delete_eq. reflexivity.
  - intros v H Hne Hd Hp. injection H as ->.
    rewrite live_shell_command_world by assumption.
    apply String.eqb_neq in Hd. rewrite Hd. reflexivity.
Qed.

Lemma applier_sets_shell_theme_witness :
  wired opened /\
  let stored :=
    fst (result (on_desktop (_getDconfString (mode_name Dark +:+ "-shell-theme") None)
                   opened running)) in
  let after := fst (result (on_desktop (apply Dark ;;; _getCurrentShellTheme) opened running)) in
  (stored = Ok None \/ stored = Ok (Some "") \/ stored = Ok (Some "Default") ->
   after = Ok "") /\
  (forall v, stored = Ok (Some v) -> v <> "" -> v <> "Default" -> Dconf.plain v = true ->
   after = Ok v).
Proof.
  assert (Hw : wired opened) by (split; vm_compute; reflexivity).
  split; [exact Hw |]. apply (applier_sets_shell_theme running opened Dark Hw).
Defined.

Lemma not_in_other_snapshot (m : mode) (k : string) :
  In k (snapshot_keys m) ->
  ~ In k (snapshot_keys match m with Light => Dark | Dark => Light end) /\ k <> user_theme_key.
Proof.
  intros Hin. destruct m; simpl in Hin;
    repeat (destruct Hin as [<- | Hin];
            [split; [simpl; intros H; repeat (destruct H as [H | H]; [discriminate H |]); exact H
                    | discriminate] |]);
    destruct Hin.
Qed.

(** X13.  On the desktop, with the instance wired: the handling of a
    colour-scheme notification ends normally with the instance as it was;
    it leaves the background settings, the connections, every interface
    key but the four theme keys (the colour scheme among them), and the
    five snapshot keys of the mode it enters. *)
Theorem style_change_frame :
  forall (w : Desktop) (this : Ext),
    wired this ->
    let r := on_desktop _handleStyleChange this w in
    let entered := if JS.includes (interface w "color-scheme") "dark" then Dark else Light in
    result r = (Ok tt, this) /\
    background (world r) = background w /\
    connections (world r) = connections w /\
    (forall k, ~ In k ["gtk-theme"; "icon-theme"; "cursor-theme"; "accent-color"] ->
       interface (world r) k = interface w k) /\
    (forall k, In k (snapshot_keys entered) -> dconf (world r) !! k = dconf w !! k).
Proof.
  intros w this Hw. cbv zeta.
  destruct (handleStyleChange_desktop this w Hw) as (Hr & He & Hwd).
  assert (Hres : result (on_desktop _handleStyleChange this w) = (Ok tt, this)).
  { unfold on_desktop. destruct (result (run desktop (_handleStyleChange this) w)) as [r e].
    simpl in Hr, He. subst. reflexivity. }
  unfold on_desktop. rewrite Hwd. split; [exact Hres |]. clear Hr He Hwd Hres.
  assert (Hpath := proj2 Hw).
  assert (Hgoal : forall entered left,
            left = match entered with Light => Dark | Dark => Light end ->
            background (apply_world entered this (save_world left this w)) = background w /\
            connections (apply_world entered this (save_world left this w)) = connections w /\
            (forall k, ~ In k ["gtk-theme"; "icon-theme"; "cursor-theme"; "accent-color"] ->
               interface (apply_world entered this (save_world left this w)) k = interface w k) /\
            (forall k, In k (snapshot_keys entered) ->
               dconf (apply_world entered this (save_world left this w)) !! k = dconf w !! k)).
  { intros entered left ->.
    destruct (apply_world_rest entered this
                (save_world match entered with Light => Dark | Dark => Light end this w))
      as (-> & -> & _).
    destruct (save_world_rest match entered with Light => Dark | Dark => Light end this w)
      as (-> & -> & _).
    repeat split.
    - intros k Hk. rewrite interface_apply_world.
      assert (E : String.eqb k "accent-color" = false /\ String.eqb k "cursor-theme" = false /\
                  String.eqb k "icon-theme" = false /\ String.eqb k "gtk-theme" = false).
      { repeat split; apply String.eqb_neq; intros ->; apply Hk; simpl; tauto. }
      destruct E as (-> & -> & -> & ->). rewrite !andb_false_r, save_world_interface.
      reflexivity.
    - intros k Hk. destruct (not_in_other_snapshot entered k Hk) as [Hn Hu].
      rewrite apply_world_frame by exact Hu. apply save_world_frame; assumption. }
  destruct (JS.includes (interface w "color-scheme") "dark"); apply Hgoal; reflexivity.
Qed.

Lemma style_change_frame_witness :
  wired opened /\
  let r := on_desktop _handleStyleChange opened running in
  let entered :=
    if JS.includes (interface running "color-scheme") "dark" then Dark else Light in
  result r = (Ok tt, opened) /\
  background (world r) = background running /\
  connections (world r) = connections running /\
  (forall k, ~ In k ["gtk-theme"; "icon-theme"; "cursor-theme"; "accent-color"] ->
     interface (world r) k = interface running k) /\
  (forall k, In k (snapshot_keys entered) -> dconf (world r) !! k = dconf running !! k).
Proof.
  assert (Hw : wired opened) by (split; vm_compute; reflexivity).
  split; [exact Hw |]. apply (style_change_frame running opened Hw).
Defined.

(** ** The night-light handler on the desktop *)

Lemma getAutomaticMode_stores (this : Ext) (w : Desktop) :
  let r := run desktop (_getAutomaticMode this) w in
  snd (result r) = this /\
  live_writes (trace r) = [] /\
  interface (world r) = interface w /\
  background (world r) = background w /\
  connections (world r) = connections w /\
  night_light (world r) = night_light w.
Proof.
  cbv zeta. unfold _getAutomaticMode.
  rewrite run_bind, run_getDconfBoolean. unfold result, world, trace. cbn [fst snd].
  rewrite after_spawn_desktop.
  destruct (dconf_boolean_of (answer desktop (read_cmd this "automatic-mode") w) None) as [b |].
  - cbn [ret run fst snd]. rewrite app_nil_r, live_writes_spawn_trace, spawn_world_interface.
    destruct (spawn_world_rest (read_cmd this "automatic-mode") w) as (-> & -> & ->).
    repeat split.
  - rewrite run_bind, run_setDconfBoolean. unfold result, world, trace. cbn [ret run fst snd].
    rewrite app_nil_r, live_writes_app, !live_writes_spawn_trace, after_spawn_desktop,
      !spawn_world_interface.
    destruct (spawn_world_rest (write_bool_cmd this "automatic-mode" true)
                (spawn_world (read_cmd this "automatic-mode") w)) as (-> & -> & ->).
    destruct (spawn_world_rest (read_cmd this "automatic-mode") w) as (-> & -> & ->).
    repeat split.
Qed.

Lemma update_same (f : string -> string) (k v : string) : update f k v k = v.
Proof. unfold update. rewrite String.eqb_refl. reflexivity. Qed.

Lemma update_other (f : string -> string) (k v k' : string) :
  k' <> k -> update f k v k' = f k'.
Proof. intros H. unfold update. apply String.eqb_neq in H. rewrite H. reflexivity. Qed.

Lemma handleNightLightChange_desktop (w : Desktop) (this : Ext) (v : jsbool) (a b : string) :
  _settings this = Some Background ->
  _interfaceSettings this = Some Interface ->
  _storedWallpapers this = {| light := Some a; dark := Some b |} ->
  fst (result (run desktop (_getAutomaticMode this) w)) = Ok true ->
  let r := run desktop (_handleNightLightChange v this) w in
  let on := jsbool_truthy v in
  let key := if on then "picture-uri-dark" else "picture-uri" in
  let memorized := if on then b else a in
  let scheme := if on then "prefer-dark" else "default" in
  let w1 := set_store Interface "color-scheme" scheme
              (world (run desktop (_getAutomaticMode this) w)) in
  result r = (Ok tt, this) /\
  world r = (if String.eqb (background w key) memorized then w1
             else set_store Background key memorized w1) /\
  live_writes (trace r) =
    (Interface, "color-scheme", scheme)
    :: (if String.eqb (background w key) memorized then []
        else [(Background, key, memorized)]).
Proof.
  intros Hbg Hifc Hst Hauto. cbv zeta.
  destruct (getAutomaticMode_stores this w) as (He & Hlw & Hi & Hb & _ & _).
  unfold _handleNightLightChange. rewrite run_bind, Hauto, He. cbn [negb].
  set (w0 := world (run desktop (_getAutomaticMode this) w)) in *.
  cbn [result world trace fst snd]. rewrite live_writes_app, Hlw. cbn [app].
  destruct (jsbool_truthy v);
    repeat (progress (cbv [bind get_this set_string get_string call pbind];
                      cbn [fst snd run desktop store light dark result world trace];
                      rewrite ?Hifc, ?Hbg, ?Hst));
    cbn [set_store background interface]; rewrite Hb; unfold strict_neq, when;
    match goal with |- context [String.eqb ?x ?y] => destruct (String.eqb x y) end;
    cbn [negb ret run desktop fst snd live_writes omap live_write];
    repeat split.
Qed.

(** X14.  On the desktop, with both settings objects open, both stored
    wallpapers set and the automatic mode read as [true]: the night-light
    handler ends normally with the instance as it was; the colour scheme
    is then [prefer-dark] when the state is [true] and [default] when it
    is [false], [null] or [undefined]; the wallpaper key of that mode
    then holds the stored wallpaper, and every other background key is
    as it was. *)
Theorem night_light_change_in_automatic_mode :
  forall (w : Desktop) (this : Ext) (v : jsbool) (a b : string),
    _settings this = Some Background ->
    _interfaceSettings this = Some Interface ->
    _storedWallpapers this = {| light := Some a; dark := Some b |} ->
    fst (result (on_desktop _getAutomaticMode this w)) = Ok true ->
    let r := on_desktop (_handleNightLightChange v) this w in
    let on := jsbool_truthy v in
    let key := if on then "picture-uri-dark" else "picture-uri" in
    let memorized := if on then b else a in
    let scheme := if on then "prefer-dark" else "default" in
    result r = (Ok tt, this) /\
    interface (world r) "color-scheme" = scheme /\
    background (world r) key = memorized /\
    (forall k, k <> key -> background (world r) k = background w k).
Proof.
  intros w this v a b Hbg Hifc Hst Hauto. cbv zeta. unfold on_desktop in *.
  destruct (handleNightLightChange_desktop w this v a b Hbg Hifc Hst Hauto) as (Hr & Hw & _).
  destruct (getAutomaticMode_stores this w) as (_ & _ & Hi & Hb & _ & _).
  rewrite Hr, Hw. clear Hr Hw.
  set (w0 := world (run desktop (_getAutomaticMode this) w)) in *.
  split; [reflexivity |].
  destruct (String.eqb_spec (background w (if jsbool_truthy v then "picture-uri-dark" else "picture-uri"))
              (if jsbool_truthy v then b else a)) as [E | E];
    cbn [set_store background interface]; rewrite ?Hb, ?Hi;
    (split; [apply update_same |]);
    (split; [first [exact E | apply update_same] |]);
    intros k Hk; rewrite ?update_other by exact Hk; reflexivity.
Qed.

Lemma night_light_change_in_automatic_mode_witness :
  _settings opened = Some Background /\
  _interfaceSettings opened = Some Interface /\
  _storedWallpapers opened =
    {| light := Some "file:///usr/share/backgrounds/sunset-l.jpg";
       dark := Some "file:///usr/share/backgrounds/sunset-d.png" |} /\
  fst (result (on_desktop _getAutomaticMode opened running)) = Ok true /\
  let r := on_desktop (_handleNightLightChange (JBool true)) opened running in
  result r = (Ok tt, opened) /\
  interface (world r) "color-scheme" = "prefer-dark" /\
  background (world r) "picture-uri-dark" = "file:///usr/share/backgrounds/sunset-d.png" /\
  (forall k, k <> "picture-uri-dark" -> background (world r) k = background running k).
Proof.
  do 4 (split; [vm_compute; reflexivity |]).
  apply (night_light_change_in_automatic_mode running opened (JBool true)
           "file:///usr/share/backgrounds/sunset-l.jpg"
           "file:///usr/share/backgrounds/sunset-d.png"); vm_compute; reflexivity.
Defined.

(** ** Notifications of the night light *)

Lemma handleNightLightChange_instance (v : jsbool) (this : Ext) :
  spec (_handleNightLightChange v) this (fun _ _ e => e = this).
Proof. unfold _handleNightLightChange. repeat spec_step; reflexivity. Qed.

Lemma jsbool_strict_neq_false (a : jsbool) (b : bool) :
  jsbool_strict_neq a (JBool b) = false <-> a = JBool b.
Proof.
  destruct a as [| | x]; simpl; split; try discriminate.
  - destruct x, b; simpl; intros H; congruence.
  - intros H. injection H as ->. destruct b; reflexivity.
Qed.

Lemma on_properties_changed_state (newState : bool) (this : Ext) :
  spec (on_properties_changed (Some newState)) this
    (fun _ _ e => _lastNightLightState e = JBool newState).
Proof.
  unfold on_properties_changed. apply spec_bind, spec_get_this.
  destruct (jsbool_strict_neq (_lastNightLightState this) (JBool newState)) eqn:E.
  - apply spec_bind, spec_assign.
    eapply spec_mono; [| apply handleNightLightChange_instance].
    intros t r e ->. reflexivity.
  - apply spec_ret. apply jsbool_strict_neq_false, E.
Qed.

(** X15.  Whatever the environment answers: once a notification of the
    night-light state [newState] has been handled, the cached state is
    [newState], even when the handler threw; a further notification of
    the same state makes no call and leaves the instance; so does a
    notification that does not hold the night-light state. *)
Theorem night_light_notification_once :
  forall (W : Type) (h : env W) (w w' : W) (this : Ext) (newState : bool),
    let this1 := snd (result (run h (on_properties_changed (Some newState) this) w)) in
    _lastNightLightState this1 = JBool newState /\
    run h (on_properties_changed (Some newState) this1) w' = ((Ok tt, this1), w', []) /\
    run h (on_properties_changed None this) w = ((Ok tt, this), w, []).
Proof.
  intros W h w w' this newState. cbv zeta.
  assert (H := spec_run _ _ _ (on_properties_changed_state newState this) W h w).
  cbv beta in H. split; [exact H |]. split; [| reflexivity].
  unfold on_properties_changed at 1. cbv [bind get_this pbind]. cbn [fst snd].
  rewrite H. replace (jsbool_strict_neq (JBool newState) (JBool newState)) with false
    by (destruct newState; reflexivity).
  reflexivity.
Qed.

(** ** Start and stop on the desktop *)


Lemma live_writes_cons (o : obs) (t : list obs) :
  live_writes (o :: t) =
  match live_write o with
  | Some x => x :: live_writes t
  | None => live_writes t
  end.
Proof. reflexivity. Qed.

Lemma fresh_id_cons (s : option schema) (c : list (option schema * nat)) :
  fresh_id ((s, fresh_id c) :: c) = S (fresh_id c).
Proof. unfold fresh_id. simpl. lia. Qed.

Lemma fresh_id_cons2 (s s' : option schema) (c : list (option schema * nat)) :
  fresh_id ((s, S (fresh_id c)) :: (s', fresh_id c) :: c) = S (S (fresh_id c)).
Proof. unfold fresh_id. simpl. lia. Qed.

Lemma automatic_flag (this : Ext) (w : Desktop) (b : bool) :
  _dconfPath this = themekeeper_path ->
  fst (result (run desktop (_getAutomaticMode this) w)) = Ok b ->
  forall (this' : Ext) (w' : Desktop),
    _dconfPath this' = themekeeper_path ->
    dconf w' = dconf w ->
    result (run desktop (_getAutomaticMode this') w') = (Ok b, this') /\
    (b = false -> world (run desktop (_getAutomaticMode this') w') = w') /\
    dconf_boolean_of
      (SpawnReturns true
         (Some (output (dconf (world (run desktop (_getAutomaticMode this') w'))
                          !! (themekeeper_path +:+ "automatic-mode"))))) None = Some b /\
    forall k, k <> themekeeper_path +:+ "automatic-mode" ->
      dconf (world (run desktop (_getAutomaticMode this') w')) !! k = dconf w !! k.
Proof.
  intros Hpath Hb this' w' Hpath' Hd.
  destruct (getAutomaticMode_desktop this w Hpath) as [Hr _].
  destruct (getAutomaticMode_desktop this' w' Hpath') as [Hr' Hw'].
  unfold on_desktop in *. cbv zeta in *. rewrite Hd in Hr', Hw'. rewrite Hr', Hw'.
  destruct (dconf_boolean_of
              (SpawnReturns true
                 (Some (output (dconf w !! (themekeeper_path +:+ "automatic-mode"))))) None)
    as [x |] eqn:E; rewrite Hr in Hb; injection Hb as <-.
  - rewrite Hd, E. repeat split.
  - split; [reflexivity |]. split; [discriminate |]. split.
    + simpl dconf. rewrite lookup_insert_eq. reflexivity.
    + intros k Hk. simpl dconf. rewrite lookup_insert_ne by congruence. reflexivity.
Qed.

Ltac run_prefix :=
  repeat (progress (cbv [bind try_catch get_this assign connect set_string get_string call pbind
                         proxy_NightLightActive proxy_connect await_proxy_init];
                    cbn [fst snd run desktop store light dark result world trace
                         _settings _interfaceSettings _nightLightProxy _lastNightLightState
                         _storedWallpapers _wallpaperChangeHandler _styleChangeHandler _dconfPath
                         set_settings set_interfaceSettings set_nightLightProxy
                         set_lastNightLightState
                         set_stored_light set_stored_dark set_storedWallpapers
                         set_wallpaperChangeHandler set_styleChangeHandler
                         set_connections set_store connections background interface dconf
                         night_light])).

Lemma enable_manual (this : Ext) (w : Desktop) :
  _dconfPath this = themekeeper_path ->
  fst (result (run desktop (_getAutomaticMode this) w)) = Ok false ->
  let id := fresh_id (connections w) in
  result (run desktop (enable this) w) =
    (Ok tt,
     set_styleChangeHandler (Some (S id))
       (set_wallpaperChangeHandler (Some id)
          (set_stored_dark (Some (background w "picture-uri-dark"))
             (set_stored_light (Some (background w "picture-uri"))
                (set_interfaceSettings (Some Interface)
                   (set_settings (Some Background) this)))))) /\
  world (run desktop (enable this) w) =
    set_connections ((Some Interface, S id) :: (Some Background, id) :: connections w) w /\
  live_writes (trace (run desktop (enable this) w)) = [].
Proof.
  intros Hpath Hauto. cbv zeta. unfold enable, _initMonitoring. run_prefix.
  rewrite fresh_id_cons, run_pbind.
  match goal with
  | |- context [run desktop (_getAutomaticMode ?e) ?x] =>
      destruct (automatic_flag this w false Hpath Hauto e x Hpath eq_refl) as (Hr & Hw & _);
      destruct (getAutomaticMode_stores e x) as (_ & Hl & _)
  end.
  rewrite Hr, (Hw eq_refl). cbn [fst snd when ret run result world trace].
  rewrite app_nil_r, !live_writes_cons, Hl. repeat split.
Qed.

Lemma automatic_again (this : Ext) (w : Desktop) (b : bool) :
  _dconfPath this = themekeeper_path ->
  dconf_boolean_of
    (SpawnReturns true
       (Some (output (dconf w !! (themekeeper_path +:+ "automatic-mode"))))) None = Some b ->
  result (run desktop (_getAutomaticMode this) w) = (Ok b, this) /\
  world (run desktop (_getAutomaticMode this) w) = w.
Proof.
  intros Hpath Hb. destruct (getAutomaticMode_desktop this w Hpath) as [Hr Hw].
  unfold on_desktop in *. cbv zeta in *. rewrite Hb in Hr, Hw. split; assumption.
Qed.

Lemma enable_automatic (this : Ext) (w : Desktop) :
  _dconfPath this = themekeeper_path ->
  fst (result (run desktop (_getAutomaticMode this) w)) = Ok true ->
  let id := fresh_id (connections w) in
  let scheme := if jsbool_truthy (night_light w) then "prefer-dark" else "default" in
  exists db : gmap string string,
    result (run desktop (enable this) w) =
      (Ok tt,
       set_lastNightLightState (night_light w)
         (set_nightLightProxy (Some tt)
            (set_styleChangeHandler (Some (S id))
               (set_wallpaperChangeHandler (Some id)
                  (set_stored_dark (Some (background w "picture-uri-dark"))
                     (set_stored_light (Some (background w "picture-uri"))
                        (set_interfaceSettings (Some Interface)
                           (set_settings (Some Background) this)))))))) /\
    world (run desktop (enable this) w) =
      {| background := background w;
         interface := update (interface w) "color-scheme" scheme;
         dconf := db;
         connections :=
           (None, S (S id)) :: (Some Interface, S id) :: (Some Background, id) :: connections w;
         night_light := night_light w |} /\
    (forall k, k <> themekeeper_path +:+ "automatic-mode" -> db !! k = dconf w !! k) /\
    dconf_boolean_of
      (SpawnReturns true
         (Some (output (db !! (themekeeper_path +:+ "automatic-mode"))))) None = Some true /\
    live_writes (trace (run desktop (enable this) w)) = [(Interface, "color-scheme", scheme)].
Proof.
  intros Hpath Hauto. cbv zeta. unfold enable, _initMonitoring. run_prefix.
  rewrite fresh_id_cons, run_pbind.
  match goal with
  | |- context [run desktop (_getAutomaticMode ?e) ?x] =>
      destruct (automatic_flag this w true Hpath Hauto e x Hpath eq_refl) as (Hr & _ & Hf & Hk);
      destruct (getAutomaticMode_stores e x) as (_ & Hl & Hi & Hb & Hc & Hn);
      set (w0 := world (run desktop (_getAutomaticMode e) x)) in *;
      set (t0 := trace (run desktop (_getAutomaticMode e) x)) in *
  end.
  rewrite Hr. cbn [fst snd when]. clear Hr.
  cbn [connections set_connections background interface night_light] in Hi, Hb, Hc, Hn.
  clearbody w0 t0. exists (dconf w0).
  unfold _initNightLightMonitoring. run_prefix. rewrite !run_pbind, !Hn.
  lazymatch goal with
  | |- context [run desktop (_handleNightLightChange ?v ?e) ?x] =>
      destruct (automatic_again e w0 true Hpath Hf) as [Ha Hwa];
      destruct (handleNightLightChange_desktop x e v
                  (background w "picture-uri") (background w "picture-uri-dark")
                  eq_refl eq_refl eq_refl (f_equal fst Ha)) as (Hr & Hw & Hlw)
  end.
  rewrite Hwa, Hb in Hw. rewrite Hb in Hlw.
  assert (E : String.eqb
                (background w (if jsbool_truthy (night_light w)
                               then "picture-uri-dark" else "picture-uri"))
                (if jsbool_truthy (night_light w)
                 then background w "picture-uri-dark" else background w "picture-uri") = true).
  { destruct (jsbool_truthy (night_light w)); apply String.eqb_refl. }
  rewrite E in Hw, Hlw. rewrite Hr, Hw. clear Hr Hw E Ha Hwa.
  run_prefix. rewrite Hc, fresh_id_cons2.
  cbv [ret]. cbn [run fst snd result world trace set_connections]. rewrite Hb, Hi, Hn.
  split; [reflexivity |]. split; [reflexivity |]. split; [exact Hk |]. split; [exact Hf |].
  rewrite !live_writes_cons. cbn [live_write]. rewrite !live_writes_app, Hl.
  rewrite !live_writes_cons. cbn [live_write]. rewrite !live_writes_app, Hlw. reflexivity.
Qed.

(** X16.  On the desktop, for an instance with the path of the
    constructor and the automatic mode read as [false]: [enable] ends
    normally; it opens both settings objects, stores the two live
    wallpapers, connects the wallpaper handler and the colour-scheme
    handler under two new ids, and does nothing else: no proxy is
    created, the cached night-light state is as it was, no live setting
    is written and the database is as it was. *)
Theorem enable_in_manual_mode :
  forall (w : Desktop) (this : Ext),
    _dconfPath this = themekeeper_path ->
    fst (result (on_desktop _getAutomaticMode this w)) = Ok false ->
    let r := on_desktop enable this w in
    let this' := snd (result r) in
    let id := fresh_id (connections w) in
    fst (result r) = Ok tt /\
    _settings this' = Some Background /\
    _interfaceSettings this' = Some Interface /\
    _storedWallpapers this' =
      {| light := Some (background w "picture-uri");
         dark := Some (background w "picture-uri-dark") |} /\
    _wallpaperChangeHandler this' = Some id /\
    _styleChangeHandler this' = Some (S id) /\
    _nightLightProxy this' = _nightLightProxy this /\
    _lastNightLightState this' = _lastNightLightState this /\
    live_writes (trace r) = [] /\
    world r =
      set_connections ((Some Interface, S id) :: (Some Background, id) :: connections w) w.
Proof.
  intros w this Hpath Hauto. cbv zeta. unfold on_desktop in *.
  destruct (enable_manual this w Hpath Hauto) as (-> & -> & ->). repeat split.
Qed.

(** X17.  On the desktop, for an instance with the path of the
    constructor and the automatic mode read as [true] (the key unset
    included): [enable] ends normally; it opens both settings objects,
    stores the two live wallpapers, connects the two handlers, creates
    the proxy, caches the night-light state it reads and connects the
    handler of the proxy.  The colour scheme is then [prefer-dark] when
    the night light is on and [default] otherwise; the wallpapers are as
    they were, and the automatic mode reads [true] afterwards. *)
Theorem enable_in_automatic_mode :
  forall (w : Desktop) (this : Ext),
    _dconfPath this = themekeeper_path ->
    fst (result (on_desktop _getAutomaticMode this w)) = Ok true ->
    let r := on_desktop enable this w in
    let this' := snd (result r) in
    let id := fresh_id (connections w) in
    let scheme := if jsbool_truthy (night_light w) then "prefer-dark" else "default" in
    fst (result r) = Ok tt /\
    _settings this' = Some Background /\
    _interfaceSettings this' = Some Interface /\
    _storedWallpapers this' =
      {| light := Some (background w "picture-uri");
         dark := Some (background w "picture-uri-dark") |} /\
    _wallpaperChangeHandler this' = Some id /\
    _styleChangeHandler this' = Some (S id) /\
    _nightLightProxy this' = Some tt /\
    _lastNightLightState this' = night_light w /\
    interface (world r) "color-scheme" = scheme /\
    background (world r) = background w /\
    connections (world r) =
      (None, S (S id)) :: (Some Interface, S id) :: (Some Background, id) :: connections w /\
    fst (result (on_desktop _getAutomaticMode this' (world r))) = Ok true.
Proof.
  intros w this Hpath Hauto. cbv zeta. unfold on_desktop in *.
  destruct (enable_automatic this w Hpath Hauto) as (db & -> & -> & Hk & Hf & _).
  cbn [fst snd background interface connections dconf].
  do 8 (split; [reflexivity |]).
  split; [apply update_same |].
  split; [reflexivity |]. split; [reflexivity |].
  match goal with
  | |- context [run desktop (_getAutomaticMode ?e) ?x] =>
      destruct (automatic_again e x true Hpath Hf) as [-> _]
  end.
  reflexivity.
Qed.

Lemma enable_in_manual_mode_witness :
  _dconfPath constructor = themekeeper_path /\
  fst (result (on_desktop _getAutomaticMode constructor manual)) = Ok false /\
  let r := on_desktop enable constructor manual in
  let this' := snd (result r) in
  let id := fresh_id (connections manual) in
  fst (result r) = Ok tt /\
  _settings this' = Some Background /\
  _interfaceSettings this' = Some Interface /\
  _storedWallpapers this' =
    {| light := Some (background manual "picture-uri");
       dark := Some (background manual "picture-uri-dark") |} /\
  _wallpaperChangeHandler this' = Some id /\
  _styleChangeHandler this' = Some (S id) /\
  _nightLightProxy this' = _nightLightProxy constructor /\
  _lastNightLightState this' = _lastNightLightState constructor /\
  live_writes (trace r) = [] /\
  world r =
    set_connections ((Some Interface, S id) :: (Some Background, id) :: connections manual)
      manual.
Proof.
  split; [reflexivity |]. split; [vm_compute; reflexivity |].
  apply (enable_in_manual_mode manual constructor); [reflexivity | vm_compute; reflexivity].
Defined.

Lemma enable_in_automatic_mode_witness :
  _dconfPath constructor = themekeeper_path /\
  fst (result (on_desktop _getAutomaticMode constructor desk)) = Ok true /\
  let r := on_desktop enable constructor desk in
  let this' := snd (result r) in
  let id := fresh_id (connections desk) in
  let scheme := if jsbool_truthy (night_light desk) then "prefer-dark" else "default" in
  fst (result r) = Ok tt /\
  _settings this' = Some Background /\
  _interfaceSettings this' = Some Interface /\
  _storedWallpapers this' =
    {| light := Some (background desk "picture-uri");
       dark := Some (background desk "picture-uri-dark") |} /\
  _wallpaperChangeHandler this' = Some id /\
  _styleChangeHandler this' = Some (S id) /\
  _nightLightProxy this' = Some tt /\
  _lastNightLightState this' = night_light desk /\
  interface (world r) "color-scheme" = scheme /\
  background (world r) = background desk /\
  connections (world r) =
    (None, S (S id)) :: (Some Interface, S id) :: (Some Background, id) :: connections desk /\
  fst (result (on_desktop _getAutomaticMode this' (world r))) = Ok true.
Proof.
  split; [reflexivity |]. split; [vm_compute; reflexivity |].
  apply (enable_in_automatic_mode desk constructor); [reflexivity | vm_compute; reflexivity].
Defined.

Lemma filter_older (s : schema) (n : nat) (c : list (option schema * nat)) :
  fresh_id c <= n ->
  filter (fun x => negb (same_connection s n x)) c = c.
Proof.
  induction c as [| x c IH]; intros H; [reflexivity |].
  assert (Hx : snd x < n /\ fresh_id c <= n) by (unfold fresh_id in *; simpl in H; lia).
  destruct Hx as [Hx Hc].
  assert (E : same_connection s n x = false).
  { unfold same_connection.
    assert (En : Nat.eqb (snd x) n = false) by (apply Nat.eqb_neq; lia).
    destruct (fst x) as [[|] |], s; try reflexivity; exact En. }
  rewrite filter_cons_True by (rewrite E; exact I). rewrite (IH Hc). reflexivity.
Qed.

(** The instance after [disable]. *)
Lemma disable_instance {W : Type} (h : env W) (w : W) (this : Ext) :
  result (run h (disable this) w) =
  (Ok tt,
   set_lastNightLightState JNull
     (set_interfaceSettings None (set_settings None (set_nightLightProxy None this)))).
Proof.
  destruct this as [p s i l sw hw hs path].
  unfold disable.
  destruct p as [[] |], s as [s |], i as [i |], hw as [[| nw] |], hs as [[| ns] |];
    cbv [bind get_this assign when disconnect call pbind JS.nonnull id_truthy ret
         _nightLightProxy _settings _interfaceSettings _wallpaperChangeHandler
         _styleChangeHandler set_nightLightProxy set_settings set_interfaceSettings
         set_lastNightLightState _lastNightLightState _storedWallpapers _dconfPath
         fst snd run result];
    reflexivity.
Qed.

(** X18.  Whatever the environment answers: a second [disable] makes no
    call but the log line, and leaves the instance as the first one left
    it. *)
Theorem disable_twice :
  forall (W : Type) (h : env W) (w w' : W) (this : Ext),
    let this1 := snd (result (run h (disable this) w)) in
    let r := run h (disable this1) w' in
    result r = (Ok tt, this1) /\
    trace r = [Obs (ConsoleLog "ThemeKeeper: Disabled") tt].
Proof.
  intros W h w w' this. cbv zeta. rewrite (disable_instance h w this). cbn [snd].
  split.
  - rewrite disable_instance. reflexivity.
  - unfold disable.
    cbv [bind get_this assign when disconnect call pbind JS.nonnull id_truthy ret
         _nightLightProxy _settings _interfaceSettings _wallpaperChangeHandler
         _styleChangeHandler set_nightLightProxy set_settings set_interfaceSettings
         set_lastNightLightState fst snd run trace].
    destruct (h unit (ConsoleLog "ThemeKeeper: Disabled") w') as [[] w1]. reflexivity.
Qed.

Lemma same_connection_refl (s : schema) (n : nat) :
  same_connection s n (Some s, n) = true.
Proof. unfold same_connection. destruct s; apply Nat.eqb_refl. Qed.

Lemma filter_enabled (c pre : list (option schema * nat)) :
  Forall (fun x => fst x = None) pre ->
  let id := fresh_id c in
  filter (fun x => negb (same_connection Interface (S id) x))
    (filter (fun x => negb (same_connection Background id x))
       (pre ++ (Some Interface, S id) :: (Some Background, id) :: c)) = pre ++ c.
Proof.
  intros Hpre. cbv zeta. induction Hpre as [| x pre Hx _ IH].
  - cbn [app].
    rewrite (filter_cons_True _ (Some Interface, S (fresh_id c))) by exact I.
    rewrite (filter_cons_False _ (Some Background, fresh_id c))
      by (rewrite same_connection_refl; intros []).
    rewrite (filter_older Background (fresh_id c) c) by lia.
    rewrite (filter_cons_False _ (Some Interface, S (fresh_id c)))
      by (rewrite same_connection_refl; intros []).
    apply filter_older. lia.
  - cbn [app].
    assert (E : forall s n, same_connection s n x = false).
    { intros s n. unfold same_connection. rewrite Hx. reflexivity. }
    rewrite (filter_cons_True _ x) by (rewrite E; exact I).
    rewrite (filter_cons_True _ x) by (rewrite E; exact I).
    rewrite IH. reflexivity.
Qed.

Lemma disable_world (this : Ext) (w : Desktop) (c : list (option schema * nat)) (n : nat) :
  _settings this = Some Background ->
  _interfaceSettings this = Some Interface ->
  _wallpaperChangeHandler this = Some (fresh_id c) ->
  _styleChangeHandler this = Some (S n) ->
  world (run desktop (disable this) w) =
  set_connections
    (filter (fun x => negb (same_connection Interface (S n) x))
       (filter (fun x => negb (same_connection Background (fresh_id c) x)) (connections w))) w.
Proof.
  destruct this as [p s i l sw hw hs path]. cbn. intros -> -> -> ->.
  unfold disable, fresh_id. destruct p as [[] |];
    cbv [bind get_this assign when disconnect call pbind JS.nonnull id_truthy ret
         _nightLightProxy _settings _interfaceSettings _wallpaperChangeHandler
         _styleChangeHandler set_nightLightProxy set_settings set_interfaceSettings
         set_lastNightLightState _lastNightLightState _storedWallpapers _dconfPath
         fst snd run world desktop set_connections connections];
    reflexivity.
Qed.

Lemma then_disable (this : Ext) (w : Desktop) (e : Ext) (x : Desktop) :
  result (run desktop (enable this) w) = (Ok tt, e) ->
  world (run desktop (enable this) w) = x ->
  result (run desktop ((enable ;;; disable) this) w) = result (run desktop (disable e) x) /\
  world (run desktop ((enable ;;; disable) this) w) = world (run desktop (disable e) x).
Proof. intros Hr Hw. rewrite run_bind, Hr, Hw. split; reflexivity. Qed.

(** X19.  On the desktop, for an instance with the path of the
    constructor: after [enable] and then [disable], both settings
    references, the proxy reference and the cached night-light state are
    [null], the stored wallpapers are those [enable] read, and the two
    settings handlers are disconnected: the connections are those there
    were before, with, when the automatic mode is on, the handler
    connected on the proxy, which is not disconnected. *)
Theorem enable_then_disable :
  forall (w : Desktop) (this : Ext) (automatic : bool),
    _dconfPath this = themekeeper_path ->
    fst (result (on_desktop _getAutomaticMode this w)) = Ok automatic ->
    let r := on_desktop (enable ;;; disable) this w in
    let this' := snd (result r) in
    fst (result r) = Ok tt /\
    _settings this' = None /\
    _interfaceSettings this' = None /\
    _nightLightProxy this' = None /\
    _lastNightLightState this' = JNull /\
    _storedWallpapers this' =
      {| light := Some (background w "picture-uri");
         dark := Some (background w "picture-uri-dark") |} /\
    connections (world r) =
      (if automatic then [(None, S (S (fresh_id (connections w))))] else [])
      ++ connections w.
Proof.
  intros w this automatic Hpath Hauto. cbv zeta. unfold on_desktop in *.
  destruct automatic.
  - destruct (enable_automatic this w Hpath Hauto) as (db & Hr & Hw & _).
    destruct (then_disable this w _ _ Hr Hw) as [-> ->]. clear Hr Hw.
    rewrite disable_instance.
    erewrite disable_world; [| reflexivity ..].
    split; [reflexivity |]. split; [reflexivity |]. split; [reflexivity |].
    split; [reflexivity |]. split; [reflexivity |]. split; [reflexivity |].
    apply (filter_enabled (connections w) [(None, S (S (fresh_id (connections w))))]).
    repeat constructor.
  - destruct (enable_manual this w Hpath Hauto) as (Hr & Hw & _).
    destruct (then_disable this w _ _ Hr Hw) as [-> ->]. clear Hr Hw.
    rewrite disable_instance.
    erewrite disable_world; [| reflexivity ..].
    split; [reflexivity |]. split; [reflexivity |]. split; [reflexivity |].
    split; [reflexivity |]. split; [reflexivity |]. split; [reflexivity |].
    apply (filter_enabled (connections w) []). constructor.
Qed.

Lemma enable_then_disable_witness :
  _dconfPath constructor = themekeeper_path /\
  fst (result (on_desktop _getAutomaticMode constructor desk)) = Ok true /\
  let r := on_desktop (enable ;;; disable) constructor desk in
  let this' := snd (result r) in
  fst (result r) = Ok tt /\
  _settings this' = None /\
  _interfaceSettings this' = None /\
  _nightLightProxy this' = None /\
  _lastNightLightState this' = JNull /\
  _storedWallpapers this' =
    {| light := Some (background desk "picture-uri");
       dark := Some (background desk "picture-uri-dark") |} /\
  connections (world r) =
    (if true then [(None, S (S (fresh_id (connections desk))))] else [])
    ++ connections desk.
Proof.
  split; [reflexivity |]. split; [vm_compute; reflexivity |].
  apply (enable_then_disable desk constructor true); [reflexivity | vm_compute; reflexivity].
Defined.

(** ** The wallpaper handler on the desktop *)

(** X20.  On the desktop, with both settings objects open and both
    stored wallpapers set: whatever the new value and the colour scheme,
    after the handling of a change of a wallpaper key the stored
    wallpaper of that key and the live value of the key are the same; the
    other stored wallpaper, the other background keys and the interface
    settings are as they were. *)
Theorem wallpaper_memory_agrees_with_live_key :
  forall (w : Desktop) (this : Ext) (key a b : string),
    key = "picture-uri" \/ key = "picture-uri-dark" ->
    _settings this = Some Background ->
    _interfaceSettings this = Some Interface ->
    _storedWallpapers this = {| light := Some a; dark := Some b |} ->
    let r := on_desktop (_handleWallpaperChange key) this w in
    let this' := snd (result r) in
    let other := if String.eqb key "picture-uri" then "picture-uri-dark" else "picture-uri" in
    fst (result r) = Ok tt /\
    slot key (_storedWallpapers this') = Some (background (world r) key) /\
    slot other (_storedWallpapers this') = slot other (_storedWallpapers this) /\
    (forall k, k <> key -> background (world r) k = background w k) /\
    interface (world r) = interface w.
Proof.
  intros w this key a b Hkey Hbg Hifc Hst. cbv zeta. unfold on_desktop, _handleWallpaperChange.
  cbv [bind get_this pbind]. cbn [fst snd]. rewrite Hbg, Hifc, Hst.
  cbv [get_string call pbind]. cbn [fst snd run desktop store light dark].
  destruct Hkey as [-> | ->]; cbn [String.eqb Ascii.eqb Bool.eqb andb];
    destruct (_isPairedWallpaper (Some (background w _)));
    destruct (JS.includes (interface w "color-scheme") "dark");
    cbn [negb andb];
    cbv [assign set_string call set_stored_light set_stored_dark set_storedWallpapers slot];
    cbn [run desktop fst snd result world _storedWallpapers light dark set_store background
         interface String.eqb Ascii.eqb Bool.eqb];
    rewrite ?Hst; cbn [light dark];
    repeat split; try (rewrite update_same; reflexivity);
    intros k Hk; rewrite ?update_other by exact Hk; reflexivity.
Qed.

Lemma wallpaper_memory_agrees_with_live_key_witness :
  ("picture-uri" = "picture-uri" \/ "picture-uri" = "picture-uri-dark") /\
  _settings opened = Some Background /\
  _interfaceSettings opened = Some Interface /\
  _storedWallpapers opened =
    {| light := Some "file:///usr/share/backgrounds/sunset-l.jpg";
       dark := Some "file:///usr/share/backgrounds/sunset-d.png" |} /\
  let r := on_desktop (_handleWallpaperChange "picture-uri") opened overwritten in
  let this' := snd (result r) in
  let other :=
    if String.eqb "picture-uri" "picture-uri" then "picture-uri-dark" else "picture-uri" in
  fst (result r) = Ok tt /\
  slot "picture-uri" (_storedWallpapers this') = Some (background (world r) "picture-uri") /\
  slot other (_storedWallpapers this') = slot other (_storedWallpapers opened) /\
  (forall k, k <> "picture-uri" -> background (world r) k = background overwritten k) /\
  interface (world r) = interface overwritten.
Proof.
  split; [left; reflexivity |].
  do 3 (split; [vm_compute; reflexivity |]).
  apply (wallpaper_memory_agrees_with_live_key overwritten opened "picture-uri"
           "file:///usr/share/backgrounds/sunset-l.jpg"
           "file:///usr/share/backgrounds/sunset-d.png");
    [left; reflexivity | vm_compute; reflexivity ..].
Defined.

(** ** An applier that resumes on a disabled instance *)

Lemma live_writes_sets_trace_null (this : Ext) (kvs : list (string * option string)) :
  _interfaceSettings this = None -> live_writes (sets_trace this kvs) = [].
Proof.
  intros Hs. induction kvs as [| [key v] kvs IH]; simpl; [reflexivity |].
  rewrite Hs. destruct (JS.truthy_opt v); [reflexivity | exact IH].
Qed.

Lemma after_await_exec_trace cmd this pa started this1 resolved :
  live_writes (after_await (fst (exec_trace cmd this pa started this1 resolved))) = [] /\
  (no_await (fst (exec_trace cmd this pa started this1 resolved)) = false ->
   forall t, after_await (fst (exec_trace cmd this pa started this1 resolved) ++ t) =
             after_await (fst (exec_trace cmd this pa started this1 resolved)) ++ t).
Proof.
  destruct pa as [| [] argv]; [| destruct started; [destruct resolved |] |];
    split; try reflexivity; try discriminate.
Qed.

(** X21.  Whatever the environment answers otherwise: when the instance
    that comes back to an applier after its wait has no interface
    settings any more ([disable] ran meanwhile), the applier still ends
    normally and makes no live write after its first suspension. *)
Theorem applier_resumed_after_disable :
  forall (W : Type) (h : env W) (w : W) (this : Ext) (m : mode) (s : schema),
    _interfaceSettings this = Some s ->
    (forall (e : Ext) (w' : W), _interfaceSettings (fst (h _ (AwaitSettled e) w')) = None) ->
    let r := run h (apply m this) w in
    fst (result r) = Ok tt /\
    live_writes (after_await (trace r)) = [].
Proof.
  intros W h w this m s Hs Hdis. cbv zeta.
  assert (HF := run_answered h (apply m this) w). revert HF.
  apply (spec_run (apply m) this
           (fun t r _ => Forall (answered h) t ->
              r = Ok tt /\ live_writes (after_await t) = [])).
  apply apply_spec. intros a1 a2 a3 a4 a5 pa started this1 resolved this2 HF.
  split; [reflexivity |].
  assert (Hnn : JS.nonnull (_interfaceSettings this) = true) by (rewrite Hs; reflexivity).
  unfold apply_trace in *. rewrite Hnn, andb_false_r in *.
  rewrite !Forall_app in HF. destruct HF as (_ & _ & _ & _ & _ & _ & _ & Haw & _).
  apply Forall_cons in Haw as [[w' Haw] _].
  assert (H2 : _interfaceSettings this2 = None) by (rewrite Haw; apply Hdis).
  rewrite !after_await_app by (apply no_await_spawn_trace || apply no_await_sets_trace).
  set (ex := exec_trace _ this pa started this1 resolved).
  destruct (after_await_exec_trace (shell_command (dconf_string_of a2 None))
              this pa started this1 resolved) as [Hex Happ].
  fold ex in Hex, Happ.
  destruct (no_await (fst ex)) eqn:En.
  - rewrite after_await_app by exact En. cbn [app after_await is_await].
    apply live_writes_sets_trace_null, H2.
  - rewrite (Happ eq_refl), live_writes_app, Hex. cbn [app].
    rewrite live_writes_cons. cbn [live_write].
    apply live_writes_sets_trace_null, H2.
Qed.

Lemma applier_resumed_after_disable_witness :
  _interfaceSettings opened = Some Interface /\
  (forall (e : Ext) (w' : Desktop),
     _interfaceSettings (fst (stopped_meanwhile _ (AwaitSettled e) w')) = None) /\
  let r := run stopped_meanwhile (apply Dark opened) running in
  fst (result r) = Ok tt /\
  live_writes (after_await (trace r)) = [].
Proof.
  assert (H : forall (e : Ext) (w' : Desktop),
            _interfaceSettings (fst (stopped_meanwhile _ (AwaitSettled e) w')) = None).
  { intros e w'. cbn [stopped_meanwhile fst]. rewrite disable_instance. reflexivity. }
  split; [vm_compute; reflexivity |]. split; [exact H |].
  apply (applier_resumed_after_disable Desktop stopped_meanwhile running opened Dark Interface);
    [vm_compute; reflexivity | exact H].
Defined.

(** ** A proxy that cannot be initialised *)

(** X22.  Whatever the environment answers otherwise: when the
    initialisation of the proxy fails, [_initNightLightMonitoring] logs
    the error and ends normally; it reads no night-light state, handles
    no change and connects no handler, so it makes no other call. *)
Theorem night_light_init_failure :
  forall (W : Type) (h : env W) (w : W) (this : Ext),
    let asked := AwaitProxyInit (set_nightLightProxy (Some tt) this) in
    snd (fst (h _ asked w)) = false ->
    let r := run h (_initNightLightMonitoring this) w in
    fst (result r) = Ok tt /\
    snd (result r) = fst (fst (h _ asked w)) /\
    trace r = [Obs asked (fst (h _ asked w)); Obs (LogError GLibError) tt].
Proof.
  intros W h w this asked Hfail. cbv zeta. unfold _initNightLightMonitoring.
  cbv [try_catch bind assign await_proxy_init pbind]. cbn [fst snd run].
  fold asked. destruct (h (Ext * bool)%type asked w) as [[this1 ok] w1].
  cbn [fst snd] in Hfail |- *. subst ok.
  cbv [_logError call pbind]. cbn [fst snd run result trace].
  destruct (h unit (LogError GLibError) w1) as [[] w2]. repeat split.
Qed.

Lemma night_light_init_failure_witness :
  let asked := AwaitProxyInit (set_nightLightProxy (Some tt) constructor) in
  snd (fst (no_color_daemon _ asked desk)) = false /\
  let r := run no_color_daemon (_initNightLightMonitoring constructor) desk in
  fst (result r) = Ok tt /\
  snd (result r) = fst (fst (no_color_daemon _ asked desk)) /\
  trace r = [Obs asked (fst (no_color_daemon _ asked desk)); Obs (LogError GLibError) tt].
Proof.
  split; [reflexivity |].
  apply (night_light_init_failure Desktop no_color_daemon desk constructor). reflexivity.
Defined.
